(** * Hacknix Meetings: the signaling and room server (server.js)

    A shallow embedding of the room aggregate, the two LRU caches, the
    rate limiter, the Socket.IO event handlers and the HTTP endpoints of
    [server.js], and the properties of the specification that are stated
    about them.

    Conventions of the embedding.
    - JavaScript numbers that the server handles are integers (clock
      readings, sizes, counters); they are modelled in [Z].  The only
      counter that grows without bound is [messageCount]; its increment is
      written with the rounding of doubles ([js_incr]).
    - [Date.now()] is an argument [now] of every operation; one handler
      run reads one clock value, and the time to live of a cache entry is
      measured on the same clock.
    - A JavaScript [Map] is an association list in insertion order
      ([JsMap]); the two [LRUCache] instances are lists of entries in
      recency order ([LRU]).
    - A method that mutates [this] returns the new object beside its
      result; a method that may throw returns a [Completion] beside the
      state it leaves behind.
    - Socket.IO is modelled by what the handlers use of it: every
      connected socket is subscribed to the channel named by its own id,
      [socket.join] subscribes it to one more channel, and the three
      emitters reach the socket itself ([socket.emit]), the subscribers of
      a channel but the socket ([socket.to(c).emit]) or all of them
      ([io.to(c).emit]).  There is one server process: no Redis adapter
      and no recovery of a lost connection.
    - A payload is an object.  Its [roomId], [name] and [message] are any
      JSON value ([JsVal]); the media flags are the booleans the client
      sends, with the default [false] applied. *)

From Stdlib Require Import ZArith Ascii String DecimalString.
From stdpp Require Import gmap strings list fin_maps.

Local Open Scope Z_scope.

(** ** JavaScript values and strings *)

(** A string is a sequence of code units; the embedding covers the code
    units below 256.  [is_ws] is the white space of [String.prototype.trim]
    in that range: TAB, LF, VT, FF, CR, SPACE and NBSP. *)
Definition is_ws (a : ascii) : bool :=
  let n := N_of_ascii a in
  ((9 <=? n)%N && (n <=? 13)%N) || (n =? 32)%N || (n =? 160)%N.

Fixpoint trimStart (s : string) : string :=
  match s with
  | EmptyString => EmptyString
  | String a s' => if is_ws a then trimStart s' else s
  end.

Fixpoint trimEnd (s : string) : string :=
  match s with
  | EmptyString => EmptyString
  | String a s' =>
      match trimEnd s' with
      | EmptyString => if is_ws a then EmptyString else String a EmptyString
      | t => String a t
      end
  end.

Definition trim (s : string) : string := trimEnd (trimStart s).

Definition str_length (s : string) : Z := Z.of_nat (String.length s).

(** Truthiness of a string: only the empty string is falsy. *)
Definition truthy (s : string) : bool := negb (String.eqb s "").

(** A field of a client payload as the handlers use it: absent (or null),
    a string, or any other JSON value (number, boolean, array, object),
    on which [.trim] is not a function. *)
Inductive JsVal :=
  | JUndefined
  | JString (s : string)
  | JOther.

(** The outcome of a call that may throw. *)
Inductive Completion (A : Type) :=
  | Normal (a : A)
  | Throw (message : string).
Arguments Normal {A} a.
Arguments Throw {A} message.

(** [n + 1] on doubles: exact below 2^53, where it rounds back to [n]. *)
Definition js_incr (n : Z) : Z := if n <? 2 ^ 53 then n + 1 else n.

Definition string_of_Z (n : Z) : string :=
  NilZero.string_of_uint (N.to_uint (Z.to_N n)).

(** [Array.prototype.slice(start)]. *)
Definition slice_from {A} (start : Z) (l : list A) : list A :=
  let len := Z.of_nat (length l) in
  let k := if start <? 0 then Z.max (len + start) 0 else Z.min start len in
  drop (Z.to_nat k) l.

(** ** JavaScript [Map] with string keys, in insertion order *)

Module JsMap.
Section JsMap.
Context {V : Type}.

Definition t := list (string * V).

Fixpoint get (k : string) (m : list (string * V)) : option V :=
  match m with
  | [] => None
  | (k', v) :: m' => if String.eqb k k' then Some v else get k m'
  end.

Definition has (k : string) (m : list (string * V)) : bool :=
  match get k m with Some _ => true | None => false end.

(** [set] keeps the position of a key that is present and appends a new one. *)
Fixpoint set (k : string) (v : V) (m : list (string * V)) : list (string * V) :=
  match m with
  | [] => [(k, v)]
  | (k', v') :: m' =>
      if String.eqb k k' then (k, v) :: m' else (k', v') :: set k v m'
  end.

(** [delete] removes the key and tells whether it was there. *)
Fixpoint delete (k : string) (m : list (string * V)) : bool * list (string * V) :=
  match m with
  | [] => (false, [])
  | (k', v') :: m' =>
      if String.eqb k k' then (true, m')
      else let '(b, m'') := delete k m' in (b, (k', v') :: m'')
  end.

Definition size (m : list (string * V)) : Z := Z.of_nat (length m).

Definition keys (m : list (string * V)) : list string := m.*1.

Definition values (m : list (string * V)) : list V := m.*2.

End JsMap.
Arguments t : clear implicits.
End JsMap.

(** ** The room aggregate *)

Definition MAX_ROOMS : Z := 200.
Definition MAX_USERS_PER_ROOM : Z := 150.
Definition MAX_CHAT_HISTORY : Z := 100.

Module User.
Record t := mk {
  id : string;
  name : string;
  cameraOn : bool;
  audioOn : bool;
  screenShareOn : bool;
  joinedAt : Z
}.
End User.

(** The [userData] argument of [addUser]. *)
Module UserData.
Record t := mk {
  name : string;
  cameraOn : bool;
  audioOn : bool;
  screenShareOn : bool
}.
End UserData.

(** The [status] argument of [updateUserStatus]: every field may be
    [undefined]. *)
Module Status.
Record t := mk {
  cameraOn : option bool;
  audioOn : option bool;
  screenShareOn : option bool;
  name : option string
}.
End Status.

(** The message built by the chat handler, and the message as stored in
    the history, with its [id]. *)
Module ChatMessage.
Record t := mk {
  name : string;
  message : string;
  timestamp : Z
}.
End ChatMessage.

Module StoredMessage.
Record t := mk {
  name : string;
  message : string;
  timestamp : Z;
  id : Z
}.

(** [{...chatMessage, id}]. *)
Definition with_id (chatMessage : ChatMessage.t) (id : Z) : t :=
  {| name := ChatMessage.name chatMessage;
     message := ChatMessage.message chatMessage;
     timestamp := ChatMessage.timestamp chatMessage;
     id := id |}.
End StoredMessage.

Module Flags.
Record t := mk {
  cameraOn : bool;
  audioOn : bool;
  screenShareOn : bool
}.
End Flags.

Module OptimizedRoom.
Record t := mk {
  id : string;
  users : list (string * User.t);
  chatHistory : list StoredMessage.t;
  createdAt : Z;
  lastActivity : Z;
  _usersList : option (list User.t);
  _usersListExpiry : Z;
  messageCount : Z
}.

Definition new (id : string) (now : Z) : t :=
  {| id := id; users := []; chatHistory := []; createdAt := now;
     lastActivity := now; _usersList := None; _usersListExpiry := 0;
     messageCount := 0 |}.

Definition with_users (us : list (string * User.t)) (r : t) : t :=
  {| id := id r; users := us; chatHistory := chatHistory r;
     createdAt := createdAt r; lastActivity := lastActivity r;
     _usersList := _usersList r; _usersListExpiry := _usersListExpiry r;
     messageCount := messageCount r |}.

Definition with_lastActivity (now : Z) (r : t) : t :=
  {| id := id r; users := users r; chatHistory := chatHistory r;
     createdAt := createdAt r; lastActivity := now;
     _usersList := _usersList r; _usersListExpiry := _usersListExpiry r;
     messageCount := messageCount r |}.

Definition with_cache (l : option (list User.t)) (expiry : Z) (r : t) : t :=
  {| id := id r; users := users r; chatHistory := chatHistory r;
     createdAt := createdAt r; lastActivity := lastActivity r;
     _usersList := l; _usersListExpiry := expiry;
     messageCount := messageCount r |}.

Definition _invalidateCache (r : t) : t := with_cache None 0 r.

Definition addUser (socketId : string) (userData : UserData.t) (now : Z)
    (r : t) : Completion unit * t :=
  if JsMap.size (users r) >=? MAX_USERS_PER_ROOM then (Throw "Room is full", r)
  else
    let u := {| User.id := socketId;
                User.name := UserData.name userData;
                User.cameraOn := UserData.cameraOn userData;
                User.audioOn := UserData.audioOn userData;
                User.screenShareOn := UserData.screenShareOn userData;
                User.joinedAt := now |} in
    (Normal tt,
     _invalidateCache
       (with_lastActivity now (with_users (JsMap.set socketId u (users r)) r))).

Definition removeUser (socketId : string) (now : Z) (r : t) : bool * t :=
  let '(removed, us) := JsMap.delete socketId (users r) in
  if removed
  then (true, _invalidateCache (with_lastActivity now (with_users us r)))
  else (false, r).

Definition merge (status : Status.t) (user : User.t) : User.t :=
  {| User.id := User.id user;
     User.name := default (User.name user) (Status.name status);
     User.cameraOn := default (User.cameraOn user) (Status.cameraOn status);
     User.audioOn := default (User.audioOn user) (Status.audioOn status);
     User.screenShareOn :=
       default (User.screenShareOn user) (Status.screenShareOn status);
     User.joinedAt := User.joinedAt user |}.

Definition updateUserStatus (socketId : string) (status : Status.t) (now : Z)
    (r : t) : option User.t * t :=
  match JsMap.get socketId (users r) with
  | None => (None, r)
  | Some user =>
      let user' := merge status user in
      (Some user',
       _invalidateCache
         (with_lastActivity now
            (with_users (JsMap.set socketId user' (users r)) r)))
  end.

Definition getUsersArray (now : Z) (r : t) : list User.t * t :=
  match _usersList r with
  | Some l =>
      if now >? _usersListExpiry r
      then let l' := JsMap.values (users r) in
           (l', with_cache (Some l') (now + 5000) r)
      else (l, r)
  | None =>
      let l' := JsMap.values (users r) in
      (l', with_cache (Some l') (now + 5000) r)
  end.

Definition flags_of (user : User.t) : Flags.t :=
  {| Flags.cameraOn := User.cameraOn user;
     Flags.audioOn := User.audioOn user;
     Flags.screenShareOn := User.screenShareOn user |}.

Definition getUsersStatus (r : t) : list (string * Flags.t) :=
  foldl (fun status '(socketId, user) =>
           JsMap.set socketId (flags_of user) status)
        [] (users r).

Definition isEmpty (r : t) : bool := JsMap.size (users r) =? 0.

Definition addMessage (chatMessage : ChatMessage.t) (now : Z) (r : t) : t :=
  let count := js_incr (messageCount r) in
  let pushed := chatHistory r ++ [StoredMessage.with_id chatMessage count] in
  let history :=
    if Z.of_nat (length pushed) >? MAX_CHAT_HISTORY then tail pushed
    else pushed in
  {| id := id r; users := users r; chatHistory := history;
     createdAt := createdAt r; lastActivity := now;
     _usersList := _usersList r; _usersListExpiry := _usersListExpiry r;
     messageCount := count |}.

Definition getChatHistory (limit : Z) (r : t) : list StoredMessage.t :=
  slice_from (- limit) (chatHistory r).

End OptimizedRoom.

(** ** The [LRUCache] of the lru-cache package

    The entries are kept most recently used first, each with the clock
    value at which its time to live started.  Every operation returns the
    entries it handed to the [dispose] callback.  [allowStale] is false in
    both caches of the server: [get] deletes an entry whose time to live
    has passed and answers [undefined]. *)

Module LRU.

Record config := mkConfig {
  max : Z;
  ttl : Z;
  updateAgeOnGet : bool
}.

Section LRU.
Context {V : Type}.

Record entry := mkEntry {
  key : string;
  value : V;
  start : Z
}.

Definition isStale (cfg : config) (now : Z) (e : entry) : bool :=
  (ttl cfg >? 0) && (now - start e >? ttl cfg).

Fixpoint find (k : string) (items : list entry) : option entry :=
  match items with
  | [] => None
  | e :: items' => if String.eqb k (key e) then Some e else find k items'
  end.

Definition remove (k : string) (items : list entry) : list entry :=
  filter (fun e => String.eqb k (key e) = false) items.

Definition get (cfg : config) (now : Z) (k : string) (items : list entry)
    : option V * list entry * list (string * V) :=
  match find k items with
  | None => (None, items, [])
  | Some e =>
      if isStale cfg now e then (None, remove k items, [(k, value e)])
      else
        let e' := {| key := k; value := value e;
                     start := if updateAgeOnGet cfg then now else start e |} in
        (Some (value e), e' :: remove k items, [])
  end.

(** The least recently used entry leaves when the cache is full. *)
Definition evict (items : list entry) : list entry * list (string * V) :=
  match last items with
  | Some e => (take (length items - 1)%nat items, [(key e, value e)])
  | None => (items, [])
  end.

(** [set] restarts the time to live.  Writing over a key disposes of the
    value it held (the package does so when the new value is another
    object; the server never writes a new room over a live one, and the
    rate-limit cache has no [dispose]). *)
Definition set (cfg : config) (now : Z) (k : string) (v : V)
    (items : list entry) : list entry * list (string * V) :=
  let e' := {| key := k; value := v; start := now |} in
  match find k items with
  | Some e => (e' :: remove k items, [(k, value e)])
  | None =>
      if Z.of_nat (length items) >=? max cfg
      then let '(items', disposed) := evict items in (e' :: items', disposed)
      else (e' :: items, [])
  end.

Definition delete (k : string) (items : list entry)
    : bool * list entry * list (string * V) :=
  match find k items with
  | Some e => (true, remove k items, [(k, value e)])
  | None => (false, items, [])
  end.

(** [entries()] skips the stale entries and leaves them in place. *)
Definition entries (cfg : config) (now : Z) (items : list entry)
    : list (string * V) :=
  (fun e => (key e, value e)) <$>
    filter (fun e => isStale cfg now e = false) items.

Definition values (cfg : config) (now : Z) (items : list entry) : list V :=
  (entries cfg now items).*2.

(** A value of the cache is an object: a handler that holds it mutates it
    in place, which changes neither its recency nor its time to live. *)
Definition modify (k : string) (f : V → V) (items : list entry) : list entry :=
  (fun e => if String.eqb k (key e)
            then {| key := key e; value := f (value e); start := start e |}
            else e) <$> items.

End LRU.
Arguments entry : clear implicits.
End LRU.

(** ** Rate limiting *)

Module RateLimit.
Record t := mk {
  count : Z;
  resetTime : Z
}.
End RateLimit.

Definition rateLimits_config : LRU.config :=
  {| LRU.max := 10000; LRU.ttl := 1000 * 60 * 5; LRU.updateAgeOnGet := false |}.

Definition isRateLimited (socketId action : string) (limit windowMs : Z)
    (now : Z) (rateLimits : list (LRU.entry RateLimit.t))
    : bool * list (LRU.entry RateLimit.t) :=
  let key := socketId +:+ ":" +:+ action in
  let '(found, rateLimits1, _) := LRU.get rateLimits_config now key rateLimits in
  let fresh := {| RateLimit.count := 1; RateLimit.resetTime := now + windowMs |} in
  match found with
  | None => (false, (LRU.set rateLimits_config now key fresh rateLimits1).1)
  | Some rateLimit =>
      if now >? RateLimit.resetTime rateLimit
      then (false, (LRU.set rateLimits_config now key fresh rateLimits1).1)
      else if RateLimit.count rateLimit >=? limit then (true, rateLimits1)
      else
        let rateLimit' :=
          {| RateLimit.count := RateLimit.count rateLimit + 1;
             RateLimit.resetTime := RateLimit.resetTime rateLimit |} in
        (false, (LRU.set rateLimits_config now key rateLimit' rateLimits1).1)
  end.

(** ** Socket.IO: sockets, channels and emitted events *)

(** One connection: the channels its socket is subscribed to (its own id
    and what [socket.join] added) and the two variables of the connection
    closure. *)
Module Socket.
Record t := mk {
  rooms : gset string;
  currentRoomId : option string;
  userName : option string
}.

Definition new (id : string) : t :=
  {| rooms := {[id]}; currentRoomId := None; userName := None |}.

Definition join (channel : string) (sk : t) : t :=
  {| rooms := {[channel]} ∪ rooms sk;
     currentRoomId := currentRoomId sk; userName := userName sk |}.
End Socket.

(** An entry of the [users] array of [existing-users]. *)
Module ExistingUser.
Record t := mk {
  id : string;
  name : string;
  joinedAt : Z
}.
End ExistingUser.

(** Events the server emits.  The contents of an offer, an answer or a
    candidate are never inspected: [sdp] and [body] stand for them. *)
Inductive Event :=
  | EvPong (timestamp : Z)
  | EvError (message : string)
  | EvExistingUsers (users : list ExistingUser.t)
      (roomUserStatus : list (string * Flags.t))
  | EvUserStartedScreenShare (userId : string) (name : option string)
  | EvUserStoppedScreenShare (userId : string) (name : option string)
  | EvChatHistory (chatHistory : list StoredMessage.t)
  | EvUserJoined (userId name : string) (flags : Flags.t)
  | EvOffer (sdp from name : string) (flags : Flags.t)
  | EvAnswer (to body from : string)
  | EvIceCandidate (to body from : string)
  | EvMediaStatusChange (userId : string) (flags : Flags.t)
  | EvChatMessage (chatMessage : ChatMessage.t)
  | EvUserLeft (socketId : string)
  | EvRoomDisposed (message : string) (timestamp : Z).

(** An emitted event with the sockets it is delivered to. *)
Record Emit := mkEmit {
  recipients : gset string;
  event : Event
}.

Definition subscribers (channel : string) (sockets : gmap string Socket.t)
    : gset string :=
  dom (filter (fun kv => channel ∈ Socket.rooms kv.2) sockets).

(** [socket.emit], [socket.to(channel).emit] and [io.to(channel).emit]. *)
Definition socket_emit (socketId : string) (ev : Event) : Emit :=
  {| recipients := {[socketId]}; event := ev |}.

Definition socket_to (sockets : gmap string Socket.t) (socketId channel : string)
    (ev : Event) : Emit :=
  {| recipients := subscribers channel sockets ∖ {[socketId]}; event := ev |}.

Definition io_to (sockets : gmap string Socket.t) (channel : string)
    (ev : Event) : Emit :=
  {| recipients := subscribers channel sockets; event := ev |}.

(** ** The state of the server *)

Module ConnectionStats.
Record t := mk {
  total : Z;
  peak : Z;
  lastPeakTime : Z;
  totalConnections : Z
}.
End ConnectionStats.

Module Server.
Record t := mk {
  rooms : list (LRU.entry OptimizedRoom.t);
  rateLimits : list (LRU.entry RateLimit.t);
  sockets : gmap string Socket.t;
  cleanupScheduled : bool;
  connectionStats : ConnectionStats.t
}.

Definition init (now : Z) : t :=
  {| rooms := []; rateLimits := []; sockets := ∅; cleanupScheduled := false;
     connectionStats :=
       {| ConnectionStats.total := 0; ConnectionStats.peak := 0;
          ConnectionStats.lastPeakTime := now;
          ConnectionStats.totalConnections := 0 |} |}.

Definition with_rooms (rs : list (LRU.entry OptimizedRoom.t)) (s : t) : t :=
  {| rooms := rs; rateLimits := rateLimits s; sockets := sockets s;
     cleanupScheduled := cleanupScheduled s;
     connectionStats := connectionStats s |}.

Definition with_rateLimits (rl : list (LRU.entry RateLimit.t)) (s : t) : t :=
  {| rooms := rooms s; rateLimits := rl; sockets := sockets s;
     cleanupScheduled := cleanupScheduled s;
     connectionStats := connectionStats s |}.

Definition with_sockets (sks : gmap string Socket.t) (s : t) : t :=
  {| rooms := rooms s; rateLimits := rateLimits s; sockets := sks;
     cleanupScheduled := cleanupScheduled s;
     connectionStats := connectionStats s |}.

Definition with_cleanupScheduled (b : bool) (s : t) : t :=
  {| rooms := rooms s; rateLimits := rateLimits s; sockets := sockets s;
     cleanupScheduled := b; connectionStats := connectionStats s |}.

Definition with_connectionStats (c : ConnectionStats.t) (s : t) : t :=
  {| rooms := rooms s; rateLimits := rateLimits s; sockets := sockets s;
     cleanupScheduled := cleanupScheduled s; connectionStats := c |}.
End Server.

Definition rooms_config : LRU.config :=
  {| LRU.max := MAX_ROOMS; LRU.ttl := 1000 * 60 * 60 * 2;
     LRU.updateAgeOnGet := true |}.

(** The [dispose] callback of the room cache. *)
Definition dispose (sockets : gmap string Socket.t) (now : Z)
    (roomId : string) (room : OptimizedRoom.t) : list Emit :=
  if JsMap.size (OptimizedRoom.users room) >? 0
  then [io_to sockets roomId
          (EvRoomDisposed "Room has been disposed due to inactivity" now)]
  else [].

Definition dispose_all (sockets : gmap string Socket.t) (now : Z)
    (disposed : list (string * OptimizedRoom.t)) : list Emit :=
  disposed ≫= (fun '(roomId, room) => dispose sockets now roomId room).

(** [rooms.get(roomId)] in a handler: the room if there is a live one, the
    cache after the lookup and what [dispose] emitted. *)
Definition rooms_get (now : Z) (roomId : option string) (s : Server.t)
    : option OptimizedRoom.t * Server.t * list Emit :=
  match roomId with
  | None => (None, s, [])
  | Some k =>
      let '(room, rooms1, disposed) :=
        LRU.get rooms_config now k (Server.rooms s) in
      (room, Server.with_rooms rooms1 s,
       dispose_all (Server.sockets s) now disposed)
  end.

Definition getOrCreateRoom (roomId : string) (now : Z) (s : Server.t)
    : OptimizedRoom.t * Server.t * list Emit :=
  let '(found, s1, out1) := rooms_get now (Some roomId) s in
  match found with
  | Some room => (room, s1, out1)
  | None =>
      let room := OptimizedRoom.new roomId now in
      let '(rooms2, disposed) :=
        LRU.set rooms_config now roomId room (Server.rooms s1) in
      (room, Server.with_rooms rooms2 s1,
       out1 ++ dispose_all (Server.sockets s1) now disposed)
  end.

(** A mutation of the room object held under [roomId]. *)
Definition room_modify (roomId : string) (f : OptimizedRoom.t → OptimizedRoom.t)
    (s : Server.t) : Server.t :=
  Server.with_rooms (LRU.modify roomId f (Server.rooms s)) s.

Definition socket_modify (socketId : string) (f : Socket.t → Socket.t)
    (s : Server.t) : Server.t :=
  Server.with_sockets (alter f socketId (Server.sockets s)) s.

(** [scheduleCleanup]: at most one sweep is pending. *)
Definition scheduleCleanup (s : Server.t) : Server.t :=
  if Server.cleanupScheduled s then s else Server.with_cleanupScheduled true s.

(** The sweep that the timer of [scheduleCleanup] runs. *)
Definition cleanup (now : Z) (s : Server.t) : Server.t :=
  let maxInactiveTime := 30 * 60 * 1000 in
  let doomed :=
    filter (fun '(_, room) =>
              OptimizedRoom.isEmpty room = true ∧
              now - OptimizedRoom.lastActivity room > maxInactiveTime)
           (LRU.entries rooms_config now (Server.rooms s)) in
  Server.with_cleanupScheduled false
    (Server.with_rooms
       (foldl (fun items '(roomId, _) => (LRU.delete roomId items).1.2)
              (Server.rooms s) doomed)
       s).

(** ** Client payloads *)

Module JoinPayload.
Record t := mk {
  roomId : JsVal;
  name : JsVal;
  cameraOn : bool;
  audioOn : bool;
  screenShareOn : bool
}.
End JoinPayload.

Module OfferPayload.
Record t := mk {
  sdp : string;
  to : option string
}.
End OfferPayload.

Module RelayPayload.
Record t := mk {
  to : option string;
  body : string
}.
End RelayPayload.

Module ChatPayload.
Record t := mk {
  roomId : JsVal;
  message : JsVal;
  name : JsVal
}.
End ChatPayload.

(** ** The handlers of a connection

    Each handler takes the clock, the id of the socket, the variables of
    the connection closure that it reads, and the server state; it answers
    the new state and the events emitted, in order. *)

Definition on_ping_from_client (now : Z) (socketId : string) (s : Server.t)
    : Server.t * list Emit :=
  (s, [socket_emit socketId (EvPong now)]).

(** The test
    [!roomId?.trim() || !name?.trim() || roomId.length > 50 || name.length > 30]:
    [Normal None] when it holds, the two strings when it does not, and a
    [TypeError] when [.trim] is looked up on a value that has none. *)
Definition validate_join (roomId name : JsVal) : Completion (option (string * string)) :=
  match roomId with
  | JUndefined => Normal None
  | JOther => Throw "roomId?.trim is not a function"
  | JString r =>
      if negb (truthy (trim r)) then Normal None
      else match name with
           | JUndefined => Normal None
           | JOther => Throw "name?.trim is not a function"
           | JString n =>
               if negb (truthy (trim n)) then Normal None
               else if str_length r >? 50 then Normal None
               else if str_length n >? 30 then Normal None
               else Normal (Some (r, n))
           end
  end.

(** The message of the [catch] block of [join-room]. *)
Definition join_error (message : string) : string :=
  if String.eqb message "Room is full"
  then "Room is full (max " +:+ string_of_Z MAX_USERS_PER_ROOM +:+ " users)"
  else "Failed to join room. Please try again.".

Definition existing_of (u : User.t) : ExistingUser.t :=
  {| ExistingUser.id := User.id u; ExistingUser.name := User.name u;
     ExistingUser.joinedAt := User.joinedAt u |}.

Definition on_join_room (now : Z) (socketId : string) (p : JoinPayload.t)
    (s : Server.t) : Server.t * list Emit :=
  match validate_join (JoinPayload.roomId p) (JoinPayload.name p) with
  | Throw message => (s, [socket_emit socketId (EvError (join_error message))])
  | Normal None => (s, [socket_emit socketId (EvError "Invalid room ID or name")])
  | Normal (Some (roomId, name)) =>
      let '(limited, rl) :=
        isRateLimited socketId "join-room" 5 60000 now (Server.rateLimits s) in
      let s1 := Server.with_rateLimits rl s in
      if limited
      then (s1, [socket_emit socketId
                   (EvError "Too many join attempts. Please wait.")])
      else
        let '(room, s2, out2) := getOrCreateRoom (trim roomId) now s1 in
        let s3 :=
          socket_modify socketId
            (fun sk => {| Socket.rooms := Socket.rooms sk;
                          Socket.currentRoomId := Some (trim roomId);
                          Socket.userName := Some (trim name) |}) s2 in
        let '(usersArray, room1) := OptimizedRoom.getUsersArray now room in
        let existingUsers := existing_of <$> usersArray in
        let existingStatus := OptimizedRoom.getUsersStatus room1 in
        let s4 := socket_modify socketId (Socket.join roomId) s3 in
        let userData :=
          {| UserData.name := trim name;
             UserData.cameraOn := JoinPayload.cameraOn p;
             UserData.audioOn := JoinPayload.audioOn p;
             UserData.screenShareOn := JoinPayload.screenShareOn p |} in
        let '(added, room2) := OptimizedRoom.addUser socketId userData now room1 in
        match added with
        | Throw message =>
            (room_modify (trim roomId) (fun _ => room2) s4,
             out2 ++ [socket_emit socketId (EvError (join_error message))])
        | Normal _ =>
            let '(usersArray', room3) := OptimizedRoom.getUsersArray now room2 in
            let screenSharers :=
              filter (fun u => User.screenShareOn u = true) usersArray' in
            let chatHistory := OptimizedRoom.getChatHistory MAX_CHAT_HISTORY room3 in
            (room_modify (trim roomId) (fun _ => room3) s4,
             out2
             ++ [socket_emit socketId (EvExistingUsers existingUsers existingStatus)]
             ++ ((fun sharer =>
                    socket_emit socketId
                      (EvUserStartedScreenShare (User.id sharer)
                         (Some (User.name sharer)))) <$> screenSharers)
             ++ (if Z.of_nat (length chatHistory) >? 0
                 then [socket_emit socketId (EvChatHistory chatHistory)]
                 else [])
             ++ [socket_to (Server.sockets s4) socketId roomId
                   (EvUserJoined socketId (trim name)
                      {| Flags.cameraOn := JoinPayload.cameraOn p;
                         Flags.audioOn := JoinPayload.audioOn p;
                         Flags.screenShareOn := JoinPayload.screenShareOn p |})])
        end
  end.

(** [room?.users.get(socket.id)]. *)
Definition user_of (socketId : string) (room : option OptimizedRoom.t)
    : option User.t :=
  room ≫= (fun r => JsMap.get socketId (OptimizedRoom.users r)).

(** Truthiness of a string that may be [undefined] or [null]. *)
Definition truthy_opt (o : option string) : bool :=
  match o with Some x => truthy x | None => false end.

Definition on_offer (now : Z) (socketId : string) (currentRoomId : option string)
    (payload : OfferPayload.t) (s : Server.t) : Server.t * list Emit :=
  let '(room, s1, out1) := rooms_get now currentRoomId s in
  match user_of socketId room, OfferPayload.to payload with
  | Some user, Some to =>
      if truthy to
      then (s1, out1 ++ [socket_to (Server.sockets s1) socketId to
                           (EvOffer (OfferPayload.sdp payload) socketId
                              (User.name user) (OptimizedRoom.flags_of user))])
      else (s1, out1)
  | _, _ => (s1, out1)
  end.

(** The common shape of the [answer] and [ice-candidate] handlers, which
    differ in the limit they give the rate limiter and in the event. *)
Definition relay (limit : Z) (ev : string → string → string → Event)
    (now : Z) (socketId : string) (currentRoomId : option string)
    (payload : option RelayPayload.t) (s : Server.t) : Server.t * list Emit :=
  match payload with
  | None => (s, [])
  | Some p =>
      match RelayPayload.to p with
      | None => (s, [])
      | Some to =>
          if negb (truthy to) || negb (truthy_opt currentRoomId) then (s, [])
          else
            let '(limited, rl) :=
              isRateLimited socketId "signaling" limit 60000 now
                (Server.rateLimits s) in
            let s1 := Server.with_rateLimits rl s in
            if limited then (s1, [])
            else
              let '(room, s2, out2) := rooms_get now currentRoomId s1 in
              match user_of socketId room with
              | None => (s2, out2)
              | Some _ =>
                  (s2, out2 ++ [socket_to (Server.sockets s2) socketId to
                                  (ev to (RelayPayload.body p) socketId)])
              end
      end
  end.

Definition on_answer := relay 50 EvAnswer.

Definition on_ice_candidate := relay 100 EvIceCandidate.

Definition on_media_status_change (now : Z) (socketId : string)
    (currentRoomId : option string) (status : Status.t) (s : Server.t)
    : Server.t * list Emit :=
  let '(found, s1, out1) := rooms_get now currentRoomId s in
  match found, currentRoomId with
  | Some room, Some roomId =>
      let oldUser := JsMap.get socketId (OptimizedRoom.users room) in
      let '(updated, room') :=
        OptimizedRoom.updateUserStatus socketId status now room in
      match updated with
      | None => (s1, out1)
      | Some updatedUser =>
          let changed :=
            match oldUser with
            | Some o =>
                negb (Bool.eqb (User.screenShareOn o)
                        (User.screenShareOn updatedUser))
            | None => true
            end in
          (room_modify roomId (fun _ => room') s1,
           out1
           ++ [socket_to (Server.sockets s1) socketId roomId
                 (EvMediaStatusChange socketId
                    (OptimizedRoom.flags_of updatedUser))]
           ++ (if changed
               then if User.screenShareOn updatedUser
                    then [socket_to (Server.sockets s1) socketId roomId
                            (EvUserStartedScreenShare socketId
                               (Some (User.name updatedUser)))]
                    else [socket_to (Server.sockets s1) socketId roomId
                            (EvUserStoppedScreenShare socketId
                               (Some (User.name updatedUser)))]
               else []))
      end
  | _, _ => (s1, out1)
  end.

Definition on_chat_message (now : Z) (socketId : string) (p : ChatPayload.t)
    (s : Server.t) : Server.t * list Emit :=
  let key := match ChatPayload.roomId p with JString r => Some r | _ => None end in
  let '(room, s1, out1) := rooms_get now key s in
  let failed := (s1, out1 ++ [socket_emit socketId
                                (EvError "Failed to send message")]) in
  match user_of socketId room, key with
  | Some user, Some roomId =>
      match ChatPayload.message p with
      | JUndefined => (s1, out1)
      | JOther => failed
      | JString message =>
          if negb (truthy (trim message)) then (s1, out1)
          else match ChatPayload.name p with
               | JUndefined => (s1, out1)
               | JOther => failed
               | JString name =>
                   if negb (truthy (trim name)) then (s1, out1)
                   else if negb (String.eqb (User.name user) (trim name))
                   then (s1, out1)
                   else if str_length message >? 500
                   then (s1, out1 ++ [socket_emit socketId
                           (EvError "Message too long (max 500 characters)")])
                   else
                     let '(limited, rl) :=
                       isRateLimited socketId "chat" 30 60000 now
                         (Server.rateLimits s1) in
                     let s2 := Server.with_rateLimits rl s1 in
                     if limited
                     then (s2, out1 ++ [socket_emit socketId
                             (EvError
                                "Sending messages too quickly. Please slow down.")])
                     else
                       let chatMessage :=
                         {| ChatMessage.name := User.name user;
                            ChatMessage.message := trim message;
                            ChatMessage.timestamp := now |} in
                       (room_modify roomId
                          (OptimizedRoom.addMessage chatMessage now) s2,
                        out1 ++ [io_to (Server.sockets s2) roomId
                                   (EvChatMessage chatMessage)])
               end
      end
  | _, _ => (s1, out1)
  end.

(** The legacy [start-screen-share] and [stop-screen-share] handlers. *)
Definition on_screen_share (on : bool) (now : Z) (socketId : string)
    (currentRoomId userName : option string) (s : Server.t)
    : Server.t * list Emit :=
  match currentRoomId with
  | Some roomId =>
      if truthy roomId then
        let '(found, s1, out1) := rooms_get now (Some roomId) s in
        let status :=
          {| Status.cameraOn := None; Status.audioOn := None;
             Status.screenShareOn := Some on; Status.name := None |} in
        let s2 :=
          match found with
          | Some room =>
              room_modify roomId
                (fun _ => (OptimizedRoom.updateUserStatus socketId status now room).2)
                s1
          | None => s1
          end in
        (s2, out1 ++ [socket_to (Server.sockets s2) socketId roomId
                        (if on then EvUserStartedScreenShare socketId userName
                         else EvUserStoppedScreenShare socketId userName)])
      else (s, [])
  | None => (s, [])
  end.

(** [disconnect]: the socket has left its channels when the handler runs. *)
Definition on_disconnect (now : Z) (socketId : string)
    (currentRoomId : option string) (s : Server.t) : Server.t * list Emit :=
  let stats := Server.connectionStats s in
  let s0 :=
    Server.with_connectionStats
      {| ConnectionStats.total := Z.max 0 (ConnectionStats.total stats - 1);
         ConnectionStats.peak := ConnectionStats.peak stats;
         ConnectionStats.lastPeakTime := ConnectionStats.lastPeakTime stats;
         ConnectionStats.totalConnections :=
           ConnectionStats.totalConnections stats |}
      (Server.with_sockets (base.delete socketId (Server.sockets s)) s) in
  match currentRoomId with
  | Some roomId =>
      if truthy roomId then
        let '(found, s1, out1) := rooms_get now (Some roomId) s0 in
        match found with
        | Some room =>
            let '(wasRemoved, room') := OptimizedRoom.removeUser socketId now room in
            if wasRemoved then
              let s2 := room_modify roomId (fun _ => room') s1 in
              (if OptimizedRoom.isEmpty room' then scheduleCleanup s2 else s2,
               out1 ++ [socket_to (Server.sockets s2) socketId roomId
                          (EvUserLeft socketId)])
            else (s1, out1)
        | None => (s1, out1)
        end
      else (s0, [])
  | None => (s0, [])
  end.

(** [io.on('connection')]: the counters and a fresh socket, which Socket.IO
    subscribes to the channel of its own id. *)
Definition on_connection (now : Z) (socketId : string) (s : Server.t)
    : Server.t :=
  let stats := Server.connectionStats s in
  let total := ConnectionStats.total stats + 1 in
  let grew := total >? ConnectionStats.peak stats in
  Server.with_connectionStats
    {| ConnectionStats.total := total;
       ConnectionStats.peak := if grew then total else ConnectionStats.peak stats;
       ConnectionStats.lastPeakTime :=
         if grew then now else ConnectionStats.lastPeakTime stats;
       ConnectionStats.totalConnections :=
         ConnectionStats.totalConnections stats + 1 |}
    (Server.with_sockets
       (<[socketId := Socket.new socketId]> (Server.sockets s)) s).

(** ** The event loop *)

Inductive ClientEvent :=
  | PingFromClient
  | JoinRoom (p : JoinPayload.t)
  | Offer (p : OfferPayload.t)
  | Answer (p : option RelayPayload.t)
  | IceCandidate (p : option RelayPayload.t)
  | MediaStatusChange (status : Status.t)
  | ChatMsg (p : ChatPayload.t)
  | StartScreenShare
  | StopScreenShare
  | Disconnect.

(** What the event loop runs: a new connection, an event of a connected
    socket, or the timer of the cleanup. *)
Inductive Input :=
  | Connection (socketId : string)
  | FromClient (socketId : string) (ev : ClientEvent)
  | CleanupTimer.

Definition handle (now : Z) (i : Input) (s : Server.t) : Server.t * list Emit :=
  match i with
  | Connection socketId =>
      match Server.sockets s !! socketId with
      | Some _ => (s, [])
      | None => (on_connection now socketId s, [])
      end
  | CleanupTimer =>
      if Server.cleanupScheduled s then (cleanup now s, []) else (s, [])
  | FromClient socketId ev =>
      match Server.sockets s !! socketId with
      | None => (s, [])
      | Some sk =>
          let currentRoomId := Socket.currentRoomId sk in
          match ev with
          | PingFromClient => on_ping_from_client now socketId s
          | JoinRoom p => on_join_room now socketId p s
          | Offer p => on_offer now socketId currentRoomId p s
          | Answer p => on_answer now socketId currentRoomId p s
          | IceCandidate p => on_ice_candidate now socketId currentRoomId p s
          | MediaStatusChange status =>
              on_media_status_change now socketId currentRoomId status s
          | ChatMsg p => on_chat_message now socketId p s
          | StartScreenShare =>
              on_screen_share true now socketId currentRoomId
                (Socket.userName sk) s
          | StopScreenShare =>
              on_screen_share false now socketId currentRoomId
                (Socket.userName sk) s
          | Disconnect => on_disconnect now socketId currentRoomId s
          end
      end
  end.

(** A run of the event loop over inputs with their clock readings. *)
Fixpoint run (trace : list (Z * Input)) (s : Server.t) : Server.t * list Emit :=
  match trace with
  | [] => (s, [])
  | (now, i) :: trace' =>
      let '(s1, out1) := handle now i s in
      let '(s2, out2) := run trace' s1 in
      (s2, out1 ++ out2)
  end.

(** ** The HTTP endpoints

    [memory_usage], [uptime] and [redis_connected] are read from the
    process and from the Redis clients, not from the state of the server:
    [process] stands for the three of them. *)

Module Health.
Record t {Process : Type} := mk {
  status : string;
  timestamp : Z;
  connections : Z;
  peak_connections : Z;
  total_connections_served : Z;
  rooms : Z;
  total_users : Z;
  total_messages : Z;
  process : Process
}.
Arguments t : clear implicits.
End Health.

(** An entry of [rooms] in the answer of [/api/stats]. *)
Module RoomSummary.
Record t := mk {
  id : string;
  users : Z;
  messages : Z;
  chatHistory : Z;
  lastActivity : Z;
  createdAt : Z
}.
End RoomSummary.

Module Stats.
Record t {Process : Type} := mk {
  totalRooms : Z;
  totalConnections : Z;
  peakConnections : Z;
  totalConnectionsServed : Z;
  totalUsers : Z;
  totalMessages : Z;
  rooms : list RoomSummary.t;
  process : Process
}.
Arguments t : clear implicits.
End Stats.

Module RoomStats.
Record t := mk {
  roomId : string;
  userCount : Z;
  messageCount : Z;
  chatHistoryLength : Z;
  createdAt : Z;
  lastActivity : Z;
  users : list User.t;
  recentMessages : list StoredMessage.t
}.
End RoomStats.

(** The answer of [/api/rooms/:roomId/stats]: the body with status 200, or
    the error with status 404. *)
Inductive RoomStatsResponse :=
  | RoomStatsOk (body : RoomStats.t)
  | RoomStatsNotFound (error : string).

(** [GET /health].  [rooms.values()] skips the rooms whose time to live
    has passed; [rooms.size] counts them. *)
Definition health {Process : Type} (now : Z) (process : Process) (s : Server.t)
    : Health.t Process :=
  let totalUsers :=
    foldl (fun sum room => sum + JsMap.size (OptimizedRoom.users room)) 0
          (LRU.values rooms_config now (Server.rooms s)) in
  let totalMessages :=
    foldl (fun sum room => sum + Z.of_nat (length (OptimizedRoom.chatHistory room)))
          0 (LRU.values rooms_config now (Server.rooms s)) in
  {| Health.status := "healthy";
     Health.timestamp := now;
     Health.connections := ConnectionStats.total (Server.connectionStats s);
     Health.peak_connections := ConnectionStats.peak (Server.connectionStats s);
     Health.total_connections_served :=
       ConnectionStats.totalConnections (Server.connectionStats s);
     Health.rooms := Z.of_nat (length (Server.rooms s));
     Health.total_users := totalUsers;
     Health.total_messages := totalMessages;
     Health.process := process |}.

(** The copy of a participant in the answer of the room statistics. *)
Definition user_stats (u : User.t) : User.t :=
  {| User.id := User.id u; User.name := User.name u;
     User.joinedAt := User.joinedAt u; User.cameraOn := User.cameraOn u;
     User.audioOn := User.audioOn u; User.screenShareOn := User.screenShareOn u |}.

(** [GET /api/rooms/:roomId/stats]: the answer, the state after the
    lookup and the call of [getUsersArray], and what [dispose] emitted. *)
Definition api_room_stats (now : Z) (roomId : string) (s : Server.t)
    : RoomStatsResponse * Server.t * list Emit :=
  let '(found, s1, out1) := rooms_get now (Some roomId) s in
  match found with
  | None => (RoomStatsNotFound "Room not found", s1, out1)
  | Some room =>
      let '(usersArray, room1) := OptimizedRoom.getUsersArray now room in
      (RoomStatsOk
         {| RoomStats.roomId := roomId;
            RoomStats.userCount := JsMap.size (OptimizedRoom.users room);
            RoomStats.messageCount := OptimizedRoom.messageCount room;
            RoomStats.chatHistoryLength :=
              Z.of_nat (length (OptimizedRoom.chatHistory room));
            RoomStats.createdAt := OptimizedRoom.createdAt room;
            RoomStats.lastActivity := OptimizedRoom.lastActivity room;
            RoomStats.users := user_stats <$> usersArray;
            RoomStats.recentMessages := OptimizedRoom.getChatHistory 10 room1 |},
       room_modify roomId (fun _ => room1) s1, out1)
  end.

Definition room_summary (room : OptimizedRoom.t) : RoomSummary.t :=
  {| RoomSummary.id := OptimizedRoom.id room;
     RoomSummary.users := JsMap.size (OptimizedRoom.users room);
     RoomSummary.messages := OptimizedRoom.messageCount room;
     RoomSummary.chatHistory := Z.of_nat (length (OptimizedRoom.chatHistory room));
     RoomSummary.lastActivity := OptimizedRoom.lastActivity room;
     RoomSummary.createdAt := OptimizedRoom.createdAt room |}.

(** [GET /api/stats]. *)
Definition api_stats {Process : Type} (now : Z) (process : Process) (s : Server.t)
    : Stats.t Process :=
  let roomStats := room_summary <$> LRU.values rooms_config now (Server.rooms s) in
  {| Stats.totalRooms := Z.of_nat (length (Server.rooms s));
     Stats.totalConnections := ConnectionStats.total (Server.connectionStats s);
     Stats.peakConnections := ConnectionStats.peak (Server.connectionStats s);
     Stats.totalConnectionsServed :=
       ConnectionStats.totalConnections (Server.connectionStats s);
     Stats.totalUsers :=
       foldl (fun sum room => sum + RoomSummary.users room) 0 roomStats;
     Stats.totalMessages :=
       foldl (fun sum room => sum + RoomSummary.chatHistory room) 0 roomStats;
     Stats.rooms := roomStats;
     Stats.process := process |}.

(** ** Socket events and HTTP requests in one loop *)

Inductive HttpRequest :=
  | GetHealth
  | GetRoomStats (roomId : string)
  | GetStats.

Inductive Request :=
  | FromSocket (i : Input)
  | FromHttp (r : HttpRequest).

(** What a request does to the state and what it makes the sockets emit;
    the answers of the HTTP requests are those of the three functions
    above. *)
Definition serve (now : Z) (r : Request) (s : Server.t) : Server.t * list Emit :=
  match r with
  | FromSocket i => handle now i s
  | FromHttp (GetRoomStats roomId) =>
      let '(_, s1, out1) := api_room_stats now roomId s in (s1, out1)
  | FromHttp GetHealth | FromHttp GetStats => (s, [])
  end.

Fixpoint run_all (trace : list (Z * Request)) (s : Server.t)
    : Server.t * list Emit :=
  match trace with
  | [] => (s, [])
  | (now, r) :: trace' =>
      let '(s1, out1) := serve now r s in
      let '(s2, out2) := run_all trace' s1 in
      (s2, out1 ++ out2)
  end.

(** * The vocabulary of the properties *)

(** ** Invariants of the room aggregate *)

Definition users_bounded (r : OptimizedRoom.t) : Prop :=
  JsMap.size (OptimizedRoom.users r) ≤ MAX_USERS_PER_ROOM.

Definition history_bounded (r : OptimizedRoom.t) : Prop :=
  Z.of_nat (length (OptimizedRoom.chatHistory r)) ≤ MAX_CHAT_HISTORY.

(** The memoized roster, when there is one, is the roster. *)
Definition cache_coherent (r : OptimizedRoom.t) : Prop :=
  match OptimizedRoom._usersList r with
  | Some l => l = JsMap.values (OptimizedRoom.users r)
  | None => True
  end.

(** The keys of [users] are distinct and each record carries its key. *)
Definition users_wf (r : OptimizedRoom.t) : Prop :=
  NoDup (JsMap.keys (OptimizedRoom.users r)) ∧
  Forall (fun kv => User.id kv.2 = kv.1) (OptimizedRoom.users r).

(** A property of rooms that holds of a new room and that every method
    keeps. *)
Class RoomInvariant (P : OptimizedRoom.t → Prop) : Prop := {
  inv_new id now : P (OptimizedRoom.new id now);
  inv_addUser socketId userData now r :
    P r → P (OptimizedRoom.addUser socketId userData now r).2;
  inv_removeUser socketId now r :
    P r → P (OptimizedRoom.removeUser socketId now r).2;
  inv_updateUserStatus socketId status now r :
    P r → P (OptimizedRoom.updateUserStatus socketId status now r).2;
  inv_getUsersArray now r :
    P r → P (OptimizedRoom.getUsersArray now r).2;
  inv_addMessage chatMessage now r :
    P r → P (OptimizedRoom.addMessage chatMessage now r)
}.

(** ** Rooms, participants and channels *)

(** Every value of a cache satisfies [P]. *)
Definition all_values {V} (P : V → Prop) (items : list (LRU.entry V)) : Prop :=
  Forall (fun e => P (LRU.value e)) items.

(** Every room of the cache satisfies [P]. *)
Definition rooms_Forall (P : OptimizedRoom.t → Prop) (s : Server.t) : Prop :=
  all_values P (Server.rooms s).

(** The room object that the cache holds under [roomId], stale or not. *)
Definition room_of (roomId : string) (s : Server.t) : option OptimizedRoom.t :=
  LRU.value <$> LRU.find roomId (Server.rooms s).

(** The participants of that room; none when there is no room. *)
Definition participants (roomId : string) (s : Server.t) : list string :=
  match room_of roomId s with
  | Some room => JsMap.keys (OptimizedRoom.users room)
  | None => []
  end.


(** ** What a join does *)

(** The socket of a connection after the assignments and the
    [socket.join] of a join that passed validation and rate limiting. *)
Definition joining (roomId name : string) (sk : Socket.t) : Socket.t :=
  Socket.join roomId
    {| Socket.rooms := Socket.rooms sk;
       Socket.currentRoomId := Some (trim roomId);
       Socket.userName := Some (trim name) |}.

Definition is_disposal (e : Emit) : Prop :=
  match event e with EvRoomDisposed _ _ => True | _ => False end.

(** The [user-started-screen-share] events of a list of emitted events that
    go to [socketId] alone, as pairs of [userId] and [name]. *)
Definition screen_share_notices (socketId : string) (out : list Emit)
    : list (string * option string) :=
  omap (fun e =>
          match event e with
          | EvUserStartedScreenShare userId name =>
              if decide (recipients e = {[socketId]}) then Some (userId, name)
              else None
          | _ => None
          end) out.

(** The [existing-users] snapshots among emitted events. *)
Definition snapshots (out : list Emit) : list (gset string * list ExistingUser.t) :=
  omap (fun e =>
          match event e with
          | EvExistingUsers users _ => Some (recipients e, users)
          | _ => None
          end) out.

(** A join succeeded when it emitted the snapshot. *)
Definition join_succeeded (out : list Emit) : Prop := snapshots out ≠ [].

(** ** Windows of the rate limiter *)

Definition rate_key (socketId action : string) : string :=
  socketId +:+ ":" +:+ action.





(** ** Chat and the signaling relay *)

Definition is_chat (e : Emit) : Prop :=
  match event e with EvChatMessage _ => True | _ => False end.



Definition is_signal (e : Emit) : Prop :=
  match event e with
  | EvOffer _ _ _ _ | EvAnswer _ _ _ | EvIceCandidate _ _ _ => True
  | _ => False
  end.

Definition is_error (e : Emit) : Prop :=
  match event e with EvError _ => True | _ => False end.


(** ** Concrete runs *)

Definition join_payload (roomId name : string) (screenShareOn : bool)
    : JoinPayload.t :=
  {| JoinPayload.roomId := JString roomId; JoinPayload.name := JString name;
     JoinPayload.cameraOn := false; JoinPayload.audioOn := false;
     JoinPayload.screenShareOn := screenShareOn |}.

Definition guest (i : nat) : string := "s" +:+ string_of_Z (Z.of_nat i).

(** [n] connections that each join [roomId], one per millisecond. *)
Definition crowd (n : nat) (roomId : string) : list (Z * Input) :=
  i ← seq 0 n;
  [(Z.of_nat i, Connection (guest i));
   (Z.of_nat i, FromClient (guest i) (JoinRoom (join_payload roomId "guest" false)))].

(** Room "abc" with 150 participants, and one more connection. *)
Definition full_house : Server.t :=
  (run (crowd 150 "abc" ++ [(200, Connection "late")]) (Server.init 0)).1.

Definition hello : ChatMessage.t :=
  {| ChatMessage.name := "Alice"; ChatMessage.message := "hi";
     ChatMessage.timestamp := 7 |}.

(** A room whose history holds 100 messages, numbered 1 to 100. *)
Definition chatty : OptimizedRoom.t :=
  Nat.iter 100 (OptimizedRoom.addMessage hello 7) (OptimizedRoom.new "abc" 0).

(** "Alice" joins room "a". *)
Definition alice_in_a : Server.t :=
  (run [(0, Connection "x");
        (1, FromClient "x" (JoinRoom (join_payload "a" "Alice" false)))]
       (Server.init 0)).1.

(** A status update that only carries a name. *)
Definition rename (n : string) : Status.t :=
  {| Status.cameraOn := None; Status.audioOn := None;
     Status.screenShareOn := None; Status.name := Some n |}.

(** A name longer than the 30 characters that a join accepts. *)
Definition long_name : string := "Bob, formerly known to this room as Alice".

(** "Alice" is alone in room "a" and "Bob" alone in room "b". *)
Definition two_rooms : Server.t :=
  (run [(0, Connection "x");
        (1, FromClient "x" (JoinRoom (join_payload "a" "Alice" false)));
        (2, Connection "y");
        (3, FromClient "y" (JoinRoom (join_payload "b" "Bob" false)))]
       (Server.init 0)).1.


(** What the server emits when "Alice" addresses that offer to "Bob". *)
Definition leaked_offer : Emit :=
  {| recipients := {["y"]};
     event := EvOffer "v=0" "x" "Alice"
                {| Flags.cameraOn := false; Flags.audioOn := false;
                   Flags.screenShareOn := false |} |}.

(** "x" joins room "a" and then room "b". *)
Definition hopper : Server.t :=
  (run [(0, Connection "x");
        (1, FromClient "x" (JoinRoom (join_payload "a" "Alice" false)));
        (2, FromClient "x" (JoinRoom (join_payload "b" "Alice" false)))]
       (Server.init 0)).1.

(** "x" joins with the room id " abc"; two hours and a millisecond later it
    sends a status update, and the lookup of its room finds it expired. *)
Definition padded : Server.t :=
  (run [(0, Connection "x");
        (1, FromClient "x" (JoinRoom (join_payload " abc" "Alice" false)))]
       (Server.init 0)).1.


(** ** How the room cache changes *)

(** A call of a method of [OptimizedRoom] that may change the room. *)
Inductive RoomCall :=
  | CallAddUser (socketId : string) (userData : UserData.t) (now : Z)
  | CallRemoveUser (socketId : string) (now : Z)
  | CallUpdateUserStatus (socketId : string) (status : Status.t) (now : Z)
  | CallGetUsersArray (now : Z)
  | CallAddMessage (chatMessage : ChatMessage.t) (now : Z).

(** The room after the call. *)
Definition after_call (c : RoomCall) (r : OptimizedRoom.t) : OptimizedRoom.t :=
  match c with
  | CallAddUser socketId userData now =>
      (OptimizedRoom.addUser socketId userData now r).2
  | CallRemoveUser socketId now => (OptimizedRoom.removeUser socketId now r).2
  | CallUpdateUserStatus socketId status now =>
      (OptimizedRoom.updateUserStatus socketId status now r).2
  | CallGetUsersArray now => (OptimizedRoom.getUsersArray now r).2
  | CallAddMessage chatMessage now => OptimizedRoom.addMessage chatMessage now r
  end.

(** A room id as [join-room] lets it through: trimmed, not empty, and of
    at most 50 characters. *)
Definition room_id_ok (roomId : string) : Prop :=
  trim roomId = roomId ∧ roomId ≠ "" ∧ str_length roomId ≤ 50.

(** The ways in which a handler changes the room cache: a lookup, the
    creation of a room under an id that has none, a deletion, and a method
    call on the rooms held under an id. *)
Inductive cache_steps
    : list (LRU.entry OptimizedRoom.t) → list (LRU.entry OptimizedRoom.t) → Prop :=
  | steps_refl items : cache_steps items items
  | steps_trans items1 items2 items3 :
      cache_steps items1 items2 → cache_steps items2 items3 →
      cache_steps items1 items3
  | steps_get now k items :
      cache_steps items (LRU.get rooms_config now k items).1.2
  | steps_create now k items :
      LRU.find k items = None → room_id_ok k →
      cache_steps items
        (LRU.set rooms_config now k (OptimizedRoom.new k now) items).1
  | steps_delete k items : cache_steps items (LRU.delete k items).1.2
  | steps_call k c items :
      cache_steps items (LRU.modify k (after_call c) items).

(** All the entries under [k] hold [room]. *)
Definition held (k : string) (room : OptimizedRoom.t)
    (items : list (LRU.entry OptimizedRoom.t)) : Prop :=
  ∀ e, e ∈ items → LRU.key e = k → LRU.value e = room.

(** The keys of a cache are distinct and no more than [max]. *)
Definition cache_wf {V} (cfg : LRU.config) (items : list (LRU.entry V)) : Prop :=
  NoDup (LRU.key <$> items) ∧ Z.of_nat (length items) ≤ LRU.max cfg.

(** The room after a sequence of calls. *)
Definition after_calls (cs : list RoomCall) (r : OptimizedRoom.t)
    : OptimizedRoom.t :=
  foldl (fun r c => after_call c r) r cs.

(** The ways in which a handler changes the rate-limit cache: by calls
    of [isRateLimited]. *)
Inductive limiter_steps
    : list (LRU.entry RateLimit.t) → list (LRU.entry RateLimit.t) → Prop :=
  | limiter_refl rl : limiter_steps rl rl
  | limiter_call socketId action limit windowMs now rl rl' :
      limiter_steps
        (isRateLimited socketId action limit windowMs now rl).2 rl' →
      limiter_steps rl rl'.

(** Every room of the cache is held under its own id, and the id is one
    that [join-room] lets through. *)
Definition ids_ok (items : list (LRU.entry OptimizedRoom.t)) : Prop :=
  Forall (fun e => OptimizedRoom.id (LRU.value e) = LRU.key e ∧
                   room_id_ok (LRU.key e)) items.

(** ** What the sweep removes *)


(** ** Budgets of the rate limiter *)


(** ** The chat history and what a join sends *)

(** The history holds at most [MAX_CHAT_HISTORY] messages and no more than
    were ever sent; their sequence numbers are consecutive and end at
    [messageCount], as long as the counter is in the range in which doubles
    count by one. *)
Definition history_numbered (r : OptimizedRoom.t) : Prop :=
  let len := Z.of_nat (length (OptimizedRoom.chatHistory r)) in
  len ≤ MAX_CHAT_HISTORY ∧
  len ≤ OptimizedRoom.messageCount r ∧
  (OptimizedRoom.messageCount r < 2 ^ 53 →
   StoredMessage.id <$> OptimizedRoom.chatHistory r
   = seqZ (OptimizedRoom.messageCount r - len + 1) len).



(** The [chat-message] events among emitted events. *)
Definition chats (out : list Emit) : list (gset string * ChatMessage.t) :=
  omap (fun e =>
          match event e with
          | EvChatMessage chatMessage => Some (recipients e, chatMessage)
          | _ => None
          end) out.

(** ** The counters of connections *)

(** The counters agree with the connections: [total] counts the connected
    sockets, [peak] is at least [total] and no more than the number of
    connections ever served. *)
Definition stats_ok (s : Server.t) : Prop :=
  let stats := Server.connectionStats s in
  ConnectionStats.total stats = Z.of_nat (size (Server.sockets s)) ∧
  ConnectionStats.total stats ≤ ConnectionStats.peak stats ∧
  ConnectionStats.peak stats ≤ ConnectionStats.totalConnections stats.

(** ** The state under any requests *)

(** What holds of the state whatever requests were served. *)
Definition server_ok (s : Server.t) : Prop :=
  rooms_Forall users_bounded s ∧
  rooms_Forall history_numbered s ∧
  rooms_Forall cache_coherent s ∧
  rooms_Forall users_wf s ∧
  cache_wf rooms_config (Server.rooms s) ∧
  ids_ok (Server.rooms s) ∧
  stats_ok s.

(** ** More concrete runs *)



(** "Alice" has joined room "a" and sent two messages; the statistics of
    the room were asked for in between. *)
Definition talkative : Server.t :=
  (run_all
     [(0, FromSocket (Connection "x"));
      (1, FromSocket (FromClient "x" (JoinRoom (join_payload "a" "Alice" false))));
      (2, FromSocket (FromClient "x"
                   (ChatMsg {| ChatPayload.roomId := JString "a";
                               ChatPayload.message := JString "one";
                               ChatPayload.name := JString "Alice" |})));
      (3, FromHttp (GetRoomStats "a"));
      (4, FromSocket (FromClient "x"
                   (ChatMsg {| ChatPayload.roomId := JString "a";
                               ChatPayload.message := JString "two";
                               ChatPayload.name := JString "Alice" |})))]
     (Server.init 0)).1.

(** * Properties *)

(** ** The ordered map *)

Section JsMapFacts.
Context {V : Type}.
Implicit Types (k : string) (v : V) (m : list (string * V)).

Lemma JsMap_has_keys k m : JsMap.has k m = true ↔ k ∈ JsMap.keys m.
Proof.
  unfold JsMap.has, JsMap.keys. induction m as [|[k' v'] m IH]; simpl.
  - split; [discriminate | intros H; inversion H].
  - destruct (String.eqb_spec k k') as [->|Hne].
    + split; [intros _; left | done].
    + rewrite IH. split; [by right|].
      intros [?|?]%elem_of_cons; [done | assumption].
Qed.

Lemma JsMap_get_set_eq k v m : JsMap.get k (JsMap.set k v m) = Some v.
Proof.
  induction m as [|[k' v'] m IH]; simpl.
  - by rewrite String.eqb_refl.
  - destruct (String.eqb_spec k k') as [->|Hne]; simpl.
    + by rewrite String.eqb_refl.
    + destruct (String.eqb_spec k k'); [done | exact IH].
Qed.

Lemma JsMap_get_set_ne k k' v m :
  k ≠ k' → JsMap.get k' (JsMap.set k v m) = JsMap.get k' m.
Proof.
  intros Hne. induction m as [|[k0 v0] m IH]; simpl.
  - destruct (String.eqb_spec k' k); [congruence | done].
  - destruct (String.eqb_spec k k0) as [->|Hk]; simpl.
    + destruct (String.eqb_spec k' k0); [congruence | done].
    + by rewrite IH.
Qed.

Lemma JsMap_keys_set k v m :
  JsMap.keys (JsMap.set k v m)
  = if JsMap.has k m then JsMap.keys m else JsMap.keys m ++ [k].
Proof.
  unfold JsMap.has, JsMap.keys. induction m as [|[k' v'] m IH]; csimpl; [done|].
  destruct (String.eqb_spec k k') as [->|Hne]; csimpl; [done|].
  rewrite IH. by destruct (JsMap.get k m).
Qed.

Lemma JsMap_size_set k v m :
  JsMap.size (JsMap.set k v m)
  = if JsMap.has k m then JsMap.size m else JsMap.size m + 1.
Proof.
  unfold JsMap.size, JsMap.has. induction m as [|[k' v'] m IH]; simpl; [done|].
  destruct (String.eqb_spec k k'); simpl; [done|].
  destruct (JsMap.get k m); lia.
Qed.

Lemma JsMap_delete_has k m : (JsMap.delete k m).1 = JsMap.has k m.
Proof.
  unfold JsMap.has. induction m as [|[k' v'] m IH]; simpl; [done|].
  destruct (String.eqb_spec k k'); [done|].
  destruct (JsMap.delete k m) as [b m']. simpl in *. exact IH.
Qed.

Lemma JsMap_delete_sublist k m : (JsMap.delete k m).2 `sublist_of` m.
Proof.
  induction m as [|[k' v'] m IH]; simpl; [done|].
  destruct (String.eqb_spec k k').
  - by apply sublist_cons.
  - destruct (JsMap.delete k m) as [b m']. simpl in *. by apply sublist_skip.
Qed.

Lemma JsMap_set_Forall (P : string * V → Prop) k v m :
  P (k, v) → Forall P m → Forall P (JsMap.set k v m).
Proof.
  intros Hkv. induction 1 as [|[k' v'] m Hx Hm IH]; simpl.
  - by constructor.
  - destruct (String.eqb k k'); constructor; auto.
Qed.

Lemma JsMap_get_Some_elem k v m : JsMap.get k m = Some v → (k, v) ∈ m.
Proof.
  induction m as [|[k' v'] m IH]; simpl; [discriminate|].
  destruct (String.eqb_spec k k') as [->|Hne].
  - intros [= ->]. left.
  - intros H. right. auto.
Qed.

End JsMapFacts.

(** ** Invariants of the room aggregate *)

Ltac room_cases :=
  repeat match goal with
    | |- context [if ?b then _ else _] => destruct b eqn:?
    | |- context [match ?x with Some _ => _ | None => _ end] => destruct x eqn:?
    | |- context [let '(_, _) := ?x in _] => destruct x eqn:?
    end; simpl in *.

#[global] Instance users_bounded_inv : RoomInvariant users_bounded.
Proof.
  split; unfold users_bounded.
  - intros. unfold JsMap.size, MAX_USERS_PER_ROOM. simpl. lia.
  - intros socketId userData now r Hr. unfold OptimizedRoom.addUser.
    destruct (_ >=? _) eqn:Hfull; simpl; [done|].
    rewrite JsMap_size_set. destruct (JsMap.has _ _); lia.
  - intros socketId now r Hr. unfold OptimizedRoom.removeUser.
    pose proof (JsMap_delete_sublist socketId (OptimizedRoom.users r)) as Hsub.
    destruct (JsMap.delete _ _) as [[] us]; simpl in *; [|done].
    apply sublist_length in Hsub. unfold JsMap.size in *. lia.
  - intros socketId status now r Hr. unfold OptimizedRoom.updateUserStatus.
    destruct (JsMap.get _ _) eqn:Hget; simpl; [|done].
    rewrite JsMap_size_set. unfold JsMap.has. by rewrite Hget.
  - intros now r Hr. unfold OptimizedRoom.getUsersArray. by room_cases.
  - intros chatMessage now r Hr. done.
Qed.

#[global] Instance history_bounded_inv : RoomInvariant history_bounded.
Proof.
  split; unfold history_bounded.
  - intros. unfold MAX_CHAT_HISTORY. simpl. lia.
  - intros socketId userData now r Hr. unfold OptimizedRoom.addUser. by room_cases.
  - intros socketId now r Hr. unfold OptimizedRoom.removeUser. by room_cases.
  - intros socketId status now r Hr. unfold OptimizedRoom.updateUserStatus.
    by room_cases.
  - intros now r Hr. unfold OptimizedRoom.getUsersArray. by room_cases.
  - intros chatMessage now r Hr. unfold OptimizedRoom.addMessage. simpl.
    destruct (_ >? _) eqn:Hover.
    + rewrite length_tl, length_app. simpl. lia.
    + lia.
Qed.

#[global] Instance cache_coherent_inv : RoomInvariant cache_coherent.
Proof.
  split; unfold cache_coherent.
  - done.
  - intros socketId userData now r Hr. unfold OptimizedRoom.addUser.
    by destruct (_ >=? _).
  - intros socketId now r Hr. unfold OptimizedRoom.removeUser.
    by destruct (JsMap.delete _ _) as [[] us].
  - intros socketId status now r Hr. unfold OptimizedRoom.updateUserStatus.
    by destruct (JsMap.get _ _).
  - intros now r Hr. unfold OptimizedRoom.getUsersArray.
    destruct (OptimizedRoom._usersList r) eqn:Hl; [destruct (_ >? _)|]; simpl;
      rewrite ?Hl; done.
  - intros chatMessage now r Hr. done.
Qed.

#[global] Instance users_wf_inv : RoomInvariant users_wf.
Proof.
  split; unfold users_wf.
  - intros. split; constructor.
  - intros socketId userData now r [Hnd Hid]. unfold OptimizedRoom.addUser.
    destruct (_ >=? _); simpl; [done|]. split.
    + rewrite JsMap_keys_set. destruct (JsMap.has _ _) eqn:Hhas; [done|].
      apply NoDup_app. split_and!; [done| |apply NoDup_singleton].
      intros k Hk ->%list_elem_of_singleton.
      apply JsMap_has_keys in Hk. congruence.
    + by apply JsMap_set_Forall.
  - intros socketId now r [Hnd Hid]. unfold OptimizedRoom.removeUser.
    pose proof (JsMap_delete_sublist socketId (OptimizedRoom.users r)) as Hsub.
    destruct (JsMap.delete _ _) as [[] us]; simpl in *; [|done]. split.
    + eapply sublist_NoDup; [exact Hnd|]. by apply fmap_sublist.
    + apply Forall_forall. intros kv Hkv.
      apply (proj1 (Forall_forall _ _) Hid). eapply elem_of_sublist; eauto.
  - intros socketId status now r [Hnd Hid]. unfold OptimizedRoom.updateUserStatus.
    destruct (JsMap.get _ _) as [user|] eqn:Hget; simpl; [|done]. split.
    + rewrite JsMap_keys_set. unfold JsMap.has. by rewrite Hget.
    + apply JsMap_set_Forall; [|done]. simpl.
      apply JsMap_get_Some_elem in Hget.
      by apply (proj1 (Forall_forall _ _) Hid) in Hget.
  - intros now r Hr. unfold OptimizedRoom.getUsersArray. by room_cases.
  - intros chatMessage now r Hr. done.
Qed.

#[global] Instance and_inv (P Q : OptimizedRoom.t → Prop) :
  RoomInvariant P → RoomInvariant Q → RoomInvariant (fun r => P r ∧ Q r).
Proof.
  intros HP HQ. split.
  - split; apply inv_new.
  - intros ???? []. split; by apply inv_addUser.
  - intros ??? []. split; by apply inv_removeUser.
  - intros ???? []. split; by apply inv_updateUserStatus.
  - intros ?? []. split; by apply inv_getUsersArray.
  - intros ??? []. split; by apply inv_addMessage.
Qed.

(** ** The cache *)

Section LRUFacts.
Context {V : Type}.
Implicit Types (k : string) (items : list (LRU.entry V)) (e : LRU.entry V).

Lemma LRU_find_Some k items e :
  LRU.find k items = Some e → e ∈ items ∧ LRU.key e = k.
Proof.
  induction items as [|e' items IH]; simpl; [discriminate|].
  destruct (String.eqb_spec k (LRU.key e')) as [->|Hne].
  - intros [= ->]. split; [left | done].
  - intros [? ?]%IH. split; [by right | done].
Qed.

Lemma LRU_find_remove_eq k items : LRU.find k (LRU.remove k items) = None.
Proof.
  unfold LRU.remove. induction items as [|e items IH]; [done|].
  rewrite filter_cons. case_decide as Hk; simpl; [|done].
  by rewrite Hk.
Qed.

Lemma LRU_find_remove_ne k k' items :
  k ≠ k' → LRU.find k' (LRU.remove k items) = LRU.find k' items.
Proof.
  intros Hne. unfold LRU.remove. induction items as [|e items IH]; [done|].
  rewrite filter_cons. case_decide as Hk; simpl.
  - by rewrite IH.
  - rewrite IH. apply not_false_iff_true, String.eqb_eq in Hk. subst k.
    by destruct (String.eqb_spec k' (LRU.key e)).
Qed.

Lemma LRU_find_modify k k' (f : V → V) items :
  LRU.find k' (LRU.modify k f items)
  = (fun e => if String.eqb k (LRU.key e)
              then {| LRU.key := LRU.key e; LRU.value := f (LRU.value e);
                      LRU.start := LRU.start e |}
              else e) <$> LRU.find k' items.
Proof.
  unfold LRU.modify. induction items as [|e items IH]; [done|]. csimpl.
  destruct (String.eqb k (LRU.key e)) eqn:Hk; simpl;
    destruct (String.eqb k' (LRU.key e)); simpl; rewrite ?Hk; done.
Qed.

Variable P : V → Prop.

Lemma LRU_find_value k items e :
  all_values P items → LRU.find k items = Some e → P (LRU.value e).
Proof.
  intros Hall [He _]%LRU_find_Some.
  by apply (proj1 (Forall_forall _ _) Hall) in He.
Qed.

Lemma LRU_remove_all k items : all_values P items → all_values P (LRU.remove k items).
Proof.
  intros Hall. apply Forall_forall. intros e [_ He]%list_elem_of_filter.
  by apply (proj1 (Forall_forall _ _) Hall).
Qed.

Lemma LRU_get_all cfg now k items :
  all_values P items →
  all_values P (LRU.get cfg now k items).1.2 ∧
  ∀ v, (LRU.get cfg now k items).1.1 = Some v → P v.
Proof.
  intros Hall. unfold LRU.get.
  destruct (LRU.find k items) as [e|] eqn:Hfind; simpl; [|done].
  pose proof (LRU_find_value _ _ _ Hall Hfind) as He.
  destruct (LRU.isStale cfg now e); simpl.
  - split; [by apply LRU_remove_all | done].
  - split; [constructor; [done | by apply LRU_remove_all] | by intros v [= <-]].
Qed.

Lemma LRU_evict_all items : all_values P items → all_values P (LRU.evict items).1.
Proof.
  intros Hall. unfold LRU.evict. destruct (last items); simpl; [|done].
  by apply Forall_take.
Qed.

Lemma LRU_set_all cfg now k v items :
  P v → all_values P items → all_values P (LRU.set cfg now k v items).1.
Proof.
  intros Hv Hall. unfold LRU.set. destruct (LRU.find k items); simpl.
  - constructor; [done | by apply LRU_remove_all].
  - destruct (_ >=? _).
    + pose proof (LRU_evict_all _ Hall). destruct (LRU.evict items). by constructor.
    + by constructor.
Qed.

Lemma LRU_delete_all k items :
  all_values P items → all_values P (LRU.delete k items).1.2.
Proof.
  intros Hall. unfold LRU.delete. destruct (LRU.find k items); simpl; [|done].
  by apply LRU_remove_all.
Qed.

Lemma LRU_modify_all k (f : V → V) items :
  (∀ v, P v → P (f v)) → all_values P items → all_values P (LRU.modify k f items).
Proof.
  intros Hf Hall. unfold LRU.modify. apply Forall_fmap.
  eapply Forall_impl; [exact Hall|]. intros e He. simpl.
  destruct (String.eqb k (LRU.key e)); simpl; auto.
Qed.

End LRUFacts.

(** ** Room invariants along the event loop *)

Section ServerInvariant.
Context (P : OptimizedRoom.t → Prop) `{!RoomInvariant P}.

Lemma rooms_get_Forall now k s room s1 out :
  rooms_get now k s = (room, s1, out) →
  rooms_Forall P s → rooms_Forall P s1 ∧ ∀ r, room = Some r → P r.
Proof.
  unfold rooms_get, rooms_Forall. intros Hget Hs. destruct k as [k|].
  - pose proof (LRU_get_all P rooms_config now k _ Hs) as [H1 H2].
    destruct (LRU.get _ _ _ _) as [[room' rooms1] disposed].
    injection Hget as <- <- <-. simpl in *. auto.
  - injection Hget as <- <- <-. split; [done | discriminate].
Qed.

Lemma getOrCreateRoom_Forall roomId now s room s1 out :
  getOrCreateRoom roomId now s = (room, s1, out) →
  rooms_Forall P s → rooms_Forall P s1 ∧ P room.
Proof.
  unfold getOrCreateRoom. intros Hget Hs.
  destruct (rooms_get now (Some roomId) s) as [[found s0] out0] eqn:Hfound.
  destruct (rooms_get_Forall _ _ _ _ _ _ Hfound Hs) as [Hs0 Hroom].
  destruct found as [room'|].
  - injection Hget as <- <- <-. auto.
  - pose proof (LRU_set_all P rooms_config now roomId
                  (OptimizedRoom.new roomId now) _ (inv_new roomId now) Hs0) as Hset.
    destruct (LRU.set _ _ _ _ _) as [rooms2 disposed].
    injection Hget as <- <- <-. split; [exact Hset | apply inv_new].
Qed.

Lemma room_modify_Forall roomId (f : OptimizedRoom.t → OptimizedRoom.t) s :
  (∀ r, P r → P (f r)) → rooms_Forall P s → rooms_Forall P (room_modify roomId f s).
Proof. intros Hf Hs. by apply LRU_modify_all. Qed.

Lemma room_put_Forall roomId room s :
  P room → rooms_Forall P s → rooms_Forall P (room_modify roomId (fun _ => room) s).
Proof. intros Hr. by apply room_modify_Forall. Qed.

Lemma on_join_room_Forall now socketId p s :
  rooms_Forall P s → rooms_Forall P (on_join_room now socketId p s).1.
Proof.
  intros Hs. unfold on_join_room.
  destruct (validate_join _ _) as [[[roomId name]|]|]; [|done..].
  destruct (isRateLimited _ _ _ _ _ _) as [[] rl]; [done|].
  destruct (getOrCreateRoom _ _ _) as [[room s2] out2] eqn:Hroom.
  apply getOrCreateRoom_Forall in Hroom as [Hs2 Hr]; [|exact Hs].
  pose proof (inv_getUsersArray now room Hr) as Hr1.
  destruct (OptimizedRoom.getUsersArray now room) as [usersArray room1].
  pose proof (inv_addUser socketId
    {| UserData.name := trim name;
       UserData.cameraOn := JoinPayload.cameraOn p;
       UserData.audioOn := JoinPayload.audioOn p;
       UserData.screenShareOn := JoinPayload.screenShareOn p |} now room1 Hr1) as Hr2.
  destruct (OptimizedRoom.addUser _ _ _ _) as [added room2].
  destruct added.
  - pose proof (inv_getUsersArray now room2 Hr2) as Hr3.
    destruct (OptimizedRoom.getUsersArray now room2) as [usersArray' room3].
    by apply room_put_Forall.
  - by apply room_put_Forall.
Qed.

Lemma on_offer_Forall now socketId currentRoomId p s :
  rooms_Forall P s → rooms_Forall P (on_offer now socketId currentRoomId p s).1.
Proof.
  intros Hs. unfold on_offer.
  destruct (rooms_get _ _ _) as [[room s1] out1] eqn:Hroom.
  apply rooms_get_Forall in Hroom as [Hs1 _]; [|exact Hs].
  destruct (user_of _ _), (OfferPayload.to p) as [to|]; try done.
  by destruct (truthy to).
Qed.

Lemma relay_Forall limit ev now socketId currentRoomId p s :
  rooms_Forall P s → rooms_Forall P (relay limit ev now socketId currentRoomId p s).1.
Proof.
  intros Hs. unfold relay.
  destruct p as [p|]; [|done]. destruct (RelayPayload.to p) as [to|]; [|done].
  destruct (_ || _); [done|].
  destruct (isRateLimited _ _ _ _ _ _) as [[] rl]; [done|].
  destruct (rooms_get _ _ _) as [[room s2] out2] eqn:Hroom.
  apply rooms_get_Forall in Hroom as [Hs2 _]; [|exact Hs].
  by destruct (user_of _ _).
Qed.

Lemma on_media_status_change_Forall now socketId currentRoomId status s :
  rooms_Forall P s →
  rooms_Forall P (on_media_status_change now socketId currentRoomId status s).1.
Proof.
  intros Hs. unfold on_media_status_change.
  destruct (rooms_get _ _ _) as [[found s1] out1] eqn:Hroom.
  apply rooms_get_Forall in Hroom as [Hs1 Hr]; [|exact Hs].
  destruct found as [room|], currentRoomId as [roomId|]; try done.
  pose proof (inv_updateUserStatus socketId status now room (Hr _ eq_refl)) as Hr'.
  destruct (OptimizedRoom.updateUserStatus _ _ _ _) as [[updatedUser|] room'];
    [|done].
  by apply room_put_Forall.
Qed.

Lemma on_chat_message_Forall now socketId p s :
  rooms_Forall P s → rooms_Forall P (on_chat_message now socketId p s).1.
Proof.
  intros Hs. unfold on_chat_message.
  destruct (rooms_get _ _ _) as [[room s1] out1] eqn:Hroom.
  apply rooms_get_Forall in Hroom as [Hs1 _]; [|exact Hs].
  destruct (user_of _ _) as [user|]; [|done].
  destruct (match ChatPayload.roomId p with JString r => Some r | _ => None end)
    as [roomId|]; [|done].
  destruct (ChatPayload.message p) as [|message|]; try done.
  destruct (negb (truthy (trim message))); [done|].
  destruct (ChatPayload.name p) as [|name|]; try done.
  destruct (negb (truthy (trim name))); [done|].
  destruct (negb (String.eqb _ _)); [done|].
  destruct (_ >? _); [done|].
  destruct (isRateLimited _ _ _ _ _ _) as [[] rl]; [done|].
  apply room_modify_Forall; [|done]. intros r. apply inv_addMessage.
Qed.

Lemma on_screen_share_Forall on now socketId currentRoomId userName s :
  rooms_Forall P s →
  rooms_Forall P (on_screen_share on now socketId currentRoomId userName s).1.
Proof.
  intros Hs. unfold on_screen_share.
  destruct currentRoomId as [roomId|]; [|done].
  destruct (truthy roomId); [|done].
  destruct (rooms_get _ _ _) as [[found s1] out1] eqn:Hroom.
  apply rooms_get_Forall in Hroom as [Hs1 Hr]; [|exact Hs].
  destruct found as [room|]; [|done]. simpl.
  apply room_put_Forall; [|done]. apply inv_updateUserStatus. by apply Hr.
Qed.

Lemma scheduleCleanup_Forall s : rooms_Forall P s → rooms_Forall P (scheduleCleanup s).
Proof. unfold scheduleCleanup. by destruct (Server.cleanupScheduled s). Qed.

Lemma on_disconnect_Forall now socketId currentRoomId s :
  rooms_Forall P s → rooms_Forall P (on_disconnect now socketId currentRoomId s).1.
Proof.
  intros Hs. unfold on_disconnect.
  destruct currentRoomId as [roomId|]; [|done].
  destruct (truthy roomId); [|done].
  destruct (rooms_get _ _ _) as [[found s1] out1] eqn:Hroom.
  apply rooms_get_Forall in Hroom as [Hs1 Hr]; [|exact Hs].
  destruct found as [room|]; [|done].
  pose proof (inv_removeUser socketId now room (Hr _ eq_refl)) as Hr'.
  destruct (OptimizedRoom.removeUser _ _ _) as [[] room']; [|done].
  simpl. destruct (OptimizedRoom.isEmpty room').
  - apply scheduleCleanup_Forall. by apply room_put_Forall.
  - by apply room_put_Forall.
Qed.

Lemma cleanup_Forall now s : rooms_Forall P s → rooms_Forall P (cleanup now s).
Proof.
  unfold cleanup, rooms_Forall. simpl.
  generalize (filter
    (fun '(_, room) =>
       OptimizedRoom.isEmpty room = true ∧
       now - OptimizedRoom.lastActivity room > 30 * 60 * 1000)
    (LRU.entries rooms_config now (Server.rooms s))).
  intros doomed. generalize (Server.rooms s).
  induction doomed as [|[roomId room] doomed IH]; intros items Hitems; [done|].
  simpl. apply IH. by apply LRU_delete_all.
Qed.

Theorem handle_Forall now i s : rooms_Forall P s → rooms_Forall P (handle now i s).1.
Proof.
  intros Hs. destruct i as [socketId|socketId ev|]; simpl.
  - by destruct (Server.sockets s !! socketId).
  - destruct (Server.sockets s !! socketId) as [sk|]; [|done].
    destruct ev.
    + done.
    + by apply on_join_room_Forall.
    + by apply on_offer_Forall.
    + by apply relay_Forall.
    + by apply relay_Forall.
    + by apply on_media_status_change_Forall.
    + by apply on_chat_message_Forall.
    + by apply on_screen_share_Forall.
    + by apply on_screen_share_Forall.
    + by apply on_disconnect_Forall.
  - destruct (Server.cleanupScheduled s); [by apply cleanup_Forall | done].
Qed.

Theorem run_Forall trace s : rooms_Forall P s → rooms_Forall P (run trace s).1.
Proof.
  revert s. induction trace as [|[now i] trace IH]; intros s Hs; [done|].
  simpl. pose proof (handle_Forall now i s Hs) as Hs1.
  destruct (handle now i s) as [s1 out1]. specialize (IH s1 Hs1).
  by destruct (run trace s1).
Qed.

Corollary reachable_Forall trace t0 :
  rooms_Forall P (run trace (Server.init t0)).1.
Proof. apply run_Forall. constructor. Qed.

End ServerInvariant.

(** ** The room held under a key *)

Lemma LRU_get_find {V} cfg now k (items : list (LRU.entry V)) v items' disposed :
  LRU.get cfg now k items = (Some v, items', disposed) →
  LRU.value <$> LRU.find k items = Some v ∧
  LRU.value <$> LRU.find k items' = Some v ∧ disposed = [].
Proof.
  unfold LRU.get. destruct (LRU.find k items) as [e|]; [|discriminate].
  destruct (LRU.isStale cfg now e); [discriminate|].
  intros [= <- <- <-]. simpl. by rewrite String.eqb_refl.
Qed.

Lemma LRU_set_find {V} cfg now k v (items : list (LRU.entry V)) :
  LRU.value <$> LRU.find k (LRU.set cfg now k v items).1 = Some v.
Proof.
  unfold LRU.set. destruct (LRU.find k items); simpl.
  - by rewrite String.eqb_refl.
  - destruct (_ >=? _); [destruct (LRU.evict items)|]; simpl;
      by rewrite String.eqb_refl.
Qed.

Lemma rooms_get_room_of now k s room s1 out :
  rooms_get now (Some k) s = (Some room, s1, out) →
  room_of k s = Some room ∧ room_of k s1 = Some room ∧ out = [] ∧
  Server.sockets s1 = Server.sockets s ∧
  Server.rateLimits s1 = Server.rateLimits s.
Proof.
  unfold rooms_get, room_of.
  destruct (LRU.get _ _ _ _) as [[found rooms1] disposed] eqn:Hget.
  intros [= -> <- <-]. apply LRU_get_find in Hget as (? & ? & ->). done.
Qed.

Lemma rooms_get_frame now k s :
  Server.sockets (rooms_get now k s).1.2 = Server.sockets s ∧
  Server.rateLimits (rooms_get now k s).1.2 = Server.rateLimits s.
Proof.
  unfold rooms_get. destruct k as [k|]; [|done].
  by destruct (LRU.get _ _ _ _) as [[found rooms1] disposed].
Qed.

Lemma getOrCreateRoom_room_of roomId now s room s1 out :
  getOrCreateRoom roomId now s = (room, s1, out) →
  room_of roomId s1 = Some room ∧ Server.sockets s1 = Server.sockets s ∧
  Server.rateLimits s1 = Server.rateLimits s.
Proof.
  unfold getOrCreateRoom.
  destruct (rooms_get now (Some roomId) s) as [[found s0] out0] eqn:Hfound.
  destruct found as [room'|].
  - intros [= <- <- <-].
    by apply rooms_get_room_of in Hfound as (_ & ? & _ & ? & ?).
  - pose proof (rooms_get_frame now (Some roomId) s) as Hframe.
    rewrite Hfound in Hframe. simpl in Hframe.
    pose proof (LRU_set_find rooms_config now roomId
                  (OptimizedRoom.new roomId now) (Server.rooms s0)) as Hset.
    destruct (LRU.set _ _ _ _ _) as [rooms2 disposed].
    intros [= <- <- <-]. done.
Qed.

Lemma room_of_put roomId room s :
  is_Some (room_of roomId s) →
  room_of roomId (room_modify roomId (fun _ => room) s) = Some room.
Proof.
  unfold room_of, room_modify. simpl. rewrite LRU_find_modify.
  intros [r Hr]. destruct (LRU.find roomId (Server.rooms s)) as [e|] eqn:Hfind;
    [|discriminate].
  apply LRU_find_Some in Hfind as [_ Hk]. simpl. by rewrite Hk, String.eqb_refl.
Qed.

Lemma room_of_modify roomId f s :
  room_of roomId (room_modify roomId f s) = f <$> room_of roomId s.
Proof.
  unfold room_of, room_modify. simpl. rewrite LRU_find_modify.
  destruct (LRU.find roomId (Server.rooms s)) as [e|] eqn:Hfind; [|done].
  apply LRU_find_Some in Hfind as [_ Hk]. simpl. by rewrite Hk, String.eqb_refl.
Qed.

Lemma room_of_socket_modify roomId socketId f s :
  room_of roomId (socket_modify socketId f s) = room_of roomId s.
Proof. done. Qed.

(** ** Running [join-room] *)

Lemma on_join_room_full now socketId p s roomId name rl room s2 out2 :
  validate_join (JoinPayload.roomId p) (JoinPayload.name p)
    = Normal (Some (roomId, name)) →
  isRateLimited socketId "join-room" 5 60000 now (Server.rateLimits s)
    = (false, rl) →
  getOrCreateRoom (trim roomId) now (Server.with_rateLimits rl s)
    = (room, s2, out2) →
  MAX_USERS_PER_ROOM ≤ JsMap.size (OptimizedRoom.users room) →
  on_join_room now socketId p s
  = (room_modify (trim roomId)
       (fun _ => (OptimizedRoom.getUsersArray now room).2)
       (Server.with_sockets
          (alter (joining roomId name) socketId (Server.sockets s2)) s2),
     out2 ++ [socket_emit socketId (EvError "Room is full (max 150 users)")]).
Proof.
  intros Hvalid Hlimit Hroom Hfull. unfold on_join_room.
  rewrite Hvalid, Hlimit, Hroom.
  destruct (OptimizedRoom.getUsersArray now room) as [usersArray room1] eqn:Harr.
  assert (OptimizedRoom.users room1 = OptimizedRoom.users room) as Husers.
  { unfold OptimizedRoom.getUsersArray in Harr.
    destruct (OptimizedRoom._usersList room); [destruct (_ >? _)|];
      by injection Harr as <- <-. }
  unfold OptimizedRoom.addUser. rewrite Husers.
  destruct (_ >=? _) eqn:Hge; [|lia]. simpl.
  unfold socket_modify. simpl. rewrite alter_alter_eq. done.
Qed.

Lemma on_join_room_success now socketId p s roomId name rl room s2 out2 :
  validate_join (JoinPayload.roomId p) (JoinPayload.name p)
    = Normal (Some (roomId, name)) →
  isRateLimited socketId "join-room" 5 60000 now (Server.rateLimits s)
    = (false, rl) →
  getOrCreateRoom (trim roomId) now (Server.with_rateLimits rl s)
    = (room, s2, out2) →
  JsMap.size (OptimizedRoom.users room) < MAX_USERS_PER_ROOM →
  let userData :=
    {| UserData.name := trim name;
       UserData.cameraOn := JoinPayload.cameraOn p;
       UserData.audioOn := JoinPayload.audioOn p;
       UserData.screenShareOn := JoinPayload.screenShareOn p |} in
  let room1 := (OptimizedRoom.getUsersArray now room).2 in
  let room2 := (OptimizedRoom.addUser socketId userData now room1).2 in
  let room3 := (OptimizedRoom.getUsersArray now room2).2 in
  let s4 := Server.with_sockets
              (alter (joining roomId name) socketId (Server.sockets s2)) s2 in
  let chatHistory := OptimizedRoom.getChatHistory MAX_CHAT_HISTORY room3 in
  OptimizedRoom.users room2
    = JsMap.set socketId
        {| User.id := socketId; User.name := trim name;
           User.cameraOn := JoinPayload.cameraOn p;
           User.audioOn := JoinPayload.audioOn p;
           User.screenShareOn := JoinPayload.screenShareOn p;
           User.joinedAt := now |} (OptimizedRoom.users room) ∧
  OptimizedRoom.users room3 = OptimizedRoom.users room2 ∧
  on_join_room now socketId p s
  = (room_modify (trim roomId) (fun _ => room3) s4,
     out2
     ++ [socket_emit socketId
           (EvExistingUsers
              (existing_of <$> (OptimizedRoom.getUsersArray now room).1)
              (OptimizedRoom.getUsersStatus room1))]
     ++ ((fun sharer =>
            socket_emit socketId
              (EvUserStartedScreenShare (User.id sharer)
                 (Some (User.name sharer)))) <$>
         filter (fun u => User.screenShareOn u = true)
           (JsMap.values (OptimizedRoom.users room2)))
     ++ (if Z.of_nat (length chatHistory) >? 0
         then [socket_emit socketId (EvChatHistory chatHistory)]
         else [])
     ++ [socket_to (Server.sockets s4) socketId roomId
           (EvUserJoined socketId (trim name)
              {| Flags.cameraOn := JoinPayload.cameraOn p;
                 Flags.audioOn := JoinPayload.audioOn p;
                 Flags.screenShareOn := JoinPayload.screenShareOn p |})]).
Proof.
  intros Hvalid Hlimit Hroom Hfree. unfold on_join_room.
  rewrite Hvalid, Hlimit, Hroom.
  destruct (OptimizedRoom.getUsersArray now room) as [usersArray room1] eqn:Harr.
  assert (OptimizedRoom.users room1 = OptimizedRoom.users room) as Husers.
  { unfold OptimizedRoom.getUsersArray in Harr.
    destruct (OptimizedRoom._usersList room); [destruct (_ >? _)|];
      by injection Harr as <- <-. }
  cbn [fst snd]. unfold OptimizedRoom.addUser. rewrite Husers.
  destruct (_ >=? _) eqn:Hge; [lia|]. simpl.
  unfold socket_modify. simpl. rewrite alter_alter_eq. done.
Qed.

(** ** Capacity of a room (C4) *)

Lemma addUser_full socketId userData now room :
  JsMap.size (OptimizedRoom.users room) = MAX_USERS_PER_ROOM →
  OptimizedRoom.addUser socketId userData now room = (Throw "Room is full", room).
Proof.
  intros Hfull. unfold OptimizedRoom.addUser. rewrite Hfull. done.
Qed.

Lemma join_error_full : join_error "Room is full" = "Room is full (max 150 users)".
Proof. reflexivity. Qed.

(** C4.  In every state the event loop can reach, no room holds more than
    150 participants.  [addUser] on a room that holds 150 throws
    ["Room is full"] and returns the room as it was: nothing inserted,
    [lastActivity] and the memoized roster untouched.  A join that reaches
    such a room emits to the joiner the error
    ["Room is full (max 150 users)"], which is none of the other error
    messages of the handler, and the participants of the room stay the
    same. *)
Theorem room_capacity :
  (∀ trace t0, rooms_Forall users_bounded (run trace (Server.init t0)).1) ∧
  (∀ socketId userData now room,
     JsMap.size (OptimizedRoom.users room) = MAX_USERS_PER_ROOM →
     OptimizedRoom.addUser socketId userData now room
     = (Throw "Room is full", room)) ∧
  (∀ now socketId p s roomId name,
     let attempt :=
       isRateLimited socketId "join-room" 5 60000 now (Server.rateLimits s) in
     let found :=
       getOrCreateRoom (trim roomId) now (Server.with_rateLimits attempt.2 s) in
     validate_join (JoinPayload.roomId p) (JoinPayload.name p)
       = Normal (Some (roomId, name)) →
     attempt.1 = false →
     JsMap.size (OptimizedRoom.users found.1.1) = MAX_USERS_PER_ROOM →
     (on_join_room now socketId p s).2
     = found.2
       ++ [socket_emit socketId (EvError "Room is full (max 150 users)")] ∧
     participants (trim roomId) (on_join_room now socketId p s).1
     = JsMap.keys (OptimizedRoom.users found.1.1)) ∧
  (∀ message, message ≠ "Room is full" →
     join_error message = "Failed to join room. Please try again.").
Proof.
  split_and!.
  - intros trace t0. apply reachable_Forall, users_bounded_inv.
  - apply addUser_full.
  - intros now socketId p s roomId name attempt found Hvalid Hlimit Hfull.
    destruct attempt as [limited rl] eqn:Hattempt. simpl in Hlimit. subst limited.
    destruct found as [[room s2] out2] eqn:Hroom. simpl in Hfull |- *.
    subst found. simpl in Hroom.
    rewrite (on_join_room_full _ _ _ _ _ _ _ _ _ _ Hvalid Hattempt Hroom)
      by (rewrite Hfull; done).
    split; [done|]. simpl. unfold participants.
    apply getOrCreateRoom_room_of in Hroom as (Hfound & _ & _).
    rewrite room_of_put.
    + unfold OptimizedRoom.getUsersArray.
      destruct (OptimizedRoom._usersList room); [destruct (_ >? _)|]; done.
    + unfold room_of in *. simpl. by rewrite Hfound.
  - intros message Hne. unfold join_error.
    by destruct (String.eqb_spec message "Room is full").
Qed.

Lemma room_capacity_witness :
  let room := default (OptimizedRoom.new "abc" 0) (room_of "abc" full_house) in
  let attempt :=
    isRateLimited "late" "join-room" 5 60000 201 (Server.rateLimits full_house) in
  let found :=
    getOrCreateRoom "abc" 201 (Server.with_rateLimits attempt.2 full_house) in
  let userData :=
    {| UserData.name := "Zed"; UserData.cameraOn := false;
       UserData.audioOn := false; UserData.screenShareOn := false |} in
  OptimizedRoom.addUser "late" userData 201 room = (Throw "Room is full", room) ∧
  (on_join_room 201 "late" (join_payload "abc" "Zed" false) full_house).2
  = found.2 ++ [socket_emit "late" (EvError "Room is full (max 150 users)")].
Proof.
  destruct room_capacity as (_ & Hadd & Hjoin & _). split.
  - apply Hadd. vm_compute. reflexivity.
  - apply (Hjoin 201 "late" (join_payload "abc" "Zed" false) full_house
             "abc" "Zed"); vm_compute; reflexivity.
Defined.

(** ** The chat history (C5) *)

Ltac case_gtb :=
  match goal with |- context [?a >? ?b] => destruct (Z.gtb_spec a b) end.

Lemma addMessage_at_cap chatMessage now room :
  Z.of_nat (length (OptimizedRoom.chatHistory room)) = MAX_CHAT_HISTORY →
  OptimizedRoom.chatHistory (OptimizedRoom.addMessage chatMessage now room)
  = tail (OptimizedRoom.chatHistory room)
    ++ [StoredMessage.with_id chatMessage (js_incr (OptimizedRoom.messageCount room))].
Proof.
  intros Hcap. unfold OptimizedRoom.addMessage. simpl.
  rewrite length_app. simpl.
  case_gtb; [|unfold MAX_CHAT_HISTORY in *; lia].
  destruct (OptimizedRoom.chatHistory room); [discriminate | done].
Qed.

Lemma addMessage_below_cap chatMessage now room :
  Z.of_nat (length (OptimizedRoom.chatHistory room)) < MAX_CHAT_HISTORY →
  OptimizedRoom.chatHistory (OptimizedRoom.addMessage chatMessage now room)
  = OptimizedRoom.chatHistory room
    ++ [StoredMessage.with_id chatMessage (js_incr (OptimizedRoom.messageCount room))].
Proof.
  intros Hcap. unfold OptimizedRoom.addMessage. simpl.
  rewrite length_app. simpl.
  case_gtb; [unfold MAX_CHAT_HISTORY in *; lia | done].
Qed.

(** C5.  In every state the event loop can reach, no chat history is
    longer than 100.  [addMessage] on a history of 100 drops the first
    (oldest) message, keeps the other 99 in their order and puts the new
    one last; below the cap it only appends.  The appended message carries
    as [id] the new value of [messageCount], which is the old value plus
    one (exactly so while the counter is below 2^53, the range in which
    doubles count by one). *)
Theorem chat_history_cap :
  (∀ trace t0, rooms_Forall history_bounded (run trace (Server.init t0)).1) ∧
  (∀ chatMessage now room,
     let room' := OptimizedRoom.addMessage chatMessage now room in
     let stored :=
       StoredMessage.with_id chatMessage (OptimizedRoom.messageCount room') in
     (Z.of_nat (length (OptimizedRoom.chatHistory room)) = MAX_CHAT_HISTORY →
      OptimizedRoom.chatHistory room'
      = tail (OptimizedRoom.chatHistory room) ++ [stored]) ∧
     (Z.of_nat (length (OptimizedRoom.chatHistory room)) < MAX_CHAT_HISTORY →
      OptimizedRoom.chatHistory room'
      = OptimizedRoom.chatHistory room ++ [stored]) ∧
     OptimizedRoom.messageCount room' = js_incr (OptimizedRoom.messageCount room) ∧
     (OptimizedRoom.messageCount room < 2 ^ 53 →
      OptimizedRoom.messageCount room' = OptimizedRoom.messageCount room + 1)).
Proof.
  split.
  - intros trace t0. apply reachable_Forall, history_bounded_inv.
  - intros chatMessage now room room' stored. split_and!.
    + apply addMessage_at_cap.
    + apply addMessage_below_cap.
    + done.
    + intros Hsmall. subst room'. simpl. unfold js_incr.
      destruct (_ <? _) eqn:Hlt; [done | lia].
Qed.

Lemma chat_history_cap_witness :
  OptimizedRoom.chatHistory (OptimizedRoom.addMessage hello 8 chatty)
  = tail (OptimizedRoom.chatHistory chatty) ++ [StoredMessage.with_id hello 101] ∧
  OptimizedRoom.messageCount (OptimizedRoom.addMessage hello 8 chatty) = 101.
Proof.
  destruct (proj2 chat_history_cap hello 8 chatty) as (Hcap & _ & _ & Hnext).
  split.
  - apply Hcap. vm_compute. reflexivity.
  - apply Hnext. vm_compute. reflexivity.
Defined.

(** ** The rate limiter (C7) *)







(** An attempt under another key leaves the entry in place while the
    cache has room. *)
Lemma isRateLimited_other_key socketId action limit windowMs now rl key :
  rate_key socketId action ≠ key →
  Z.of_nat (length rl) < LRU.max rateLimits_config →
  LRU.find key (isRateLimited socketId action limit windowMs now rl).2
  = LRU.find key rl.
Proof.
  intros Hne Hroom. unfold isRateLimited. fold (rate_key socketId action).
  set (k := rate_key socketId action) in *.
  assert (∀ v (items : list (LRU.entry RateLimit.t)),
            Z.of_nat (length items) ≤ Z.of_nat (length rl) →
            LRU.find key (LRU.set rateLimits_config now k v items).1
            = LRU.find key items) as Hset.
  { intros v items Hlen. unfold LRU.set.
    destruct (LRU.find k items); simpl.
    - destruct (String.eqb_spec key k); [congruence|].
      by apply LRU_find_remove_ne.
    - destruct (Z.geb_spec (Z.of_nat (length items)) 10000);
        [simpl in Hroom; lia|]. simpl.
      by destruct (String.eqb_spec key k); [congruence|]. }
  assert (length (LRU.remove k rl) ≤ length rl)%nat as Hrem
    by apply length_filter.
  unfold LRU.get. destruct (LRU.find k rl) as [e|] eqn:Hfind; simpl.
  - assert (LRU.find key (LRU.remove k rl) = LRU.find key rl) as Hother
      by by apply LRU_find_remove_ne.
    apply LRU_find_Some in Hfind as [He Hk].
    assert (length (LRU.remove k rl) < length rl)%nat as Hlt.
    { apply (length_filter_lt _ _ e); [done|].
      rewrite Hk, String.eqb_refl. done. }
    destruct (LRU.isStale rateLimits_config now e); simpl.
    + rewrite Hset; [done | lia].
    + destruct (now >? RateLimit.resetTime (LRU.value e)); simpl.
      * rewrite Hset; simpl; [|lia].
        destruct (String.eqb_spec key k); [congruence | done].
      * destruct (_ >=? limit); simpl.
        -- destruct (String.eqb_spec key k); [congruence | done].
        -- rewrite Hset; simpl; [|lia].
           destruct (String.eqb_spec key k); [congruence | done].
  - rewrite Hset; [done | lia].
Qed.



(** ** What a join emits *)

Lemma dispose_all_disposal sockets now disposed :
  Forall is_disposal (dispose_all sockets now disposed).
Proof.
  unfold dispose_all. induction disposed as [|[roomId room] disposed IH]; csimpl.
  - constructor.
  - apply Forall_app. split; [|done]. unfold dispose.
    destruct (_ >? _); repeat constructor.
Qed.

Lemma rooms_get_disposal now k s : Forall is_disposal (rooms_get now k s).2.
Proof.
  unfold rooms_get. destruct k as [k|]; [|constructor].
  destruct (LRU.get _ _ _ _) as [[room rooms1] disposed]. simpl.
  apply dispose_all_disposal.
Qed.

Lemma getOrCreateRoom_disposal roomId now s :
  Forall is_disposal (getOrCreateRoom roomId now s).2.
Proof.
  unfold getOrCreateRoom.
  pose proof (rooms_get_disposal now (Some roomId) s) as Hget.
  destruct (rooms_get now (Some roomId) s) as [[found s1] out1].
  destruct found as [room|]; [done|].
  destruct (LRU.set _ _ _ _ _) as [rooms2 disposed]. simpl in *.
  apply Forall_app. split; [done | apply dispose_all_disposal].
Qed.

Lemma snapshots_disposal out : Forall is_disposal out → snapshots out = [].
Proof.
  unfold snapshots. induction 1 as [|e out He _ IH]; [done|]. csimpl.
  unfold is_disposal in He. destruct (event e); try done.
Qed.

Lemma notices_disposal socketId out :
  Forall is_disposal out → screen_share_notices socketId out = [].
Proof.
  unfold screen_share_notices. induction 1 as [|e out He _ IH]; [done|]. csimpl.
  unfold is_disposal in He. destruct (event e); try done.
Qed.

(** A join that succeeded went through validation, the rate limiter and
    the capacity test. *)
Lemma join_succeeded_inv now socketId p s :
  join_succeeded (on_join_room now socketId p s).2 →
  ∃ roomId name rl room s2 out2,
    validate_join (JoinPayload.roomId p) (JoinPayload.name p)
      = Normal (Some (roomId, name)) ∧
    isRateLimited socketId "join-room" 5 60000 now (Server.rateLimits s)
      = (false, rl) ∧
    getOrCreateRoom (trim roomId) now (Server.with_rateLimits rl s)
      = (room, s2, out2) ∧
    JsMap.size (OptimizedRoom.users room) < MAX_USERS_PER_ROOM.
Proof.
  unfold join_succeeded. intros Hok.
  destruct (validate_join (JoinPayload.roomId p) (JoinPayload.name p))
    as [[[roomId name]|]|message] eqn:Hvalid;
    [|unfold on_join_room in Hok; rewrite Hvalid in Hok; done..].
  destruct (isRateLimited socketId "join-room" 5 60000 now (Server.rateLimits s))
    as [[] rl] eqn:Hlimit;
    [unfold on_join_room in Hok; rewrite Hvalid, Hlimit in Hok; done|].
  destruct (getOrCreateRoom (trim roomId) now (Server.with_rateLimits rl s))
    as [[room s2] out2] eqn:Hroom.
  exists roomId, name, rl, room, s2, out2. split_and!; try done.
  destruct (decide (JsMap.size (OptimizedRoom.users room) < MAX_USERS_PER_ROOM))
    as [|Hfull]; [done|]. exfalso. apply Hok.
  rewrite (on_join_room_full _ _ _ _ _ _ _ _ _ _ Hvalid Hlimit Hroom) by lia.
  simpl. unfold snapshots. rewrite omap_app. simpl.
  pose proof (getOrCreateRoom_disposal (trim roomId) now
                (Server.with_rateLimits rl s)) as Hd.
  rewrite Hroom in Hd. simpl in Hd. apply snapshots_disposal in Hd.
  unfold snapshots in Hd. by rewrite Hd.
Qed.

Lemma notices_of_sharers socketId (sharers : list User.t) :
  screen_share_notices socketId
    ((fun sharer =>
        socket_emit socketId
          (EvUserStartedScreenShare (User.id sharer) (Some (User.name sharer))))
       <$> sharers)
  = (fun u => (User.id u, Some (User.name u))) <$> sharers.
Proof.
  unfold screen_share_notices. induction sharers as [|u sharers IH]; [done|].
  csimpl. rewrite decide_True by done. by rewrite IH.
Qed.

Lemma users_wf_ids room :
  users_wf room →
  User.id <$> JsMap.values (OptimizedRoom.users room)
  = JsMap.keys (OptimizedRoom.users room).
Proof.
  intros [_ Hid]. unfold JsMap.values, JsMap.keys.
  induction Hid as [|[k u] us Hku _ IH]; [done|]. csimpl. simpl in Hku.
  by rewrite Hku, IH.
Qed.

Lemma notices_app socketId out1 out2 :
  screen_share_notices socketId (out1 ++ out2)
  = screen_share_notices socketId out1 ++ screen_share_notices socketId out2.
Proof. apply omap_app. Qed.

Lemma filter_sharers_elem (u : User.t) (l : list User.t) :
  u ∈ l → User.screenShareOn u = true →
  u ∈ filter (fun u => User.screenShareOn u = true) l.
Proof. intros. by apply list_elem_of_filter. Qed.

(** ** Screen sharers announced to a joiner (C9) *)

(** C9.  When a join succeeds, the joiner is then a participant of the
    room with the flags it sent, and the [user-started-screen-share]
    events that the handler sends to the joiner are, in the order of the
    roster, one for each participant of the room after the insertion whose
    [screenShareOn] is true, with that participant's id and name; no
    participant is announced twice, and a joiner that joined with
    [screenShareOn] true is announced to itself. *)
Theorem screen_share_on_join trace t0 now socketId p :
  let s := (run trace (Server.init t0)).1 in
  let result := handle now (FromClient socketId (JoinRoom p)) s in
  join_succeeded result.2 →
  ∃ roomId name room',
    validate_join (JoinPayload.roomId p) (JoinPayload.name p)
      = Normal (Some (roomId, name)) ∧
    room_of (trim roomId) result.1 = Some room' ∧
    JsMap.get socketId (OptimizedRoom.users room')
    = Some {| User.id := socketId; User.name := trim name;
              User.cameraOn := JoinPayload.cameraOn p;
              User.audioOn := JoinPayload.audioOn p;
              User.screenShareOn := JoinPayload.screenShareOn p;
              User.joinedAt := now |} ∧
    screen_share_notices socketId result.2
    = (fun u => (User.id u, Some (User.name u))) <$>
        filter (fun u => User.screenShareOn u = true)
          (JsMap.values (OptimizedRoom.users room')) ∧
    NoDup (screen_share_notices socketId result.2).*1 ∧
    (JoinPayload.screenShareOn p = true →
     (socketId, Some (trim name)) ∈ screen_share_notices socketId result.2).
Proof.
  intros s result Hok. subst result. simpl in *.
  pose proof (reachable_Forall users_wf trace t0) as Hwf. fold s in Hwf.
  destruct (Server.sockets s !! socketId) as [sk|]; [|done].
  destruct (join_succeeded_inv _ _ _ _ Hok)
    as (roomId & name & rl & room & s2 & out2 & Hvalid & Hlimit & Hroom & Hfree).
  destruct (on_join_room_success _ _ _ _ _ _ _ _ _ _ Hvalid Hlimit Hroom Hfree)
    as (Husers2 & Husers3 & ->).
  pose proof (getOrCreateRoom_disposal (trim roomId) now
                (Server.with_rateLimits rl s)) as Hd.
  pose proof (getOrCreateRoom_Forall users_wf _ _ _ _ _ _ Hroom) as [_ Hwfroom];
    [exact Hwf|].
  pose proof (getOrCreateRoom_room_of _ _ _ _ _ _ Hroom) as (Hfound & _ & _).
  set (userData := {| UserData.name := trim name;
                      UserData.cameraOn := JoinPayload.cameraOn p;
                      UserData.audioOn := JoinPayload.audioOn p;
                      UserData.screenShareOn := JoinPayload.screenShareOn p |}) in *.
  set (room1 := (OptimizedRoom.getUsersArray now room).2) in *.
  set (room2 := (OptimizedRoom.addUser socketId userData now room1).2) in *.
  set (room3 := (OptimizedRoom.getUsersArray now room2).2) in *.
  assert (users_wf room3) as Hwf3.
  { apply inv_getUsersArray, inv_addUser, inv_getUsersArray, Hwfroom. }
  assert (screen_share_notices socketId
            (out2
             ++ [socket_emit socketId
                   (EvExistingUsers
                      (existing_of <$> (OptimizedRoom.getUsersArray now room).1)
                      (OptimizedRoom.getUsersStatus room1))]
             ++ ((fun sharer =>
                    socket_emit socketId
                      (EvUserStartedScreenShare (User.id sharer)
                         (Some (User.name sharer)))) <$>
                 filter (fun u => User.screenShareOn u = true)
                   (JsMap.values (OptimizedRoom.users room2)))
             ++ (if Z.of_nat
                      (length (OptimizedRoom.getChatHistory MAX_CHAT_HISTORY room3))
                    >? 0
                 then [socket_emit socketId
                         (EvChatHistory
                            (OptimizedRoom.getChatHistory MAX_CHAT_HISTORY room3))]
                 else [])
             ++ [socket_to
                   (Server.sockets
                      (Server.with_sockets
                         (alter (joining roomId name) socketId (Server.sockets s2))
                         s2))
                   socketId roomId
                   (EvUserJoined socketId (trim name)
                      {| Flags.cameraOn := JoinPayload.cameraOn p;
                         Flags.audioOn := JoinPayload.audioOn p;
                         Flags.screenShareOn := JoinPayload.screenShareOn p |})])
          = (fun u => (User.id u, Some (User.name u))) <$>
              filter (fun u => User.screenShareOn u = true)
                (JsMap.values (OptimizedRoom.users room3))) as Hnotices.
  { rewrite !notices_app, notices_of_sharers, Husers3.
    rewrite notices_disposal by (by rewrite Hroom in Hd).
    destruct (_ >? 0); simpl; by rewrite app_nil_r. }
  exists roomId, name, room3. cbn [fst snd]. split_and!.
  - done.
  - apply room_of_put. unfold room_of. simpl. fold (room_of (trim roomId) s2).
    by rewrite Hfound.
  - rewrite Husers3, Husers2. apply JsMap_get_set_eq.
  - exact Hnotices.
  - rewrite Hnotices, <- list_fmap_compose.
    eapply sublist_NoDup; [exact (proj1 Hwf3)|].
    rewrite <- users_wf_ids by done.
    apply fmap_sublist, sublist_filter.
  - intros Hshare. rewrite Hnotices.
    apply (list_elem_of_fmap_2 (fun u => (User.id u, Some (User.name u)))
             _ {| User.id := socketId; User.name := trim name;
                  User.cameraOn := JoinPayload.cameraOn p;
                  User.audioOn := JoinPayload.audioOn p;
                  User.screenShareOn := JoinPayload.screenShareOn p;
                  User.joinedAt := now |}).
    apply filter_sharers_elem; [|done].
    apply (list_elem_of_fmap_2 snd _ (socketId, _)), JsMap_get_Some_elem.
    rewrite Husers3, Husers2. apply JsMap_get_set_eq.
Qed.

Lemma screen_share_on_join_witness :
  ("x", Some "Alice")
  ∈ screen_share_notices "x"
      (handle 1 (FromClient "x" (JoinRoom (join_payload "a" "Alice" true)))
         (run [(0, Connection "x")] (Server.init 0)).1).2.
Proof.
  destruct (screen_share_on_join [(0, Connection "x")] 0 1 "x"
              (join_payload "a" "Alice" true))
    as (roomId & name & room' & Hvalid & _ & _ & _ & _ & Hself).
  - vm_compute. discriminate.
  - injection Hvalid as <- <-. apply Hself. reflexivity.
Defined.

(** ** Renaming through a status update (C10) *)

Lemma updateUserStatus_name socketId status now room user n :
  JsMap.get socketId (OptimizedRoom.users room) = Some user →
  Status.name status = Some n →
  let res := OptimizedRoom.updateUserStatus socketId status now room in
  User.name <$> res.1 = Some n ∧
  User.name <$> JsMap.get socketId (OptimizedRoom.users res.2) = Some n.
Proof.
  intros Hget Hname. unfold OptimizedRoom.updateUserStatus. rewrite Hget. simpl.
  rewrite JsMap_get_set_eq. simpl. by rewrite Hname.
Qed.

Lemma on_media_status_change_name now socketId status s roomId room user n :
  (rooms_get now (Some roomId) s).1.1 = Some room →
  JsMap.get socketId (OptimizedRoom.users room) = Some user →
  Status.name status = Some n →
  User.name <$>
    user_of socketId
      (room_of roomId
         (on_media_status_change now socketId (Some roomId) status s).1)
  = Some n.
Proof.
  intros Hroom Hget Hname. unfold on_media_status_change.
  destruct (rooms_get now (Some roomId) s) as [[found s1] out1] eqn:Hfound.
  simpl in Hroom. subst found.
  apply rooms_get_room_of in Hfound as (_ & Hs1 & _).
  pose proof (updateUserStatus_name socketId status now room user n Hget Hname)
    as [Hres Hstored].
  destruct (OptimizedRoom.updateUserStatus socketId status now room)
    as [[updatedUser|] room']; [|done]. simpl in *.
  rewrite room_of_put by (exists room; exact Hs1). exact Hstored.
Qed.

Lemma disposal_not_chat out e :
  Forall is_disposal out → e ∈ out → ¬ is_chat e.
Proof.
  intros Hout He. apply (proj1 (Forall_forall _ _) Hout) in He.
  unfold is_disposal, is_chat in *. destruct (event e); tauto.
Qed.

Lemma on_chat_message_accepts now socketId p s e :
  e ∈ (on_chat_message now socketId p s).2 → is_chat e →
  ∃ roomId claimed message room user,
    ChatPayload.roomId p = JString roomId ∧
    ChatPayload.name p = JString claimed ∧
    ChatPayload.message p = JString message ∧
    room_of roomId s = Some room ∧
    JsMap.get socketId (OptimizedRoom.users room) = Some user ∧
    User.name user = trim claimed ∧
    event e = EvChatMessage
                {| ChatMessage.name := User.name user;
                   ChatMessage.message := trim message;
                   ChatMessage.timestamp := now |}.
Proof.
  unfold on_chat_message. intros He Hchat.
  pose proof (rooms_get_disposal now
    (match ChatPayload.roomId p with JString r => Some r | _ => None end) s) as Hd.
  destruct (rooms_get _ _ _) as [[room s1] out1] eqn:Hroom. simpl in Hd.
  assert (∀ m, e ∈ out1 ++ [socket_emit socketId (EvError m)] → False) as Herr.
  { intros m [Hin|Hin]%elem_of_app.
    - by eapply disposal_not_chat.
    - apply list_elem_of_singleton in Hin. by subst e. }
  assert (e ∈ out1 → False) as Hout by (intros Hin; by eapply disposal_not_chat).
  destruct room as [room|]; [|by destruct (ChatPayload.roomId p)].
  simpl in He.
  destruct (JsMap.get socketId (OptimizedRoom.users room)) as [user|] eqn:Huser;
    [|done].
  destruct (ChatPayload.roomId p) as [|roomId|] eqn:HroomId; try done.
  apply rooms_get_room_of in Hroom as (Hs & _).
  destruct (ChatPayload.message p) as [|message|] eqn:Hmessage;
    [done| |exfalso; eapply Herr; exact He].
  destruct (negb (truthy (trim message))); [done|].
  destruct (ChatPayload.name p) as [|claimed|] eqn:Hclaimed;
    [done| |exfalso; eapply Herr; exact He].
  destruct (negb (truthy (trim claimed))); [done|].
  destruct (String.eqb_spec (User.name user) (trim claimed)) as [Hsame|];
    [|done]. simpl in He.
  destruct (_ >? 500); [exfalso; eapply Herr; exact He|].
  destruct (isRateLimited _ _ _ _ _ _) as [[] rl]; [exfalso; eapply Herr; exact He|].
  simpl in He. apply elem_of_app in He as [Hin|Hin]; [done|].
  apply list_elem_of_singleton in Hin. subst e.
  exists roomId, claimed, message, room, user. done.
Qed.

(** C10.  [updateUserStatus] stores whatever [name] the status carries,
    any string at all, in the record of the participant, so a
    [media-status-change] of a participant of a live room that carries a
    name renames it; and the [chat-message] handler broadcasts a message
    only when the claimed name, trimmed, is the name stored for the sender
    when the message arrives. *)
Theorem rename_by_status_update :
  (∀ socketId status now room user n,
     JsMap.get socketId (OptimizedRoom.users room) = Some user →
     Status.name status = Some n →
     let res := OptimizedRoom.updateUserStatus socketId status now room in
     User.name <$> res.1 = Some n ∧
     User.name <$> JsMap.get socketId (OptimizedRoom.users res.2) = Some n) ∧
  (∀ now socketId status s sk roomId room user n,
     Server.sockets s !! socketId = Some sk →
     Socket.currentRoomId sk = Some roomId →
     (rooms_get now (Some roomId) s).1.1 = Some room →
     JsMap.get socketId (OptimizedRoom.users room) = Some user →
     Status.name status = Some n →
     User.name <$>
       user_of socketId
         (room_of roomId
            (handle now (FromClient socketId (MediaStatusChange status)) s).1)
     = Some n) ∧
  (∀ now socketId p s e,
     e ∈ (handle now (FromClient socketId (ChatMsg p)) s).2 → is_chat e →
     ∃ roomId claimed room user,
       ChatPayload.roomId p = JString roomId ∧
       ChatPayload.name p = JString claimed ∧
       room_of roomId s = Some room ∧
       JsMap.get socketId (OptimizedRoom.users room) = Some user ∧
       User.name user = trim claimed).
Proof.
  split_and!.
  - apply updateUserStatus_name.
  - intros now socketId status s sk roomId room user n Hsk Hcurrent Hroom Hget Hname.
    simpl. rewrite Hsk, Hcurrent.
    by eapply on_media_status_change_name.
  - intros now socketId p s e He Hchat. simpl in He.
    destruct (Server.sockets s !! socketId) as [sk|];
      [|by apply elem_of_nil in He].
    destruct (on_chat_message_accepts _ _ _ _ _ He Hchat)
      as (roomId & claimed & message & room & user & ? & ? & ? & ? & ? & ? & ?).
    by exists roomId, claimed, room, user.
Qed.

Lemma rename_by_status_update_witness :
  User.name <$>
    user_of "x"
      (room_of "a"
         (handle 2 (FromClient "x" (MediaStatusChange (rename long_name)))
            alice_in_a).1)
  = Some long_name.
Proof.
  destruct rename_by_status_update as (_ & Hrename & _).
  eapply (Hrename 2 "x" (rename long_name) alice_in_a
            (default (Socket.new "x") (Server.sockets alice_in_a !! "x")) "a"
            (default (OptimizedRoom.new "a" 0) (room_of "a" alice_in_a))
            (User.mk "x" "Alice" false false false 1));
    vm_compute; reflexivity.
Defined.

(** After the renaming, a message that claims the name given at join time
    is dropped and one that claims the new name is broadcast. *)
Example chat_after_rename :
  let s := (handle 2 (FromClient "x" (MediaStatusChange (rename "Bob")))
              alice_in_a).1 in
  let chat claimed :=
    event <$>
      (handle 3 (FromClient "x"
                   (ChatMsg {| ChatPayload.roomId := JString "a";
                               ChatPayload.message := JString "hi";
                               ChatPayload.name := JString claimed |})) s).2 in
  chat "Alice" = [] ∧
  chat "Bob" = [EvChatMessage {| ChatMessage.name := "Bob";
                                 ChatMessage.message := "hi";
                                 ChatMessage.timestamp := 3 |}].
Proof. vm_compute. done. Qed.

(** ** Channels *)

Lemma getOrCreateRoom_sockets roomId now s :
  Server.sockets (getOrCreateRoom roomId now s).1.2 = Server.sockets s.
Proof.
  destruct (getOrCreateRoom roomId now s) as [[room s1] out] eqn:Hroom.
  by apply getOrCreateRoom_room_of in Hroom as (_ & ? & _).
Qed.

Lemma on_join_room_sockets now socketId p s :
  Server.sockets (on_join_room now socketId p s).1 = Server.sockets s ∨
  ∃ roomId name,
    Server.sockets (on_join_room now socketId p s).1
    = alter (joining roomId name) socketId (Server.sockets s).
Proof.
  unfold on_join_room.
  destruct (validate_join _ _) as [[[roomId name]|]|]; [|by left..].
  destruct (isRateLimited _ _ _ _ _ _) as [[] rl]; [by left|].
  pose proof (getOrCreateRoom_sockets (trim roomId) now
                (Server.with_rateLimits rl s)) as Hsk.
  destruct (getOrCreateRoom _ _ _) as [[room s2] out2].
  destruct (OptimizedRoom.getUsersArray now room) as [usersArray room1].
  destruct (OptimizedRoom.addUser _ _ _ _) as [added room2].
  right. exists roomId, name. simpl in Hsk.
  destruct added; [destruct (OptimizedRoom.getUsersArray now room2)|]; simpl;
    rewrite alter_alter_eq, Hsk; done.
Qed.

Lemma on_offer_sockets now socketId currentRoomId p s :
  Server.sockets (on_offer now socketId currentRoomId p s).1 = Server.sockets s.
Proof.
  unfold on_offer. pose proof (rooms_get_frame now currentRoomId s) as [Hsk _].
  destruct (rooms_get _ _ _) as [[room s1] out1].
  destruct (user_of _ _), (OfferPayload.to p) as [to|]; try done.
  by destruct (truthy to).
Qed.

Lemma relay_sockets limit ev now socketId currentRoomId p s :
  Server.sockets (relay limit ev now socketId currentRoomId p s).1
  = Server.sockets s.
Proof.
  unfold relay. destruct p as [p|]; [|done].
  destruct (RelayPayload.to p) as [to|]; [|done].
  destruct (_ || _); [done|].
  destruct (isRateLimited _ _ _ _ _ _) as [[] rl]; [done|].
  pose proof (rooms_get_frame now currentRoomId (Server.with_rateLimits rl s))
    as [Hsk _].
  destruct (rooms_get _ _ _) as [[room s2] out2].
  by destruct (user_of _ _).
Qed.

Lemma on_media_status_change_sockets now socketId currentRoomId status s :
  Server.sockets (on_media_status_change now socketId currentRoomId status s).1
  = Server.sockets s.
Proof.
  unfold on_media_status_change.
  pose proof (rooms_get_frame now currentRoomId s) as [Hsk _].
  destruct (rooms_get _ _ _) as [[found s1] out1].
  destruct found as [room|], currentRoomId as [roomId|]; try done.
  by destruct (OptimizedRoom.updateUserStatus _ _ _ _) as [[updatedUser|] room'].
Qed.

Lemma on_chat_message_sockets now socketId p s :
  Server.sockets (on_chat_message now socketId p s).1 = Server.sockets s.
Proof.
  unfold on_chat_message.
  pose proof (rooms_get_frame now
    (match ChatPayload.roomId p with JString r => Some r | _ => None end) s)
    as [Hsk _].
  destruct (rooms_get _ _ _) as [[room s1] out1].
  destruct (user_of _ _) as [user|]; [|done].
  destruct (match ChatPayload.roomId p with JString r => Some r | _ => None end)
    as [roomId|]; [|done].
  destruct (ChatPayload.message p) as [|message|]; try done.
  destruct (negb (truthy (trim message))); [done|].
  destruct (ChatPayload.name p) as [|name|]; try done.
  destruct (negb (truthy (trim name))); [done|].
  destruct (negb (String.eqb _ _)); [done|].
  destruct (_ >? _); [done|].
  by destruct (isRateLimited _ _ _ _ _ _) as [[] rl].
Qed.

Lemma on_screen_share_sockets on now socketId currentRoomId userName s :
  Server.sockets (on_screen_share on now socketId currentRoomId userName s).1
  = Server.sockets s.
Proof.
  unfold on_screen_share. destruct currentRoomId as [roomId|]; [|done].
  destruct (truthy roomId); [|done].
  pose proof (rooms_get_frame now (Some roomId) s) as [Hsk _].
  destruct (rooms_get _ _ _) as [[found s1] out1].
  by destruct found.
Qed.

Lemma on_disconnect_sockets now socketId currentRoomId s :
  Server.sockets (on_disconnect now socketId currentRoomId s).1
  = base.delete socketId (Server.sockets s).
Proof.
  unfold on_disconnect. destruct currentRoomId as [roomId|]; [|done].
  destruct (truthy roomId); [|done].
  match goal with |- context [rooms_get now (Some roomId) ?s0] =>
    pose proof (rooms_get_frame now (Some roomId) s0) as [Hsk _] end.
  destruct (rooms_get _ _ _) as [[found s1] out1].
  destruct found as [room|]; [|done].
  destruct (OptimizedRoom.removeUser _ _ _) as [[] room']; [|done].
  simpl. destruct (OptimizedRoom.isEmpty room'); [|done].
  unfold scheduleCleanup. simpl. by destruct (Server.cleanupScheduled s1).
Qed.



Lemma elem_of_subscribers channel sockets socketId :
  socketId ∈ subscribers channel sockets ↔
  ∃ sk, sockets !! socketId = Some sk ∧ channel ∈ Socket.rooms sk.
Proof.
  unfold subscribers. rewrite elem_of_dom. unfold is_Some.
  setoid_rewrite map_lookup_filter_Some. naive_solver.
Qed.

(** ** The signaling relay (C1) *)

Lemma on_offer_emits now socketId currentRoomId p s e :
  e ∈ (on_offer now socketId currentRoomId p s).2 →
  is_disposal e ∨
  ∃ to roomId room user,
    OfferPayload.to p = Some to ∧ currentRoomId = Some roomId ∧
    room_of roomId s = Some room ∧
    JsMap.get socketId (OptimizedRoom.users room) = Some user ∧
    e = socket_to (Server.sockets s) socketId to
          (EvOffer (OfferPayload.sdp p) socketId (User.name user)
             (OptimizedRoom.flags_of user)).
Proof.
  unfold on_offer. pose proof (rooms_get_disposal now currentRoomId s) as Hd.
  pose proof (rooms_get_frame now currentRoomId s) as [Hsk _].
  destruct (rooms_get now currentRoomId s) as [[room s1] out1] eqn:Hroom.
  simpl in Hd, Hsk.
  assert (e ∈ out1 → is_disposal e) as Hout
    by apply (proj1 (Forall_forall _ _) Hd).
  destruct room as [room|]; simpl; [|by left; auto].
  destruct currentRoomId as [roomId|]; [|discriminate].
  apply rooms_get_room_of in Hroom as (Hs & _).
  destruct (JsMap.get socketId (OptimizedRoom.users room)) as [user|] eqn:Huser;
    [|by left; auto].
  destruct (OfferPayload.to p) as [to|]; [|by left; auto].
  destruct (truthy to); [|by left; auto]. simpl.
  intros [Hin|Hin%list_elem_of_singleton]%elem_of_app; [by left; auto|].
  right. exists to, roomId, room, user. by rewrite <- Hsk.
Qed.






(** ** Where the code departs from the specification *)

(** *** A join while already joined (C6, C8)

    The [join-room] handler does not look at the room the connection is
    already in: the connection stays a participant of the room it joined
    before, and a second join of the same room finds the joiner in the
    roster it snapshots. *)

(** C8 fails on the code: after the two joins "x" is a participant of both
    rooms, and its disconnect removes it from "b" only. *)
Lemma session_in_two_rooms :
  participants "a" hopper = ["x"] ∧
  participants "b" hopper = ["x"] ∧
  Socket.currentRoomId <$> Server.sockets hopper !! "x" = Some (Some "b") ∧
  let gone := (handle 3 (FromClient "x" Disconnect) hopper).1 in
  Server.sockets gone !! "x" = None ∧
  participants "a" gone = ["x"] ∧
  participants "b" gone = [].
Proof. vm_compute. done. Qed.

(** C6 fails on the code: the snapshot sent for a second join of room "a"
    lists the joiner. *)
Lemma joiner_in_own_snapshot :
  snapshots
    (handle 2 (FromClient "x" (JoinRoom (join_payload "a" "Alice" false)))
       alice_in_a).2
  = [({["x"]},
      [{| ExistingUser.id := "x"; ExistingUser.name := "Alice";
          ExistingUser.joinedAt := 1 |}])].
Proof. vm_compute. reflexivity. Qed.

(** *** A join refused by a full room (C3)

    [currentRoomId] is assigned and the socket subscribed to the channel
    before [addUser] throws, and the [catch] block undoes neither. *)

Lemma full_room_join_session now socketId p s sk roomId name :
  let attempt :=
    isRateLimited socketId "join-room" 5 60000 now (Server.rateLimits s) in
  let found :=
    getOrCreateRoom (trim roomId) now (Server.with_rateLimits attempt.2 s) in
  Server.sockets s !! socketId = Some sk →
  validate_join (JoinPayload.roomId p) (JoinPayload.name p)
    = Normal (Some (roomId, name)) →
  attempt.1 = false →
  MAX_USERS_PER_ROOM ≤ JsMap.size (OptimizedRoom.users found.1.1) →
  Server.sockets (on_join_room now socketId p s).1 !! socketId
  = Some {| Socket.rooms := {[roomId]} ∪ Socket.rooms sk;
            Socket.currentRoomId := Some (trim roomId);
            Socket.userName := Some (trim name) |}.
Proof.
  intros attempt found Hsk Hvalid Hlimit Hfull.
  destruct attempt as [limited rl] eqn:Hattempt. simpl in Hlimit. subst limited.
  destruct found as [[room s2] out2] eqn:Hroom. subst found. simpl in *.
  rewrite (on_join_room_full _ _ _ _ _ _ _ _ _ _ Hvalid Hattempt Hroom Hfull).
  apply getOrCreateRoom_room_of in Hroom as (_ & Hsockets & _).
  simpl in *. rewrite Hsockets, lookup_alter_eq, Hsk. done.
Qed.

(** C3 fails on the code: "late", a connection that is in no room, asks
    to join the full room "abc"; it is sent the room-full error, and yet
    its [currentRoomId] is "abc" afterwards and its socket is subscribed
    to the channel "abc", while it is no participant of the room. *)
Lemma refused_join_leaves_session_in_room :
  let result :=
    handle 201 (FromClient "late" (JoinRoom (join_payload "abc" "Zed" false)))
      full_house in
  Socket.currentRoomId <$> Server.sockets full_house !! "late" = Some None ∧
  result.2 = [socket_emit "late" (EvError "Room is full (max 150 users)")] ∧
  Socket.currentRoomId <$> Server.sockets result.1 !! "late" = Some (Some "abc") ∧
  Socket.rooms <$> Server.sockets result.1 !! "late" = Some {["abc"; "late"]} ∧
  JsMap.has "late"
    (OptimizedRoom.users
       (default (OptimizedRoom.new "abc" 0) (room_of "abc" result.1))) = false.
Proof. vm_compute. done. Qed.

(** *** The notice of a disposed room (C2)

    The room is kept under the trimmed id, the socket is subscribed to the
    channel of the id as the client sent it, and [dispose] emits to the
    channel of the trimmed id. *)


(** ** What holds of joins all the same *)

Lemma getUsersArray_coherent now room :
  cache_coherent room →
  (OptimizedRoom.getUsersArray now room).1
  = JsMap.values (OptimizedRoom.users room).
Proof.
  unfold cache_coherent, OptimizedRoom.getUsersArray.
  destruct (OptimizedRoom._usersList room); [destruct (_ >? _)|]; done.
Qed.

(** The memoized roster is never stale: in every state the event loop can
    reach, [getUsersArray] answers the participants the room has. *)
Theorem roster_never_stale trace t0 now e :
  e ∈ Server.rooms (run trace (Server.init t0)).1 →
  (OptimizedRoom.getUsersArray now (LRU.value e)).1
  = JsMap.values (OptimizedRoom.users (LRU.value e)).
Proof.
  intros He. apply getUsersArray_coherent.
  pose proof (reachable_Forall cache_coherent trace t0) as Hall.
  by apply (proj1 (Forall_forall _ _) Hall) in He.
Qed.




(** A join that validation or the rate limiter refuses changes neither
    the sockets nor the rooms and sends the joiner one error. *)
Theorem refused_join_changes_nothing now socketId p s :
  let attempt :=
    isRateLimited socketId "join-room" 5 60000 now (Server.rateLimits s) in
  let result := on_join_room now socketId p s in
  (match validate_join (JoinPayload.roomId p) (JoinPayload.name p) with
   | Normal (Some _) => attempt.1 = true
   | _ => True
   end) →
  Server.sockets result.1 = Server.sockets s ∧
  Server.rooms result.1 = Server.rooms s ∧
  ∃ message, result.2 = [socket_emit socketId (EvError message)].
Proof.
  intros attempt result. subst attempt result. unfold on_join_room.
  destruct (validate_join _ _) as [[[roomId name]|]|message]; intros Hrefused.
  - destruct (isRateLimited _ _ _ _ _ _) as [limited rl]. simpl in Hrefused.
    subst limited. simpl. eauto.
  - simpl. eauto.
  - simpl. eauto.
Qed.

Lemma refused_join_changes_nothing_witness :
  let result :=
    on_join_room 5 "x"
      {| JoinPayload.roomId := JString "   "; JoinPayload.name := JOther;
         JoinPayload.cameraOn := false; JoinPayload.audioOn := false;
         JoinPayload.screenShareOn := false |} alice_in_a in
  Server.sockets result.1 = Server.sockets alice_in_a ∧
  Server.rooms result.1 = Server.rooms alice_in_a ∧
  ∃ message, result.2 = [socket_emit "x" (EvError message)].
Proof.
  apply (refused_join_changes_nothing 5 "x" _ alice_in_a). exact I.
Defined.

Lemma roster_never_stale_witness :
  let e := default (LRU.mkEntry "a" (OptimizedRoom.new "a" 0) 0)
             (head (Server.rooms alice_in_a)) in
  (OptimizedRoom.getUsersArray 9000 (LRU.value e)).1
  = JsMap.values (OptimizedRoom.users (LRU.value e)).
Proof.
  apply (roster_never_stale
           [(0, Connection "x");
            (1, FromClient "x" (JoinRoom (join_payload "a" "Alice" false)))]
           0 9000).
  vm_compute. left.
Defined.

(** * The caches and the rooms they hold *)

(** ** The keys of a cache *)

Lemma filter_all {A} (P : A → Prop) `{!∀ x, Decision (P x)} (l : list A) :
  Forall P l → filter P l = l.
Proof.
  induction 1 as [|x l Hx _ IH]; [done|]. by rewrite filter_cons_True, IH.
Qed.

Section LRUKeys.
Context {V : Type}.
Implicit Types (k : string) (items : list (LRU.entry V)) (e : LRU.entry V).

Lemma LRU_find_None k items : LRU.find k items = None ↔ k ∉ LRU.key <$> items.
Proof.
  induction items as [|e items IH]; csimpl.
  - split; [intros _ H; inversion H | done].
  - destruct (String.eqb_spec k (LRU.key e)) as [->|Hne].
    + split; [discriminate | intros H; destruct H; left].
    + rewrite IH, not_elem_of_cons. tauto.
Qed.

Lemma LRU_remove_key k items : k ∉ LRU.key <$> LRU.remove k items.
Proof.
  unfold LRU.remove. intros (e & -> & [He _]%list_elem_of_filter)%list_elem_of_fmap.
  by rewrite String.eqb_refl in He.
Qed.

Lemma LRU_remove_sublist k items : LRU.remove k items `sublist_of` items.
Proof. apply sublist_filter. Qed.


Lemma LRU_remove_NoDup k items :
  NoDup (LRU.key <$> items) → NoDup (LRU.key <$> LRU.remove k items).
Proof.
  intros Hnd. eapply sublist_NoDup; [exact Hnd|].
  apply fmap_sublist, LRU_remove_sublist.
Qed.

Lemma LRU_remove_length k items :
  (length (LRU.remove k items) ≤ length items)%nat.
Proof. apply length_filter. Qed.

Lemma LRU_remove_length_lt k items e :
  LRU.find k items = Some e →
  (length (LRU.remove k items) < length items)%nat.
Proof.
  intros [He Hk]%LRU_find_Some. apply (length_filter_lt _ _ e); [done|].
  by rewrite Hk, String.eqb_refl.
Qed.

Lemma LRU_modify_keys k (f : V → V) items :
  LRU.key <$> LRU.modify k f items = LRU.key <$> items.
Proof.
  unfold LRU.modify. rewrite <- list_fmap_compose. apply list_fmap_ext.
  intros i e _. simpl. by destruct (String.eqb k (LRU.key e)).
Qed.

Lemma LRU_modify_modify k (f g : V → V) items :
  LRU.modify k g (LRU.modify k f items) = LRU.modify k (g ∘ f) items.
Proof.
  unfold LRU.modify. rewrite <- list_fmap_compose. apply list_fmap_ext.
  intros i e _. simpl. destruct (String.eqb k (LRU.key e)) eqn:Hk; simpl;
    by rewrite Hk.
Qed.

Lemma LRU_modify_ext k (f g : V → V) items :
  (∀ e, e ∈ items → LRU.key e = k → f (LRU.value e) = g (LRU.value e)) →
  LRU.modify k f items = LRU.modify k g items.
Proof.
  intros Hfg. unfold LRU.modify. apply list_fmap_ext. intros i e Hi.
  destruct (String.eqb_spec k (LRU.key e)) as [->|]; [|done].
  rewrite Hfg; [done | by eapply list_elem_of_lookup_2 | done].
Qed.

Section Wf.
Variable cfg : LRU.config.
Hypothesis Hmax : 1 ≤ LRU.max cfg.

Lemma LRU_get_wf now k items :
  cache_wf cfg items → cache_wf cfg (LRU.get cfg now k items).1.2.
Proof.
  intros [Hnd Hlen]. unfold LRU.get.
  destruct (LRU.find k items) as [e|] eqn:Hfind; simpl; [|done].
  pose proof (LRU_remove_length_lt _ _ _ Hfind).
  destruct (LRU.isStale cfg now e); simpl.
  - split; [by apply LRU_remove_NoDup | lia].
  - split; csimpl; [|lia].
    apply NoDup_cons. split; [apply LRU_remove_key | by apply LRU_remove_NoDup].
Qed.

Lemma LRU_evict_facts items :
  items ≠ [] →
  (LRU.evict items).1 `sublist_of` items ∧
  (length (LRU.evict items).1 < length items)%nat.
Proof.
  intros Hne. unfold LRU.evict.
  destruct (last items) as [e|] eqn:Hlast.
  - simpl. split; [apply sublist_take|].
    rewrite length_take. destruct items; [done | simpl; lia].
  - by apply last_None in Hlast.
Qed.

Lemma LRU_set_wf now k v items :
  cache_wf cfg items → cache_wf cfg (LRU.set cfg now k v items).1.
Proof.
  intros [Hnd Hlen]. unfold LRU.set.
  destruct (LRU.find k items) as [e|] eqn:Hfind; simpl.
  - pose proof (LRU_remove_length_lt _ _ _ Hfind).
    split; csimpl; [|lia].
    apply NoDup_cons. split; [apply LRU_remove_key | by apply LRU_remove_NoDup].
  - apply LRU_find_None in Hfind.
    destruct (Z.geb_spec (Z.of_nat (length items)) (LRU.max cfg)) as [Hfull|Hroom].
    + assert (items ≠ []) as Hne by (intros ->; simpl in *; lia).
      destruct (LRU_evict_facts _ Hne) as [Hsub Hlt].
      destruct (LRU.evict items) as [items' disposed]. simpl in *.
      split; csimpl; [|lia].
      apply NoDup_cons. split.
      * intros Hin. apply Hfind. eapply elem_of_sublist; [exact Hin|].
        by apply fmap_sublist.
      * eapply sublist_NoDup; [exact Hnd | by apply fmap_sublist].
    + simpl. split; csimpl; [|lia]. by apply NoDup_cons.
Qed.

Lemma LRU_delete_wf k items :
  cache_wf cfg items → cache_wf cfg (LRU.delete k items).1.2.
Proof.
  intros [Hnd Hlen]. unfold LRU.delete.
  destruct (LRU.find k items); simpl; [|done].
  pose proof (LRU_remove_length k items).
  split; [by apply LRU_remove_NoDup | lia].
Qed.

Lemma LRU_modify_wf k (f : V → V) items :
  cache_wf cfg items → cache_wf cfg (LRU.modify k f items).
Proof.
  intros [Hnd Hlen]. split; [by rewrite LRU_modify_keys|].
  unfold LRU.modify. by rewrite length_fmap.
Qed.

End Wf.
End LRUKeys.

(** ** Trimming *)

Lemma trimStart_head s :
  trimStart s = "" ∨ ∃ a s', trimStart s = String a s' ∧ is_ws a = false.
Proof.
  induction s as [|a s IH]; simpl; [by left|].
  destruct (is_ws a) eqn:Ha; [done|]. right. by exists a, s.
Qed.

Lemma trimStart_length s : (String.length (trimStart s) ≤ String.length s)%nat.
Proof.
  induction s as [|a s IH]; simpl; [done|]. destruct (is_ws a); simpl; lia.
Qed.

Lemma trimEnd_length s : (String.length (trimEnd s) ≤ String.length s)%nat.
Proof.
  induction s as [|a s IH]; simpl; [done|].
  destruct (trimEnd s); [destruct (is_ws a)|]; simpl in *; lia.
Qed.

Lemma trimEnd_cons a s :
  trimEnd (String a s)
  = match trimEnd s with
    | EmptyString => if is_ws a then EmptyString else String a EmptyString
    | t => String a t
    end.
Proof. done. Qed.

Lemma trimEnd_idemp s : trimEnd (trimEnd s) = trimEnd s.
Proof.
  induction s as [|a s IH]; [done|]. rewrite trimEnd_cons.
  destruct (trimEnd s) as [|b t] eqn:Ht.
  - destruct (is_ws a) eqn:Ha; [done|]. rewrite trimEnd_cons. simpl. by rewrite Ha.
  - rewrite trimEnd_cons, IH. done.
Qed.

Lemma trimEnd_head a s :
  is_ws a = false → ∃ t, trimEnd (String a s) = String a t.
Proof.
  intros Ha. simpl. destruct (trimEnd s); [rewrite Ha|]; eauto.
Qed.

Lemma trim_idemp s : trim (trim s) = trim s.
Proof.
  unfold trim. destruct (trimStart_head s) as [->|(a & s' & -> & Ha)]; [done|].
  destruct (trimEnd_head a s' Ha) as [t Ht]. rewrite Ht.
  cbn [trimStart]. rewrite Ha, <- Ht. apply trimEnd_idemp.
Qed.

Lemma trim_length s : str_length (trim s) ≤ str_length s.
Proof.
  unfold trim, str_length.
  pose proof (trimStart_length s). pose proof (trimEnd_length (trimStart s)). lia.
Qed.

Lemma truthy_ne s : truthy s = true ↔ s ≠ "".
Proof.
  unfold truthy. destruct (String.eqb_spec s ""); simpl; split; congruence.
Qed.

Lemma validate_join_ok roomId name r n :
  validate_join roomId name = Normal (Some (r, n)) →
  roomId = JString r ∧ name = JString n ∧
  trim r ≠ "" ∧ trim n ≠ "" ∧ str_length r ≤ 50 ∧ str_length n ≤ 30.
Proof.
  unfold validate_join. destruct roomId as [|r'|]; try done.
  destruct (truthy (trim r')) eqn:Hr; [|done]. simpl.
  destruct name as [|n'|]; try done.
  destruct (truthy (trim n')) eqn:Hn; [|done]. simpl.
  destruct (Z.gtb_spec (str_length r') 50); [done|].
  destruct (Z.gtb_spec (str_length n') 30); [done|].
  intros [= <- <-]. apply truthy_ne in Hr, Hn. done.
Qed.

Lemma room_id_ok_trim r :
  trim r ≠ "" → str_length r ≤ 50 → room_id_ok (trim r).
Proof.
  intros Hne Hlen. split_and!; [apply trim_idemp | done|].
  pose proof (trim_length r). lia.
Qed.

(** ** The handlers change the room cache by steps *)

Lemma LRU_modify_id {V} k (items : list (LRU.entry V)) :
  LRU.modify k (fun v => v) items = items.
Proof.
  unfold LRU.modify. induction items as [|[k' v st] items IH]; [done|]. csimpl.
  rewrite IH. by destruct (String.eqb k k').
Qed.

Lemma held_put k room' items :
  held k room' (LRU.modify k (fun _ => room') items).
Proof.
  unfold held, LRU.modify. intros e (e0 & -> & _)%list_elem_of_fmap.
  destruct (String.eqb_spec k (LRU.key e0)); [done | congruence].
Qed.

Lemma put_steps k cs room items :
  held k room items →
  cache_steps items (LRU.modify k (fun _ => after_calls cs room) items).
Proof.
  revert room items. induction cs as [|c cs IH]; intros room items Hheld; simpl.
  - rewrite (LRU_modify_ext k _ (fun v => v)), LRU_modify_id; [constructor|].
    intros e He Hk. symmetry. by apply Hheld.
  - eapply steps_trans; [apply (steps_call k c)|].
    assert (LRU.modify k (after_call c) items
            = LRU.modify k (fun _ => after_call c room) items) as Heq.
    { apply LRU_modify_ext. intros e He Hk. by rewrite (Hheld e He Hk). }
    rewrite Heq.
    specialize (IH (after_call c room) _ (held_put k (after_call c room) items)).
    by rewrite LRU_modify_modify in IH.
Qed.

Lemma LRU_get_held {V} cfg now k (items : list (LRU.entry V)) v items' disposed :
  LRU.get cfg now k items = (Some v, items', disposed) →
  ∀ e, e ∈ items' → LRU.key e = k → LRU.value e = v.
Proof.
  unfold LRU.get. destruct (LRU.find k items) as [e0|]; [|discriminate].
  destruct (LRU.isStale cfg now e0); [discriminate|].
  intros [= <- <- <-] e [->|He]%elem_of_cons Hk; [done|].
  exfalso. apply (LRU_remove_key k items). apply list_elem_of_fmap. eauto.
Qed.

Lemma LRU_get_None_find {V} cfg now k (items : list (LRU.entry V)) :
  (LRU.get cfg now k items).1.1 = None →
  LRU.find k (LRU.get cfg now k items).1.2 = None.
Proof.
  unfold LRU.get. destruct (LRU.find k items) as [e0|] eqn:Hfind; simpl; [|done].
  destruct (LRU.isStale cfg now e0); simpl; [|discriminate].
  intros _. apply LRU_find_remove_eq.
Qed.

Lemma rooms_get_steps now k s :
  cache_steps (Server.rooms s) (Server.rooms (rooms_get now k s).1.2).
Proof.
  unfold rooms_get. destruct k as [k|]; [|constructor].
  pose proof (steps_get now k (Server.rooms s)) as Hstep.
  by destruct (LRU.get _ _ _ _) as [[room rooms1] disposed].
Qed.

Lemma rooms_get_held now k s room s1 out :
  rooms_get now (Some k) s = (Some room, s1, out) → held k room (Server.rooms s1).
Proof.
  unfold rooms_get.
  destruct (LRU.get _ _ _ _) as [[found rooms1] disposed] eqn:Hget.
  intros [= -> <- <-]. exact (LRU_get_held _ _ _ _ _ _ _ Hget).
Qed.

Lemma getOrCreateRoom_steps roomId now s :
  room_id_ok roomId →
  cache_steps (Server.rooms s) (Server.rooms (getOrCreateRoom roomId now s).1.2) ∧
  held roomId (getOrCreateRoom roomId now s).1.1
    (Server.rooms (getOrCreateRoom roomId now s).1.2).
Proof.
  intros Hok. unfold getOrCreateRoom.
  pose proof (rooms_get_steps now (Some roomId) s) as Hsteps.
  pose proof (LRU_get_None_find rooms_config now roomId (Server.rooms s)) as Hnone.
  destruct (rooms_get now (Some roomId) s) as [[found s0] out0] eqn:Hget.
  simpl in Hsteps.
  destruct found as [room|].
  - split; [done|]. by eapply rooms_get_held.
  - assert (LRU.find roomId (Server.rooms s0) = None) as Hfind.
    { unfold rooms_get in Hget.
      destruct (LRU.get _ _ _ _) as [[found rooms1] disposed].
      injection Hget as -> <- _. by apply Hnone. }
    pose proof (steps_create now roomId _ Hfind Hok) as Hcreate.
    assert (held roomId (OptimizedRoom.new roomId now)
              (LRU.set rooms_config now roomId (OptimizedRoom.new roomId now)
                 (Server.rooms s0)).1) as Hheld.
    { unfold LRU.set. rewrite Hfind. apply LRU_find_None in Hfind.
      assert (∀ items', items' `sublist_of` Server.rooms s0 →
                held roomId (OptimizedRoom.new roomId now)
                  ({| LRU.key := roomId; LRU.value := OptimizedRoom.new roomId now;
                      LRU.start := now |} :: items')) as Hsub.
      { intros items' Hsub e [->|He]%elem_of_cons Hk; [done|].
        exfalso. apply Hfind. apply list_elem_of_fmap. exists e.
        split; [done|]. by eapply elem_of_sublist. }
      destruct (_ >=? _).
      - unfold LRU.evict. destruct (last (Server.rooms s0)); simpl;
          apply Hsub; [apply sublist_take | done].
      - by apply Hsub. }
    destruct (LRU.set _ _ _ _ _) as [rooms2 disposed]. simpl in *.
    split; [by eapply steps_trans | done].
Qed.

Lemma on_join_room_steps now socketId p s :
  cache_steps (Server.rooms s) (Server.rooms (on_join_room now socketId p s).1).
Proof.
  unfold on_join_room.
  destruct (validate_join _ _) as [[[roomId name]|]|] eqn:Hvalid;
    [|constructor..].
  apply validate_join_ok in Hvalid as (_ & _ & Hne & _ & Hlen & _).
  destruct (isRateLimited _ _ _ _ _ _) as [[] rl]; [constructor|].
  destruct (getOrCreateRoom_steps (trim roomId) now (Server.with_rateLimits rl s)
              (room_id_ok_trim _ Hne Hlen)) as [Hsteps Hheld].
  destruct (getOrCreateRoom _ _ _) as [[room s2] out2]. simpl in Hsteps, Hheld.
  eapply steps_trans; [exact Hsteps|].
  set (userData := {| UserData.name := trim name;
                      UserData.cameraOn := JoinPayload.cameraOn p;
                      UserData.audioOn := JoinPayload.audioOn p;
                      UserData.screenShareOn := JoinPayload.screenShareOn p |}).
  pose proof (put_steps (trim roomId)
    [CallGetUsersArray now; CallAddUser socketId userData now] room _ Hheld) as H2.
  pose proof (put_steps (trim roomId)
    [CallGetUsersArray now; CallAddUser socketId userData now;
     CallGetUsersArray now] room _ Hheld) as H3.
  simpl in H2, H3.
  destruct (OptimizedRoom.getUsersArray now room) as [usersArray room1].
  simpl in H2, H3.
  destruct (OptimizedRoom.addUser socketId userData now room1) as [added room2].
  simpl in H2, H3.
  destruct added; [|exact H2].
  by destruct (OptimizedRoom.getUsersArray now room2) as [usersArray' room3].
Qed.

Lemma on_offer_steps now socketId currentRoomId p s :
  cache_steps (Server.rooms s)
    (Server.rooms (on_offer now socketId currentRoomId p s).1).
Proof.
  unfold on_offer. pose proof (rooms_get_steps now currentRoomId s) as Hsteps.
  destruct (rooms_get _ _ _) as [[room s1] out1].
  destruct (user_of _ _), (OfferPayload.to p) as [to|]; try done.
  by destruct (truthy to).
Qed.

Lemma relay_steps limit ev now socketId currentRoomId p s :
  cache_steps (Server.rooms s)
    (Server.rooms (relay limit ev now socketId currentRoomId p s).1).
Proof.
  unfold relay. destruct p as [p|]; [|constructor].
  destruct (RelayPayload.to p) as [to|]; [|constructor].
  destruct (_ || _); [constructor|].
  destruct (isRateLimited _ _ _ _ _ _) as [[] rl]; [constructor|].
  pose proof (rooms_get_steps now currentRoomId (Server.with_rateLimits rl s))
    as Hsteps.
  destruct (rooms_get _ _ _) as [[room s2] out2].
  by destruct (user_of _ _).
Qed.

Lemma on_media_status_change_steps now socketId currentRoomId status s :
  cache_steps (Server.rooms s)
    (Server.rooms (on_media_status_change now socketId currentRoomId status s).1).
Proof.
  unfold on_media_status_change.
  pose proof (rooms_get_steps now currentRoomId s) as Hsteps.
  destruct (rooms_get _ _ _) as [[found s1] out1] eqn:Hget.
  destruct found as [room|], currentRoomId as [roomId|]; try done.
  pose proof (put_steps roomId [CallUpdateUserStatus socketId status now] room _
                (rooms_get_held _ _ _ _ _ _ Hget)) as Hput. simpl in Hput.
  destruct (OptimizedRoom.updateUserStatus _ _ _ _) as [[updatedUser|] room'];
    [|done].
  by eapply steps_trans.
Qed.

Lemma on_chat_message_steps now socketId p s :
  cache_steps (Server.rooms s) (Server.rooms (on_chat_message now socketId p s).1).
Proof.
  unfold on_chat_message.
  pose proof (rooms_get_steps now
    (match ChatPayload.roomId p with JString r => Some r | _ => None end) s)
    as Hsteps.
  destruct (rooms_get _ _ _) as [[room s1] out1].
  destruct (user_of _ _) as [user|]; [|done].
  destruct (match ChatPayload.roomId p with JString r => Some r | _ => None end)
    as [roomId|]; [|done].
  destruct (ChatPayload.message p) as [|message|]; try done.
  destruct (negb (truthy (trim message))); [done|].
  destruct (ChatPayload.name p) as [|name|]; try done.
  destruct (negb (truthy (trim name))); [done|].
  destruct (negb (String.eqb _ _)); [done|].
  destruct (_ >? _); [done|].
  destruct (isRateLimited _ _ _ _ _ _) as [[] rl]; [done|].
  eapply steps_trans; [exact Hsteps|].
  apply (steps_call roomId (CallAddMessage _ now)).
Qed.

Lemma on_screen_share_steps on now socketId currentRoomId userName s :
  cache_steps (Server.rooms s)
    (Server.rooms (on_screen_share on now socketId currentRoomId userName s).1).
Proof.
  unfold on_screen_share. destruct currentRoomId as [roomId|]; [|constructor].
  destruct (truthy roomId); [|constructor].
  pose proof (rooms_get_steps now (Some roomId) s) as Hsteps.
  destruct (rooms_get _ _ _) as [[found s1] out1] eqn:Hget.
  destruct found as [room|]; [|done]. simpl.
  eapply steps_trans; [exact Hsteps|].
  apply (put_steps roomId [CallUpdateUserStatus socketId _ now] room).
  by eapply rooms_get_held.
Qed.

Lemma on_disconnect_steps now socketId currentRoomId s :
  cache_steps (Server.rooms s)
    (Server.rooms (on_disconnect now socketId currentRoomId s).1).
Proof.
  unfold on_disconnect. destruct currentRoomId as [roomId|]; [|constructor].
  destruct (truthy roomId); [|constructor].
  match goal with |- context [rooms_get now (Some roomId) ?s0] =>
    pose proof (rooms_get_steps now (Some roomId) s0) as Hsteps;
    destruct (rooms_get now (Some roomId) s0) as [[found s1] out1] eqn:Hget end.
  simpl in Hsteps.
  destruct found as [room|]; [|done].
  pose proof (put_steps roomId [CallRemoveUser socketId now] room _
                (rooms_get_held _ _ _ _ _ _ Hget)) as Hput. simpl in Hput.
  destruct (OptimizedRoom.removeUser _ _ _) as [[] room']; [|done]. simpl.
  assert (cache_steps (Server.rooms s)
            (Server.rooms (room_modify roomId (fun _ => room') s1))) as Hall
    by by eapply steps_trans.
  destruct (OptimizedRoom.isEmpty room'); [|done].
  unfold scheduleCleanup. by destruct (Server.cleanupScheduled _).
Qed.

Lemma cleanup_steps now s :
  cache_steps (Server.rooms s) (Server.rooms (cleanup now s)).
Proof.
  unfold cleanup. simpl.
  generalize (filter
    (fun '(_, room) =>
       OptimizedRoom.isEmpty room = true ∧
       now - OptimizedRoom.lastActivity room > 30 * 60 * 1000)
    (LRU.entries rooms_config now (Server.rooms s))).
  intros doomed. generalize (Server.rooms s).
  induction doomed as [|[roomId room] doomed IH]; intros items; [constructor|].
  simpl. eapply steps_trans; [apply (steps_delete roomId) | apply IH].
Qed.

(** Every handler changes the room cache by lookups, creations of a room
    under an id that passed validation, deletions and method calls. *)
Lemma handle_cache_steps now i s :
  cache_steps (Server.rooms s) (Server.rooms (handle now i s).1).
Proof.
  destruct i as [socketId|socketId ev|]; simpl.
  - destruct (Server.sockets s !! socketId); constructor.
  - destruct (Server.sockets s !! socketId) as [sk|]; [|constructor].
    destruct ev.
    + constructor.
    + apply on_join_room_steps.
    + apply on_offer_steps.
    + apply relay_steps.
    + apply relay_steps.
    + apply on_media_status_change_steps.
    + apply on_chat_message_steps.
    + apply on_screen_share_steps.
    + apply on_screen_share_steps.
    + apply on_disconnect_steps.
  - destruct (Server.cleanupScheduled s); [apply cleanup_steps | constructor].
Qed.

Lemma run_cache_steps trace s :
  cache_steps (Server.rooms s) (Server.rooms (run trace s).1).
Proof.
  revert s. induction trace as [|[now i] trace IH]; intros s; [constructor|].
  simpl. pose proof (handle_cache_steps now i s) as H1.
  destruct (handle now i s) as [s1 out1]. specialize (IH s1).
  destruct (run trace s1). by eapply steps_trans.
Qed.

(** ** Invariants of the two caches *)

Lemma after_call_id c r : OptimizedRoom.id (after_call c r) = OptimizedRoom.id r.
Proof.
  destruct c; simpl.
  - unfold OptimizedRoom.addUser. by destruct (_ >=? _).
  - unfold OptimizedRoom.removeUser. by destruct (JsMap.delete _ _) as [[] us].
  - unfold OptimizedRoom.updateUserStatus. by destruct (JsMap.get _ _).
  - unfold OptimizedRoom.getUsersArray.
    destruct (OptimizedRoom._usersList r); [destruct (_ >? _)|]; done.
  - done.
Qed.

Lemma cache_steps_wf items items' :
  cache_steps items items' →
  cache_wf rooms_config items → cache_wf rooms_config items'.
Proof.
  induction 1; intros Hwf; auto.
  - by apply LRU_get_wf.
  - by apply LRU_set_wf.
  - by apply LRU_delete_wf.
  - by apply LRU_modify_wf.
Qed.

Lemma cache_steps_ids items items' :
  cache_steps items items' → ids_ok items → ids_ok items'.
Proof.
  unfold ids_ok. induction 1 as [| |now k items|now k items Hfind Hok|k items|k c items];
    intros Hids; auto.
  - unfold LRU.get. destruct (LRU.find k items) as [e|] eqn:He; simpl; [|done].
    pose proof He as [Hin Hk]%LRU_find_Some.
    pose proof (proj1 (Forall_forall _ _) Hids e Hin) as [Hid Hkey].
    assert (Forall (fun e => OptimizedRoom.id (LRU.value e) = LRU.key e ∧
                             room_id_ok (LRU.key e)) (LRU.remove k items)) as Hrem.
    { apply Forall_forall. intros e' [_ He']%list_elem_of_filter.
      by apply (proj1 (Forall_forall _ _) Hids). }
    destruct (LRU.isStale _ _ _); simpl; [done|].
    constructor; [simpl; by rewrite <- Hk | done].
  - unfold LRU.set. rewrite Hfind.
    destruct (_ >=? _); simpl.
    + unfold LRU.evict. destruct (last items); simpl;
        (constructor; [done|]); [by apply Forall_take | done].
    + by constructor.
  - unfold LRU.delete. destruct (LRU.find k items); simpl; [|done].
    apply Forall_forall. intros e' [_ He']%list_elem_of_filter.
    by apply (proj1 (Forall_forall _ _) Hids).
  - unfold LRU.modify. apply Forall_fmap. eapply Forall_impl; [exact Hids|].
    intros e [Hid Hkey]. simpl.
    destruct (String.eqb k (LRU.key e)); simpl; [|done].
    by rewrite after_call_id.
Qed.

(** ** The handlers change the rate-limit cache by steps *)

Lemma limiter_steps_trans rl1 rl2 rl3 :
  limiter_steps rl1 rl2 → limiter_steps rl2 rl3 → limiter_steps rl1 rl3.
Proof. induction 1; [done|]. intros. econstructor. eauto. Qed.

Lemma limiter_one socketId action limit windowMs now rl :
  limiter_steps rl (isRateLimited socketId action limit windowMs now rl).2.
Proof. econstructor. constructor. Qed.

Lemma getOrCreateRoom_rateLimits roomId now s :
  Server.rateLimits (getOrCreateRoom roomId now s).1.2 = Server.rateLimits s.
Proof.
  destruct (getOrCreateRoom roomId now s) as [[room s1] out] eqn:Hroom.
  by apply getOrCreateRoom_room_of in Hroom as (_ & _ & ?).
Qed.

Lemma on_join_room_limiter now socketId p s :
  limiter_steps (Server.rateLimits s)
    (Server.rateLimits (on_join_room now socketId p s).1).
Proof.
  unfold on_join_room.
  destruct (validate_join _ _) as [[[roomId name]|]|]; [|constructor..].
  pose proof (limiter_one socketId "join-room" 5 60000 now (Server.rateLimits s))
    as Hstep.
  destruct (isRateLimited _ _ _ _ _ _) as [[] rl]; [done|].
  pose proof (getOrCreateRoom_rateLimits (trim roomId) now
                (Server.with_rateLimits rl s)) as Hrl.
  destruct (getOrCreateRoom _ _ _) as [[room s2] out2].
  destruct (OptimizedRoom.getUsersArray now room) as [usersArray room1].
  destruct (OptimizedRoom.addUser _ _ _ _) as [added room2].
  simpl in Hrl.
  destruct added; [destruct (OptimizedRoom.getUsersArray now room2)|]; simpl;
    by rewrite Hrl.
Qed.

Lemma on_offer_limiter now socketId currentRoomId p s :
  Server.rateLimits (on_offer now socketId currentRoomId p s).1
  = Server.rateLimits s.
Proof.
  unfold on_offer. pose proof (rooms_get_frame now currentRoomId s) as [_ Hrl].
  destruct (rooms_get _ _ _) as [[room s1] out1].
  destruct (user_of _ _), (OfferPayload.to p) as [to|]; try done.
  by destruct (truthy to).
Qed.

Lemma relay_limiter limit ev now socketId currentRoomId p s :
  limiter_steps (Server.rateLimits s)
    (Server.rateLimits (relay limit ev now socketId currentRoomId p s).1).
Proof.
  unfold relay. destruct p as [p|]; [|constructor].
  destruct (RelayPayload.to p) as [to|]; [|constructor].
  destruct (_ || _); [constructor|].
  pose proof (limiter_one socketId "signaling" limit 60000 now
                (Server.rateLimits s)) as Hstep.
  destruct (isRateLimited _ _ _ _ _ _) as [[] rl]; [done|].
  pose proof (rooms_get_frame now currentRoomId (Server.with_rateLimits rl s))
    as [_ Hrl].
  destruct (rooms_get _ _ _) as [[room s2] out2].
  destruct (user_of _ _); simpl in *; by rewrite Hrl.
Qed.

Lemma on_media_status_change_limiter now socketId currentRoomId status s :
  Server.rateLimits (on_media_status_change now socketId currentRoomId status s).1
  = Server.rateLimits s.
Proof.
  unfold on_media_status_change.
  pose proof (rooms_get_frame now currentRoomId s) as [_ Hrl].
  destruct (rooms_get _ _ _) as [[found s1] out1].
  destruct found as [room|], currentRoomId as [roomId|]; try done.
  by destruct (OptimizedRoom.updateUserStatus _ _ _ _) as [[updatedUser|] room'].
Qed.

Lemma on_chat_message_limiter now socketId p s :
  limiter_steps (Server.rateLimits s)
    (Server.rateLimits (on_chat_message now socketId p s).1).
Proof.
  unfold on_chat_message.
  pose proof (rooms_get_frame now
    (match ChatPayload.roomId p with JString r => Some r | _ => None end) s)
    as [_ Hrl].
  destruct (rooms_get _ _ _) as [[room s1] out1]. simpl in Hrl.
  assert (limiter_steps (Server.rateLimits s) (Server.rateLimits s1)) as Hsame
    by (rewrite Hrl; constructor).
  destruct (user_of _ _) as [user|]; [|done].
  destruct (match ChatPayload.roomId p with JString r => Some r | _ => None end)
    as [roomId|]; [|done].
  destruct (ChatPayload.message p) as [|message|]; try done.
  destruct (negb (truthy (trim message))); [done|].
  destruct (ChatPayload.name p) as [|name|]; try done.
  destruct (negb (truthy (trim name))); [done|].
  destruct (negb (String.eqb _ _)); [done|].
  destruct (_ >? _); [done|].
  pose proof (limiter_one socketId "chat" 30 60000 now (Server.rateLimits s1))
    as Hstep.
  destruct (isRateLimited _ _ _ _ _ _) as [[] rl]; simpl in *; by rewrite <- Hrl.
Qed.

Lemma on_screen_share_limiter on now socketId currentRoomId userName s :
  Server.rateLimits (on_screen_share on now socketId currentRoomId userName s).1
  = Server.rateLimits s.
Proof.
  unfold on_screen_share. destruct currentRoomId as [roomId|]; [|done].
  destruct (truthy roomId); [|done].
  pose proof (rooms_get_frame now (Some roomId) s) as [_ Hrl].
  destruct (rooms_get _ _ _) as [[found s1] out1].
  by destruct found.
Qed.

Lemma on_disconnect_limiter now socketId currentRoomId s :
  Server.rateLimits (on_disconnect now socketId currentRoomId s).1
  = Server.rateLimits s.
Proof.
  unfold on_disconnect. destruct currentRoomId as [roomId|]; [|done].
  destruct (truthy roomId); [|done].
  match goal with |- context [rooms_get now (Some roomId) ?s0] =>
    pose proof (rooms_get_frame now (Some roomId) s0) as [_ Hrl] end.
  destruct (rooms_get _ _ _) as [[found s1] out1].
  destruct found as [room|]; [|done].
  destruct (OptimizedRoom.removeUser _ _ _) as [[] room']; [|done].
  simpl. destruct (OptimizedRoom.isEmpty room'); [|done].
  unfold scheduleCleanup. simpl. by destruct (Server.cleanupScheduled s1).
Qed.

Lemma handle_limiter_steps now i s :
  limiter_steps (Server.rateLimits s) (Server.rateLimits (handle now i s).1).
Proof.
  destruct i as [socketId|socketId ev|]; simpl.
  - destruct (Server.sockets s !! socketId); constructor.
  - destruct (Server.sockets s !! socketId) as [sk|]; [|constructor].
    destruct ev.
    + constructor.
    + apply on_join_room_limiter.
    + rewrite on_offer_limiter. constructor.
    + apply relay_limiter.
    + apply relay_limiter.
    + rewrite on_media_status_change_limiter. constructor.
    + apply on_chat_message_limiter.
    + rewrite on_screen_share_limiter. constructor.
    + rewrite on_screen_share_limiter. constructor.
    + rewrite on_disconnect_limiter. constructor.
  - destruct (Server.cleanupScheduled s); constructor.
Qed.

Lemma run_limiter_steps trace s :
  limiter_steps (Server.rateLimits s) (Server.rateLimits (run trace s).1).
Proof.
  revert s. induction trace as [|[now i] trace IH]; intros s; [constructor|].
  simpl. pose proof (handle_limiter_steps now i s) as H1.
  destruct (handle now i s) as [s1 out1]. specialize (IH s1).
  destruct (run trace s1). by eapply limiter_steps_trans.
Qed.

Lemma isRateLimited_wf socketId action limit windowMs now rl :
  cache_wf rateLimits_config rl →
  cache_wf rateLimits_config
    (isRateLimited socketId action limit windowMs now rl).2.
Proof.
  intros Hwf. unfold isRateLimited.
  pose proof (LRU_get_wf rateLimits_config now
                (socketId +:+ ":" +:+ action) rl Hwf) as Hget.
  destruct (LRU.get _ _ _ _) as [[found rl1] disposed]. simpl in Hget.
  assert (∀ v, cache_wf rateLimits_config
                 (LRU.set rateLimits_config now (socketId +:+ ":" +:+ action)
                    v rl1).1) as Hset
    by (intros v; by apply LRU_set_wf).
  destruct found as [rateLimit|]; [|apply Hset].
  destruct (_ >? _); [apply Hset|].
  destruct (_ >=? _); [done | apply Hset].
Qed.

Lemma limiter_steps_wf rl rl' :
  limiter_steps rl rl' →
  cache_wf rateLimits_config rl → cache_wf rateLimits_config rl'.
Proof. induction 1; [done|]. intros. by apply IHlimiter_steps, isRateLimited_wf. Qed.

Lemma reachable_ids_ok trace t0 : ids_ok (Server.rooms (run trace (Server.init t0)).1).
Proof.
  apply (cache_steps_ids _ _ (run_cache_steps trace (Server.init t0))).
  constructor.
Qed.


(** In every state the event loop can reach, neither cache holds a key
    twice, the room cache holds at most 200 rooms and the rate-limit cache
    at most 10000 entries. *)
Theorem caches_bounded trace t0 :
  let s := (run trace (Server.init t0)).1 in
  NoDup (LRU.key <$> Server.rooms s) ∧
  Z.of_nat (length (Server.rooms s)) ≤ MAX_ROOMS ∧
  NoDup (LRU.key <$> Server.rateLimits s) ∧
  Z.of_nat (length (Server.rateLimits s)) ≤ 10000.
Proof.
  intros s.
  pose proof (cache_steps_wf _ _ (run_cache_steps trace (Server.init t0)))
    as [Hnd Hlen]; [split; [constructor | done]|].
  pose proof (limiter_steps_wf _ _ (run_limiter_steps trace (Server.init t0)))
    as [Hnd' Hlen']; [split; [constructor | done]|].
  done.
Qed.

(** In every state the event loop can reach, each room of the cache is
    held under its own [id], and that id is trimmed, not empty and of at
    most 50 characters. *)
Theorem room_ids_validated trace t0 e :
  e ∈ Server.rooms (run trace (Server.init t0)).1 →
  OptimizedRoom.id (LRU.value e) = LRU.key e ∧
  trim (LRU.key e) = LRU.key e ∧
  LRU.key e ≠ "" ∧
  str_length (LRU.key e) ≤ 50.
Proof.
  intros He.
  pose proof (cache_steps_ids _ _ (run_cache_steps trace (Server.init t0)))
    as Hids.
  specialize (Hids ltac:(constructor)).
  by apply (proj1 (Forall_forall _ _) Hids) in He as [? (? & ? & ?)].
Qed.

Lemma room_ids_validated_witness :
  let e := default (LRU.mkEntry "a" (OptimizedRoom.new "a" 0) 0)
             (head (Server.rooms padded)) in
  OptimizedRoom.id (LRU.value e) = LRU.key e ∧
  trim (LRU.key e) = LRU.key e ∧
  LRU.key e ≠ "" ∧
  str_length (LRU.key e) ≤ 50.
Proof.
  apply (room_ids_validated
           [(0, Connection "x");
            (1, FromClient "x" (JoinRoom (join_payload " abc" "Alice" false)))] 0).
  vm_compute. left.
Defined.

(** ** Looking a room up and creating it *)




(** ** Eviction at capacity *)




(** ** The sweep of the cleanup *)










(** ** The budget of a window, for every action *)





(** * More of the room aggregate *)

(** ** Removing a participant *)

Lemma JsMap_delete_absent {V} k (m : list (string * V)) :
  JsMap.has k m = false → JsMap.delete k m = (false, m).
Proof.
  unfold JsMap.has. induction m as [|[k' v'] m IH]; simpl; [done|].
  destruct (String.eqb_spec k k'); [done|].
  intros Hnone. by rewrite IH.
Qed.

Lemma JsMap_delete_keys {V} k (m : list (string * V)) :
  NoDup (JsMap.keys m) →
  JsMap.keys (JsMap.delete k m).2 = filter (fun k' => k' ≠ k) (JsMap.keys m).
Proof.
  unfold JsMap.keys. induction m as [|[k' v'] m IH]; csimpl; [done|].
  intros [Hk' Hnd]%NoDup_cons.
  destruct (String.eqb_spec k k') as [->|Hne].
  - rewrite filter_cons_False by (intros H; by apply H). simpl.
    symmetry. apply filter_all.
    apply Forall_forall. intros x Hx ->. done.
  - rewrite filter_cons_True by congruence.
    specialize (IH Hnd). destruct (JsMap.delete k m) as [b m']. csimpl.
    simpl in IH. by rewrite IH.
Qed.

Lemma JsMap_delete_get {V} k k' (m : list (string * V)) :
  k ≠ k' → JsMap.get k' (JsMap.delete k m).2 = JsMap.get k' m.
Proof.
  intros Hne. induction m as [|[k0 v0] m IH]; simpl; [done|].
  destruct (String.eqb_spec k k0) as [->|Hk].
  - simpl. by destruct (String.eqb_spec k' k0); [congruence|].
  - destruct (JsMap.delete k m) as [b m']. simpl in *.
    by destruct (String.eqb k' k0).
Qed.

(** [removeUser] tells whether the participant was there; on a room with
    distinct keys the participant is gone afterwards, the others stay as
    they were and in their order, and a second removal tells [false] and
    changes nothing. *)
Theorem removeUser_idempotent socketId now now' room :
  users_wf room →
  let res := OptimizedRoom.removeUser socketId now room in
  res.1 = JsMap.has socketId (OptimizedRoom.users room) ∧
  JsMap.keys (OptimizedRoom.users res.2)
  = filter (fun k => k ≠ socketId) (JsMap.keys (OptimizedRoom.users room)) ∧
  (∀ k, k ≠ socketId →
        JsMap.get k (OptimizedRoom.users res.2)
        = JsMap.get k (OptimizedRoom.users room)) ∧
  (res.1 = false → res.2 = room) ∧
  OptimizedRoom.removeUser socketId now' res.2 = (false, res.2).
Proof.
  intros [Hnd Hid] res. subst res. unfold OptimizedRoom.removeUser.
  pose proof (JsMap_delete_has socketId (OptimizedRoom.users room)) as Hhas.
  pose proof (JsMap_delete_keys socketId (OptimizedRoom.users room) Hnd) as Hkeys.
  pose proof (fun k => JsMap_delete_get socketId k (OptimizedRoom.users room))
    as Hget.
  destruct (JsMap.has socketId (OptimizedRoom.users room)) eqn:Hin.
  - destruct (JsMap.delete socketId (OptimizedRoom.users room)) as [removed us].
    simpl in *. subst removed. simpl. split_and!; try done.
    { intros k Hk. by apply Hget. }
    rewrite JsMap_delete_absent; [done|].
    apply not_true_iff_false. rewrite JsMap_has_keys, Hkeys.
    intros [Hne _]%list_elem_of_filter. done.
  - rewrite (JsMap_delete_absent _ _ Hin) in *. simpl in *.
    rewrite ?(JsMap_delete_absent _ _ Hin). split_and!; done.
Qed.

Lemma removeUser_idempotent_witness :
  let room := default (OptimizedRoom.new "a" 0) (room_of "a" alice_in_a) in
  let res := OptimizedRoom.removeUser "x" 5 room in
  res.1 = true ∧ JsMap.keys (OptimizedRoom.users res.2) = [] ∧
  OptimizedRoom.removeUser "x" 6 res.2 = (false, res.2).
Proof.
  intros room res.
  destruct (removeUser_idempotent "x" 5 6 room) as (H1 & H2 & _ & _ & H5).
  - vm_compute. split; repeat constructor. intros H. inversion H.
  - subst res. split_and!; [by rewrite H1 | by rewrite H2 | exact H5].
Defined.

(** ** Status updates *)

(** [updateUserStatus] of an unknown participant changes nothing.  Of a
    known one it answers the merged record, which keeps [id] and
    [joinedAt] and every field that the status does not supply; the
    participants and their order stay the same, and so do the records of
    the others and the chat history. *)
Theorem updateUserStatus_merges socketId status now room :
  let res := OptimizedRoom.updateUserStatus socketId status now room in
  match JsMap.get socketId (OptimizedRoom.users room) with
  | None => res = (None, room)
  | Some user =>
      let user' := OptimizedRoom.merge status user in
      res.1 = Some user' ∧
      JsMap.get socketId (OptimizedRoom.users res.2) = Some user' ∧
      User.id user' = User.id user ∧
      User.joinedAt user' = User.joinedAt user ∧
      (Status.name status = None → User.name user' = User.name user) ∧
      (Status.cameraOn status = None → User.cameraOn user' = User.cameraOn user) ∧
      (Status.audioOn status = None → User.audioOn user' = User.audioOn user) ∧
      (Status.screenShareOn status = None →
       User.screenShareOn user' = User.screenShareOn user) ∧
      JsMap.keys (OptimizedRoom.users res.2) = JsMap.keys (OptimizedRoom.users room) ∧
      (∀ k, k ≠ socketId →
            JsMap.get k (OptimizedRoom.users res.2)
            = JsMap.get k (OptimizedRoom.users room)) ∧
      OptimizedRoom.chatHistory res.2 = OptimizedRoom.chatHistory room ∧
      OptimizedRoom._usersList res.2 = None
  end.
Proof.
  intros res. subst res. unfold OptimizedRoom.updateUserStatus.
  destruct (JsMap.get socketId (OptimizedRoom.users room)) as [user|] eqn:Hget;
    [|done].
  simpl. split_and!; try done.
  - apply JsMap_get_set_eq.
  - by intros ->.
  - by intros ->.
  - by intros ->.
  - by intros ->.
  - rewrite JsMap_keys_set. unfold JsMap.has. by rewrite Hget.
  - intros k Hk. by apply JsMap_get_set_ne.
Qed.

(** ** The flags of the roster *)

Lemma getUsersStatus_fold (l : list (string * User.t)) acc :
  NoDup (JsMap.keys acc ++ JsMap.keys l) →
  foldl (fun status '(socketId, user) =>
           JsMap.set socketId (OptimizedRoom.flags_of user) status) acc l
  = acc ++ (prod_map id OptimizedRoom.flags_of <$> l).
Proof.
  revert acc. induction l as [|[k u] l IH]; intros acc Hnd; simpl.
  - by rewrite app_nil_r.
  - assert (JsMap.set k (OptimizedRoom.flags_of u) acc
            = acc ++ [(k, OptimizedRoom.flags_of u)]) as Hset.
    { assert (k ∉ JsMap.keys acc) as Hk.
      { apply NoDup_app in Hnd as (_ & Hdisj & _). intros Hin.
        apply (Hdisj k Hin). left. }
      clear -Hk. unfold JsMap.keys in Hk.
      induction acc as [|[k' v'] acc IH]; csimpl in *; [done|].
      apply not_elem_of_cons in Hk as [Hne Hk].
      destruct (String.eqb_spec k k'); [done|]. by rewrite IH. }
    rewrite Hset, IH.
    + by rewrite <- app_assoc.
    + unfold JsMap.keys in *. rewrite fmap_app. csimpl in *.
      by rewrite <- app_assoc.
Qed.

Lemma getUsersStatus_list room :
  users_wf room →
  OptimizedRoom.getUsersStatus room
  = prod_map id OptimizedRoom.flags_of <$> OptimizedRoom.users room.
Proof.
  intros [Hnd _]. unfold OptimizedRoom.getUsersStatus.
  by rewrite getUsersStatus_fold.
Qed.

Lemma JsMap_get_fmap {V W} (f : V → W) k (m : list (string * V)) :
  JsMap.get k (prod_map id f <$> m) = f <$> JsMap.get k m.
Proof.
  induction m as [|[k' v] m IH]; csimpl; [done|].
  by destruct (String.eqb k k').
Qed.

(** In a room with distinct keys, the [roomUserStatus] that
    [getUsersStatus] builds has one entry for each participant and no
    other: under the id of a participant it holds the three flags of that
    participant, and nothing under any other id. *)
Theorem getUsersStatus_roster room :
  users_wf room →
  NoDup (JsMap.keys (OptimizedRoom.getUsersStatus room)) ∧
  ∀ socketId,
    JsMap.get socketId (OptimizedRoom.getUsersStatus room)
    = OptimizedRoom.flags_of <$> JsMap.get socketId (OptimizedRoom.users room).
Proof.
  intros Hwf. rewrite getUsersStatus_list by done. split.
  - unfold JsMap.keys. rewrite <- list_fmap_compose.
    destruct Hwf as [Hnd _]. unfold JsMap.keys in Hnd.
    erewrite list_fmap_ext; [exact Hnd|]. by intros ? [].
  - intros socketId. apply JsMap_get_fmap.
Qed.

Lemma getUsersStatus_roster_witness :
  let room := default (OptimizedRoom.new "a" 0) (room_of "a" alice_in_a) in
  JsMap.get "x" (OptimizedRoom.getUsersStatus room)
  = Some {| Flags.cameraOn := false; Flags.audioOn := false;
            Flags.screenShareOn := false |} ∧
  JsMap.get "y" (OptimizedRoom.getUsersStatus room) = None.
Proof.
  intros room. destruct (getUsersStatus_roster room) as [_ Hget].
  - vm_compute. split; repeat constructor. intros H. inversion H.
  - by rewrite !Hget.
Defined.

(** ** The numbering of the chat history *)

Lemma seqZ_snoc m n : 0 ≤ n → seqZ m (n + 1) = seqZ m n ++ [m + n].
Proof.
  intros Hn. rewrite seqZ_app by lia. by f_equal.
Qed.

#[global] Instance history_numbered_inv : RoomInvariant history_numbered.
Proof.
  split; unfold history_numbered.
  - intros. unfold MAX_CHAT_HISTORY. simpl. split_and!; [lia..|done].
  - intros socketId userData now r Hr. unfold OptimizedRoom.addUser.
    by destruct (_ >=? _).
  - intros socketId now r Hr. unfold OptimizedRoom.removeUser.
    by destruct (JsMap.delete _ _) as [[] us].
  - intros socketId status now r Hr. unfold OptimizedRoom.updateUserStatus.
    by destruct (JsMap.get _ _).
  - intros now r Hr. unfold OptimizedRoom.getUsersArray.
    destruct (OptimizedRoom._usersList r); [destruct (_ >? _)|]; done.
  - intros chatMessage now r (Hcap & Hcount & Hids).
    unfold OptimizedRoom.addMessage, js_incr, MAX_CHAT_HISTORY in *. cbn zeta.
    cbn [OptimizedRoom.chatHistory OptimizedRoom.messageCount].
    set (len := Z.of_nat (length (OptimizedRoom.chatHistory r))) in *.
    destruct (Z.ltb_spec (OptimizedRoom.messageCount r) (2 ^ 53)) as [Hlt|Hge].
    + specialize (Hids Hlt).
      destruct (Z.gtb_spec (Z.of_nat (length (OptimizedRoom.chatHistory r ++
                  [StoredMessage.with_id chatMessage
                     (OptimizedRoom.messageCount r + 1)]))) 100) as [Hover|Hfits];
        rewrite length_app in *; simpl in *.
      * rewrite length_tl, length_app. simpl.
        replace (Z.of_nat (Init.Nat.pred (length (OptimizedRoom.chatHistory r) + 1)))
          with len by lia.
        split_and!; [lia..|]. intros _.
        rewrite fmap_tail, fmap_app, Hids. simpl.
        assert (0 < len) as Hpos by lia.
        rewrite (seqZ_cons _ len) by done. simpl.
        replace (Z.of_nat (length (OptimizedRoom.chatHistory r) + 1 - 1))
          with (Z.pred len + 1) by lia.
        rewrite seqZ_snoc by lia. f_equal; f_equal; lia.
      * replace (Z.of_nat (length (OptimizedRoom.chatHistory r) + 1))
          with (len + 1) by lia.
        split_and!; [lia..|]. intros _.
        rewrite fmap_app, Hids. simpl.
        rewrite seqZ_snoc by lia. f_equal; f_equal; lia.
    + assert (2 ^ 53 > 200) by (vm_compute; done).
      case_gtb; rewrite ?length_tl, length_app in *; simpl in *;
        (split_and!; [lia..|intros; lia]).
Qed.

(** In every state the event loop can reach, the history of every room is
    numbered: at most 100 messages, whose sequence numbers are consecutive
    and end at the number of messages ever sent to the room, so that the
    messages dropped at the cap are the oldest. *)
Theorem message_ids_consecutive trace t0 :
  rooms_Forall history_numbered (run trace (Server.init t0)).1.
Proof. apply (reachable_Forall history_numbered). Qed.

(** * More of the handlers *)

(** ** The history and the announcement of a join *)









(** ** A chat message that goes through *)

Lemma chats_disposal out : Forall is_disposal out → chats out = [].
Proof.
  unfold chats. induction 1 as [|e out He _ IH]; [done|]. csimpl.
  unfold is_disposal in He. destruct (event e); try done.
Qed.

Lemma addMessage_last chatMessage now room :
  last (OptimizedRoom.chatHistory (OptimizedRoom.addMessage chatMessage now room))
  = Some (StoredMessage.with_id chatMessage
            (OptimizedRoom.messageCount
               (OptimizedRoom.addMessage chatMessage now room))).
Proof.
  unfold OptimizedRoom.addMessage.
  cbn [OptimizedRoom.chatHistory OptimizedRoom.messageCount].
  case_gtb; [|by rewrite last_snoc].
  destruct (OptimizedRoom.chatHistory room) as [|m history]; simpl in *.
  - unfold MAX_CHAT_HISTORY in *. lia.
  - by rewrite last_snoc.
Qed.

(** When the handler of [chat-message] broadcasts a message, the sender is
    a participant of the room named by the payload and claimed the name
    that the room stores for it; the body is the trimmed message, which is
    not empty, and the untrimmed message has at most 500 characters.  The
    message is broadcast once, to the sockets subscribed to the channel of
    that room id, and no error is sent; the room stores it as the newest
    message of its history, numbered by the message counter. *)
Theorem chat_stored_and_broadcast now socketId p s audience chatMessage :
  let result := on_chat_message now socketId p s in
  (audience, chatMessage) ∈ chats result.2 →
  ∃ roomId message claimed room user room',
    ChatPayload.roomId p = JString roomId ∧
    ChatPayload.message p = JString message ∧
    ChatPayload.name p = JString claimed ∧
    room_of roomId s = Some room ∧
    JsMap.get socketId (OptimizedRoom.users room) = Some user ∧
    User.name user = trim claimed ∧
    trim message ≠ "" ∧ str_length message ≤ 500 ∧
    chatMessage = {| ChatMessage.name := User.name user;
                     ChatMessage.message := trim message;
                     ChatMessage.timestamp := now |} ∧
    chats result.2 = [(subscribers roomId (Server.sockets s), chatMessage)] ∧
    Forall (fun e => ¬ is_error e) result.2 ∧
    room_of roomId result.1 = Some room' ∧
    room' = OptimizedRoom.addMessage chatMessage now room ∧
    last (OptimizedRoom.chatHistory room')
    = Some (StoredMessage.with_id chatMessage (OptimizedRoom.messageCount room')).
Proof.
  intros result Hin. subst result. unfold on_chat_message in *.
  destruct (ChatPayload.roomId p) as [|roomId|] eqn:Hroom;
    [simpl in Hin; exfalso; by apply elem_of_nil in Hin
    |cbv beta iota zeta in Hin |- *
    |simpl in Hin; exfalso; by apply elem_of_nil in Hin].
  pose proof (rooms_get_disposal now (Some roomId) s) as Hd.
  pose proof (rooms_get_room_of now roomId s) as Hfound.
  destruct (rooms_get now (Some roomId) s) as [[found s1] out1]. simpl in Hd.
  pose proof (chats_disposal _ Hd) as Hnone.
  assert (∀ ev, chats (out1 ++ [socket_emit socketId (EvError ev)]) = []) as Herr.
  { intros ev. unfold chats in *. rewrite omap_app, Hnone. done. }
  destruct found as [room|]; simpl in *;
    [|rewrite Hnone in Hin; exfalso; by apply elem_of_nil in Hin].
  destruct (Hfound room s1 out1 eq_refl) as (Hroom0 & Hroom1 & -> & Hsk & Hrl).
  destruct (JsMap.get socketId (OptimizedRoom.users room)) as [user|] eqn:Huser;
    simpl in *; [|exfalso; by apply elem_of_nil in Hin].
  destruct (ChatPayload.message p) as [|message|] eqn:Hmessage; simpl in *;
    try (exfalso; by apply elem_of_nil in Hin).
  destruct (truthy (trim message)) eqn:Hbody; simpl in *;
    [|exfalso; by apply elem_of_nil in Hin].
  destruct (ChatPayload.name p) as [|claimed|] eqn:Hname; simpl in *;
    try (exfalso; by apply elem_of_nil in Hin).
  destruct (truthy (trim claimed)) eqn:Hclaimed; simpl in *;
    [|exfalso; by apply elem_of_nil in Hin].
  destruct (String.eqb_spec (User.name user) (trim claimed)) as [Hsame|];
    simpl in *; [|exfalso; by apply elem_of_nil in Hin].
  destruct (Z.gtb_spec (str_length message) 500); simpl in *;
    [exfalso; by apply elem_of_nil in Hin|].
  destruct (isRateLimited socketId "chat" 30 60000 now (Server.rateLimits s1))
    as [[] rl]; simpl in *; [exfalso; by apply elem_of_nil in Hin|].
  apply list_elem_of_singleton in Hin. injection Hin as -> ->.
  eexists roomId, message, claimed, room, user, _. split_and!; try done.
  - by apply truthy_ne.
  - by rewrite Hsk.
  - repeat constructor. simpl. tauto.
  - unfold room_of in *. simpl. rewrite LRU_find_modify.
    destruct (LRU.find roomId (Server.rooms s1)) as [e|] eqn:He; [|done].
    apply LRU_find_Some in He as Hk. destruct Hk as [_ Hk].
    simpl in *. rewrite Hk, String.eqb_refl. simpl. f_equal.
    injection Hroom1 as ->. by rewrite Hsame.
  - apply addMessage_last.
Qed.

Lemma chat_stored_and_broadcast_witness :
  let result :=
    on_chat_message 5 "x"
      {| ChatPayload.roomId := JString "a"; ChatPayload.message := JString " hi ";
         ChatPayload.name := JString "Alice " |} alice_in_a in
  chats result.2
  = [({["x"]}, {| ChatMessage.name := "Alice"; ChatMessage.message := "hi";
                  ChatMessage.timestamp := 5 |})] ∧
  OptimizedRoom.chatHistory <$> room_of "a" result.1
  = Some [{| StoredMessage.id := 1; StoredMessage.name := "Alice";
             StoredMessage.message := "hi"; StoredMessage.timestamp := 5 |}].
Proof.
  intros result.
  destruct (chat_stored_and_broadcast 5 "x"
              {| ChatPayload.roomId := JString "a";
                 ChatPayload.message := JString " hi ";
                 ChatPayload.name := JString "Alice " |} alice_in_a
              {["x"]} {| ChatMessage.name := "Alice"; ChatMessage.message := "hi";
                         ChatMessage.timestamp := 5 |})
    as (roomId & message & claimed & room & user & room' & Hroom & _ & _ & Hfound
        & _ & _ & _ & _ & _ & Hchats & _ & Hstored & -> & _).
  - vm_compute. left.
  - injection Hroom as <-. subst result. split.
    + rewrite Hchats. vm_compute. reflexivity.
    + rewrite Hstored. vm_compute in Hfound. injection Hfound as <-.
      vm_compute. reflexivity.
Defined.

(** ** Leaving by disconnect *)

Lemma subscribers_delete channel socketId (sockets : gmap string Socket.t) :
  subscribers channel (base.delete socketId sockets)
  = subscribers channel sockets ∖ {[socketId]}.
Proof.
  apply set_eq. intros k.
  rewrite elem_of_difference, !elem_of_subscribers, not_elem_of_singleton.
  split.
  - intros (sk & [Hne Hk]%lookup_delete_Some & Hin). eauto.
  - intros [(sk & Hk & Hin) Hne]. exists sk. split; [|done].
    apply lookup_delete_Some. eauto.
Qed.

Lemma ids_ok_truthy items roomId e :
  ids_ok items → LRU.find roomId items = Some e → truthy roomId = true.
Proof.
  intros Hids [He Hk]%LRU_find_Some.
  apply (proj1 (Forall_forall _ _) Hids) in He as [_ (_ & Hne & _)].
  apply truthy_ne. by rewrite <- Hk.
Qed.

Lemma removeUser_keys socketId now room :
  users_wf room →
  (OptimizedRoom.removeUser socketId now room).1
  = JsMap.has socketId (OptimizedRoom.users room) ∧
  JsMap.keys (OptimizedRoom.users (OptimizedRoom.removeUser socketId now room).2)
  = filter (fun k => k ≠ socketId) (JsMap.keys (OptimizedRoom.users room)).
Proof.
  intros [Hnd _]. unfold OptimizedRoom.removeUser.
  pose proof (JsMap_delete_has socketId (OptimizedRoom.users room)) as Hhas.
  pose proof (JsMap_delete_keys socketId (OptimizedRoom.users room) Hnd) as Hkeys.
  destruct (JsMap.has socketId (OptimizedRoom.users room)) eqn:Hin.
  - destruct (JsMap.delete socketId (OptimizedRoom.users room)) as [removed us].
    simpl in *. by subst removed.
  - rewrite (JsMap_delete_absent _ _ Hin) in *. done.
Qed.

(** Let a connected socket whose session is in a room disconnect, in a
    state the event loop can reach in which that room is alive.  The
    socket is gone afterwards and the participants of the room are those
    from before without it, in the same order.  If it was a participant,
    one [user-left] event with its id goes to the other sockets subscribed
    to the channel of the room, and a cleanup is pending when the room is
    left empty; if it was not, nothing is emitted. *)
Theorem disconnect_leaves_room trace t0 now socketId sk roomId room :
  let s := (run trace (Server.init t0)).1 in
  let result := handle now (FromClient socketId Disconnect) s in
  Server.sockets s !! socketId = Some sk →
  Socket.currentRoomId sk = Some roomId →
  (rooms_get now (Some roomId) s).1.1 = Some room →
  Server.sockets result.1 = base.delete socketId (Server.sockets s) ∧
  participants roomId s = JsMap.keys (OptimizedRoom.users room) ∧
  participants roomId result.1
  = filter (fun k => k ≠ socketId) (participants roomId s) ∧
  result.2
  = (if JsMap.has socketId (OptimizedRoom.users room)
     then [{| recipients := subscribers roomId (Server.sockets s) ∖ {[socketId]};
              event := EvUserLeft socketId |}]
     else []) ∧
  (socketId ∈ participants roomId s → participants roomId result.1 = [] →
   Server.cleanupScheduled result.1 = true).
Proof.
  intros s result Hsk Hcur Hlive. subst result. simpl. rewrite Hsk, Hcur.
  pose proof (reachable_Forall users_wf trace t0) as Hwf. fold s in Hwf.
  pose proof (reachable_ids_ok trace t0) as Hids. fold s in Hids.
  destruct (rooms_get now (Some roomId) s) as [[found s1] out1] eqn:Hget.
  simpl in Hlive. subst found.
  destruct (rooms_get_room_of _ _ _ _ _ _ Hget) as (Hroom & Hroom1 & -> & Hsk1 & _).
  destruct (rooms_get_Forall users_wf _ _ _ _ _ _ Hget Hwf) as [_ Hwfroom].
  specialize (Hwfroom room eq_refl).
  assert (truthy roomId = true) as Htruthy.
  { unfold room_of in Hroom.
    destruct (LRU.find roomId (Server.rooms s)) as [e|] eqn:He; [|done].
    by eapply ids_ok_truthy. }
  unfold on_disconnect. rewrite Htruthy.
  set (s0 := Server.with_connectionStats _ _).
  assert (rooms_get now (Some roomId) s0
          = (Some room,
             Server.with_connectionStats (Server.connectionStats s0)
               (Server.with_sockets (base.delete socketId (Server.sockets s)) s1),
             [])) as ->.
  { unfold rooms_get in *. subst s0. simpl.
    destruct (LRU.get rooms_config now roomId (Server.rooms s))
      as [[found rooms1] disposed] eqn:Hlru.
    injection Hget as -> <- _.
    by destruct (LRU_get_find _ _ _ _ _ _ _ Hlru) as (_ & _ & ->). }
  destruct (removeUser_keys socketId now room Hwfroom) as [Hremoved Hkeys].
  destruct (OptimizedRoom.removeUser socketId now room) as [wasRemoved room'].
  simpl in Hremoved, Hkeys. subst wasRemoved.
  assert (participants roomId s = JsMap.keys (OptimizedRoom.users room)) as Hbefore.
  { unfold participants. by rewrite Hroom. }
  destruct (JsMap.has socketId (OptimizedRoom.users room)) eqn:Hin.
  - set (s2 := room_modify roomId _ _).
    assert (room_of roomId s2 = Some room') as Hafter.
    { apply room_of_put. unfold room_of. simpl. fold (room_of roomId s1).
      by rewrite Hroom1. }
    assert (∀ s', Server.rooms s' = Server.rooms s2 →
                  participants roomId s' = JsMap.keys (OptimizedRoom.users room'))
      as Hpart.
    { intros s' Heq. unfold participants, room_of in *. by rewrite Heq, Hafter. }
    assert (Server.rooms (if OptimizedRoom.isEmpty room'
                          then scheduleCleanup s2 else s2) = Server.rooms s2) as Hsame.
    { unfold scheduleCleanup.
      by destruct (OptimizedRoom.isEmpty room'), (Server.cleanupScheduled s2). }
    cbn [fst snd]. split_and!.
    + unfold scheduleCleanup.
      by destruct (OptimizedRoom.isEmpty room'), (Server.cleanupScheduled s2).
    + done.
    + by rewrite (Hpart _ Hsame), Hkeys, Hbefore.
    + unfold socket_to. simpl. do 2 f_equal.
      rewrite subscribers_delete. apply set_eq. intros k.
      rewrite !elem_of_difference. tauto.
    + intros _. rewrite (Hpart _ Hsame). intros Hempty.
      unfold OptimizedRoom.isEmpty, JsMap.size, JsMap.keys in *.
      apply fmap_nil_inv in Hempty. rewrite Hempty. simpl.
      unfold scheduleCleanup. by destruct (Server.cleanupScheduled s2) eqn:Hc.
  - cbn [fst snd]. split_and!; try done.
    + unfold participants, room_of in *. simpl.
      rewrite Hroom1, Hroom.
      symmetry. apply filter_all. apply Forall_forall. intros k Hk ->.
      apply JsMap_has_keys in Hk. congruence.
    + rewrite Hbefore. intros Hk%JsMap_has_keys. congruence.
Qed.

Lemma disconnect_leaves_room_witness :
  let result := handle 9 (FromClient "x" Disconnect) alice_in_a in
  Server.sockets result.1 = ∅ ∧
  participants "a" result.1 = [] ∧
  result.2 = [{| recipients := ∅; event := EvUserLeft "x" |}] ∧
  Server.cleanupScheduled result.1 = true.
Proof.
  intros result.
  destruct (disconnect_leaves_room
              [(0, Connection "x");
               (1, FromClient "x" (JoinRoom (join_payload "a" "Alice" false)))]
              0 9 "x"
              {| Socket.rooms := {["a"; "x"]}; Socket.currentRoomId := Some "a";
                 Socket.userName := Some "Alice" |} "a"
              (default (OptimizedRoom.new "a" 0) (room_of "a" alice_in_a)))
    as (Hsockets & _ & Hpart & Hout & Hclean).
  - vm_compute. reflexivity.
  - reflexivity.
  - vm_compute. reflexivity.
  - fold alice_in_a in Hsockets, Hpart, Hout, Hclean. fold result in Hsockets, Hpart, Hout, Hclean.
    assert (participants "a" result.1 = []) as Hnone.
    { rewrite Hpart. vm_compute. reflexivity. }
    split_and!.
    + rewrite Hsockets. vm_compute. reflexivity.
    + exact Hnone.
    + rewrite Hout. vm_compute. reflexivity.
    + apply Hclean; [|exact Hnone]. vm_compute. left.
Defined.

(** ** Status updates of a session *)

(** Let a session whose room is alive send [media-status-change].  If the
    sender is no participant of the room, nothing is emitted and the room
    is as it was.  If it is, the room then stores the merged record, the
    other sockets subscribed to the channel of the room are sent the three
    flags of the merged record, and after that one
    [user-started-screen-share] or [user-stopped-screen-share] exactly when
    [screenShareOn] changed; a status that does not supply [screenShareOn]
    announces neither. *)
Theorem media_status_change_outcome now socketId sk roomId status s room :
  let result := handle now (FromClient socketId (MediaStatusChange status)) s in
  let audience := subscribers roomId (Server.sockets s) ∖ {[socketId]} in
  Server.sockets s !! socketId = Some sk →
  Socket.currentRoomId sk = Some roomId →
  (rooms_get now (Some roomId) s).1.1 = Some room →
  match JsMap.get socketId (OptimizedRoom.users room) with
  | None => result.2 = [] ∧ room_of roomId result.1 = Some room
  | Some user =>
      let user' := OptimizedRoom.merge status user in
      let flags := {| recipients := audience;
                      event := EvMediaStatusChange socketId
                                 (OptimizedRoom.flags_of user') |} in
      let screen :=
        {| recipients := audience;
           event := if User.screenShareOn user'
                    then EvUserStartedScreenShare socketId (Some (User.name user'))
                    else EvUserStoppedScreenShare socketId (Some (User.name user')) |} in
      user_of socketId (room_of roomId result.1) = Some user' ∧
      result.2 = (if Bool.eqb (User.screenShareOn user) (User.screenShareOn user')
                  then [flags] else [flags; screen]) ∧
      (Status.screenShareOn status = None → result.2 = [flags])
  end.
Proof.
  intros result audience Hsk Hcur Hlive. subst result. simpl. rewrite Hsk, Hcur.
  unfold on_media_status_change.
  destruct (rooms_get now (Some roomId) s) as [[found s1] out1] eqn:Hget.
  simpl in Hlive. subst found.
  destruct (rooms_get_room_of _ _ _ _ _ _ Hget) as (Hroom & Hroom1 & -> & Hsk1 & _).
  unfold OptimizedRoom.updateUserStatus.
  destruct (JsMap.get socketId (OptimizedRoom.users room)) as [user|] eqn:Huser.
  - cbn [fst snd]. rewrite Hsk1. fold audience.
    assert (user_of socketId
              (room_of roomId
                 (room_modify roomId
                    (fun _ =>
                       OptimizedRoom._invalidateCache
                         (OptimizedRoom.with_lastActivity now
                            (OptimizedRoom.with_users
                               (JsMap.set socketId (OptimizedRoom.merge status user)
                                  (OptimizedRoom.users room)) room))) s1))
            = Some (OptimizedRoom.merge status user)) as Hstored.
    { rewrite room_of_put by (by rewrite Hroom1). simpl. apply JsMap_get_set_eq. }
    set (b := Bool.eqb (User.screenShareOn user)
                (User.screenShareOn (OptimizedRoom.merge status user))).
    assert (app (A := Emit) []
                ([socket_to (Server.sockets s) socketId roomId
                    (EvMediaStatusChange socketId
                       (OptimizedRoom.flags_of (OptimizedRoom.merge status user)))]
                 ++ (if negb b
                     then if User.screenShareOn (OptimizedRoom.merge status user)
                          then [socket_to (Server.sockets s) socketId roomId
                                  (EvUserStartedScreenShare socketId
                                     (Some (User.name (OptimizedRoom.merge status user))))]
                          else [socket_to (Server.sockets s) socketId roomId
                                  (EvUserStoppedScreenShare socketId
                                     (Some (User.name (OptimizedRoom.merge status user))))]
                     else []))
              = if b
                then [{| recipients := audience;
                         event := EvMediaStatusChange socketId
                                    (OptimizedRoom.flags_of
                                       (OptimizedRoom.merge status user)) |}]
                else [{| recipients := audience;
                         event := EvMediaStatusChange socketId
                                    (OptimizedRoom.flags_of
                                       (OptimizedRoom.merge status user)) |};
                      {| recipients := audience;
                         event :=
                           if User.screenShareOn (OptimizedRoom.merge status user)
                           then EvUserStartedScreenShare socketId
                                  (Some (User.name (OptimizedRoom.merge status user)))
                           else EvUserStoppedScreenShare socketId
                                  (Some (User.name (OptimizedRoom.merge status user)))
                      |}]) as Hout.
    { subst audience. destruct b; unfold socket_to; cbn [negb app]; [done|].
      by destruct (User.screenShareOn (OptimizedRoom.merge status user)). }
    split_and!.
    + exact Hstored.
    + exact Hout.
    + intros Hnone. rewrite Hout.
      replace b with true; [done|]. subst b.
      simpl. rewrite Hnone. simpl. by destruct (User.screenShareOn user).
  - done.
Qed.

Lemma media_status_change_outcome_witness :
  let result :=
    handle 5 (FromClient "x"
                (MediaStatusChange
                   {| Status.cameraOn := None; Status.audioOn := None;
                      Status.screenShareOn := Some true; Status.name := None |}))
      two_rooms in
  (event <$> result.2)
  = [EvMediaStatusChange "x"
       {| Flags.cameraOn := false; Flags.audioOn := false;
          Flags.screenShareOn := true |};
     EvUserStartedScreenShare "x" (Some "Alice")].
Proof.
  intros result.
  pose proof (media_status_change_outcome 5 "x"
                {| Socket.rooms := {["a"; "x"]}; Socket.currentRoomId := Some "a";
                   Socket.userName := Some "Alice" |} "a"
                {| Status.cameraOn := None; Status.audioOn := None;
                   Status.screenShareOn := Some true; Status.name := None |}
                two_rooms
                (default (OptimizedRoom.new "a" 0) (room_of "a" two_rooms))) as H.
  cbn zeta in H. fold result in H.
  specialize (H ltac:(vm_compute; reflexivity) eq_refl
                ltac:(vm_compute; reflexivity)).
  change (JsMap.get "x"
            (OptimizedRoom.users
               (default (OptimizedRoom.new "a" 0) (room_of "a" two_rooms))))
    with (Some {| User.id := "x"; User.name := "Alice"; User.cameraOn := false;
                  User.audioOn := false; User.screenShareOn := false;
                  User.joinedAt := 1 |}) in H.
  destruct H as (_ & -> & _). reflexivity.
Defined.

(** ** What an offer carries *)

(** An [offer] that the server forwards carries the [sdp] of the payload,
    the id of the sender, and the name and the three flags that the room
    of the sender's session stores for the sender when the offer arrives,
    whatever the payload says about them. *)
Theorem offer_carries_stored_state now socketId p s e :
  e ∈ (handle now (FromClient socketId (Offer p)) s).2 →
  is_signal e →
  ∃ sk roomId room user,
    Server.sockets s !! socketId = Some sk ∧
    Socket.currentRoomId sk = Some roomId ∧
    room_of roomId s = Some room ∧
    JsMap.get socketId (OptimizedRoom.users room) = Some user ∧
    event e = EvOffer (OfferPayload.sdp p) socketId (User.name user)
                {| Flags.cameraOn := User.cameraOn user;
                   Flags.audioOn := User.audioOn user;
                   Flags.screenShareOn := User.screenShareOn user |}.
Proof.
  simpl. destruct (Server.sockets s !! socketId) as [sk|] eqn:Hsk;
    [|by intros ?%elem_of_nil].
  intros [Hd|(to & roomId & room & user & _ & Hcur & Hroom & Huser & ->)]%on_offer_emits
    Hsignal.
  - unfold is_disposal, is_signal in *. by destruct (event e).
  - by exists sk, roomId, room, user.
Qed.

Lemma offer_carries_stored_state_witness :
  event leaked_offer
  = EvOffer "v=0" "x" "Alice"
      {| Flags.cameraOn := false; Flags.audioOn := false;
         Flags.screenShareOn := false |}.
Proof.
  destruct (offer_carries_stored_state 4 "x"
              {| OfferPayload.sdp := "v=0"; OfferPayload.to := Some "y" |}
              two_rooms leaked_offer)
    as (sk & roomId & room & user & Hsk & Hcur & Hroom & Huser & ->).
  - vm_compute. left.
  - exact I.
  - vm_compute in Hsk. injection Hsk as <-. injection Hcur as <-.
    vm_compute in Hroom. injection Hroom as <-.
    vm_compute in Huser. injection Huser as <-. reflexivity.
Defined.

(** ** The legacy screen-share events *)



(** ** The counters of connections *)

Lemma rooms_get_stats now k s :
  Server.connectionStats (rooms_get now k s).1.2 = Server.connectionStats s.
Proof.
  unfold rooms_get. destruct k as [k|]; [|done].
  by destruct (LRU.get _ _ _ _) as [[room rooms1] disposed].
Qed.

Lemma getOrCreateRoom_stats roomId now s :
  Server.connectionStats (getOrCreateRoom roomId now s).1.2
  = Server.connectionStats s.
Proof.
  unfold getOrCreateRoom.
  pose proof (rooms_get_stats now (Some roomId) s) as Hget.
  destruct (rooms_get now (Some roomId) s) as [[found s1] out1].
  destruct found as [room|]; [done|].
  by destruct (LRU.set _ _ _ _ _) as [rooms2 disposed].
Qed.

Lemma on_join_room_stats now socketId p s :
  Server.connectionStats (on_join_room now socketId p s).1
  = Server.connectionStats s.
Proof.
  unfold on_join_room.
  destruct (validate_join _ _) as [[[roomId name]|]|]; [|done..].
  destruct (isRateLimited _ _ _ _ _ _) as [[] rl]; [done|].
  pose proof (getOrCreateRoom_stats (trim roomId) now
                (Server.with_rateLimits rl s)) as Hstats.
  destruct (getOrCreateRoom _ _ _) as [[room s2] out2].
  destruct (OptimizedRoom.getUsersArray now room) as [usersArray room1].
  destruct (OptimizedRoom.addUser _ _ _ _) as [added room2].
  destruct added; [destruct (OptimizedRoom.getUsersArray now room2)|]; done.
Qed.

Lemma on_offer_stats now socketId currentRoomId p s :
  Server.connectionStats (on_offer now socketId currentRoomId p s).1
  = Server.connectionStats s.
Proof.
  unfold on_offer. pose proof (rooms_get_stats now currentRoomId s) as Hstats.
  destruct (rooms_get _ _ _) as [[room s1] out1].
  destruct (user_of _ _), (OfferPayload.to p) as [to|]; try done.
  by destruct (truthy to).
Qed.

Lemma relay_stats limit ev now socketId currentRoomId p s :
  Server.connectionStats (relay limit ev now socketId currentRoomId p s).1
  = Server.connectionStats s.
Proof.
  unfold relay. destruct p as [p|]; [|done].
  destruct (RelayPayload.to p) as [to|]; [|done].
  destruct (_ || _); [done|].
  destruct (isRateLimited _ _ _ _ _ _) as [[] rl]; [done|].
  pose proof (rooms_get_stats now currentRoomId (Server.with_rateLimits rl s))
    as Hstats.
  destruct (rooms_get _ _ _) as [[room s2] out2].
  by destruct (user_of _ _).
Qed.

Lemma on_media_status_change_stats now socketId currentRoomId status s :
  Server.connectionStats
    (on_media_status_change now socketId currentRoomId status s).1
  = Server.connectionStats s.
Proof.
  unfold on_media_status_change.
  pose proof (rooms_get_stats now currentRoomId s) as Hstats.
  destruct (rooms_get _ _ _) as [[found s1] out1].
  destruct found as [room|], currentRoomId as [roomId|]; try done.
  by destruct (OptimizedRoom.updateUserStatus _ _ _ _) as [[updatedUser|] room'].
Qed.

Lemma on_chat_message_stats now socketId p s :
  Server.connectionStats (on_chat_message now socketId p s).1
  = Server.connectionStats s.
Proof.
  unfold on_chat_message.
  pose proof (rooms_get_stats now
    (match ChatPayload.roomId p with JString r => Some r | _ => None end) s)
    as Hstats.
  destruct (rooms_get _ _ _) as [[room s1] out1]. simpl in Hstats.
  destruct (user_of _ _) as [user|]; [|done].
  destruct (match ChatPayload.roomId p with JString r => Some r | _ => None end)
    as [roomId|]; [|done].
  destruct (ChatPayload.message p) as [|message|]; try done.
  destruct (negb (truthy (trim message))); [done|].
  destruct (ChatPayload.name p) as [|name|]; try done.
  destruct (negb (truthy (trim name))); [done|].
  destruct (negb (String.eqb _ _)); [done|].
  destruct (_ >? _); [done|].
  by destruct (isRateLimited _ _ _ _ _ _) as [[] rl].
Qed.

Lemma on_screen_share_stats on now socketId currentRoomId userName s :
  Server.connectionStats
    (on_screen_share on now socketId currentRoomId userName s).1
  = Server.connectionStats s.
Proof.
  unfold on_screen_share. destruct currentRoomId as [roomId|]; [|done].
  destruct (truthy roomId); [|done].
  pose proof (rooms_get_stats now (Some roomId) s) as Hstats.
  destruct (rooms_get _ _ _) as [[found s1] out1].
  by destruct found.
Qed.

Lemma on_disconnect_stats now socketId currentRoomId s :
  Server.connectionStats (on_disconnect now socketId currentRoomId s).1
  = {| ConnectionStats.total :=
         Z.max 0 (ConnectionStats.total (Server.connectionStats s) - 1);
       ConnectionStats.peak := ConnectionStats.peak (Server.connectionStats s);
       ConnectionStats.lastPeakTime :=
         ConnectionStats.lastPeakTime (Server.connectionStats s);
       ConnectionStats.totalConnections :=
         ConnectionStats.totalConnections (Server.connectionStats s) |}.
Proof.
  unfold on_disconnect. destruct currentRoomId as [roomId|]; [|done].
  destruct (truthy roomId); [|done].
  match goal with |- context [rooms_get now (Some roomId) ?s0] =>
    pose proof (rooms_get_stats now (Some roomId) s0) as Hstats end.
  destruct (rooms_get _ _ _) as [[found s1] out1].
  destruct found as [room|]; [|done].
  destruct (OptimizedRoom.removeUser _ _ _) as [[] room']; [|done].
  simpl. destruct (OptimizedRoom.isEmpty room'); [|done].
  unfold scheduleCleanup. simpl. by destruct (Server.cleanupScheduled s1).
Qed.

Lemma handle_stats_ok now i s : stats_ok s → stats_ok (handle now i s).1.
Proof.
  unfold stats_ok. intros (Htotal & Hpeak & Hserved).
  destruct i as [socketId|socketId ev|]; simpl.
  - destruct (Server.sockets s !! socketId) eqn:Hsk; [done|].
    unfold on_connection. simpl. rewrite map_size_insert_None by done.
    case_gtb; lia.
  - destruct (Server.sockets s !! socketId) as [sk|] eqn:Hsk; [|done].
    destruct ev.
    + done.
    + rewrite on_join_room_stats.
      destruct (on_join_room_sockets now socketId p s) as [->|(r & n & ->)];
        [done|].
      by rewrite <- size_dom, dom_alter_L, size_dom.
    + by rewrite on_offer_stats, on_offer_sockets.
    + unfold on_answer. by rewrite relay_stats, relay_sockets.
    + unfold on_ice_candidate. by rewrite relay_stats, relay_sockets.
    + by rewrite on_media_status_change_stats, on_media_status_change_sockets.
    + by rewrite on_chat_message_stats, on_chat_message_sockets.
    + by rewrite on_screen_share_stats, on_screen_share_sockets.
    + by rewrite on_screen_share_stats, on_screen_share_sockets.
    + rewrite on_disconnect_stats, on_disconnect_sockets. simpl.
      rewrite map_size_delete_Some by done.
      assert (size (Server.sockets s) ≠ 0%nat) as Hne.
      { intros Hz%map_size_empty_inv. by rewrite Hz in Hsk. }
      lia.
  - by destruct (Server.cleanupScheduled s).
Qed.

(** In every state the event loop can reach, [connectionStats.total] is
    the number of connected sockets, it is at most [peak], and [peak] is
    at most [totalConnections], the number of connections ever served. *)
Theorem connection_counters trace t0 :
  stats_ok (run trace (Server.init t0)).1.
Proof.
  assert (∀ s, stats_ok s → stats_ok (run trace s).1) as Hrun.
  { induction trace as [|[now i] trace IH]; intros s Hs; [done|].
    simpl. pose proof (handle_stats_ok now i s Hs) as Hs1.
    destruct (handle now i s) as [s1 out1]. specialize (IH s1 Hs1).
    by destruct (run trace s1). }
  apply Hrun. unfold stats_ok. simpl. rewrite map_size_empty. lia.
Qed.

(** * The HTTP endpoints *)

(** ** Requests keep the invariants *)

Lemma api_room_stats_steps now roomId s :
  cache_steps (Server.rooms s) (Server.rooms (api_room_stats now roomId s).1.2).
Proof.
  unfold api_room_stats.
  pose proof (rooms_get_steps now (Some roomId) s) as Hsteps.
  destruct (rooms_get _ _ _) as [[found s1] out1] eqn:Hget.
  destruct found as [room|]; [|done].
  pose proof (put_steps roomId [CallGetUsersArray now] room _
                (rooms_get_held _ _ _ _ _ _ Hget)) as Hput. simpl in Hput.
  destruct (OptimizedRoom.getUsersArray now room) as [usersArray room1].
  by eapply steps_trans.
Qed.

Lemma api_room_stats_Forall P `{!RoomInvariant P} now roomId s :
  rooms_Forall P s → rooms_Forall P (api_room_stats now roomId s).1.2.
Proof.
  intros Hs. unfold api_room_stats.
  destruct (rooms_get now (Some roomId) s) as [[found s1] out1] eqn:Hget.
  destruct (rooms_get_Forall P _ _ _ _ _ _ Hget Hs) as [Hs1 Hfound].
  destruct found as [room|]; [|done].
  pose proof (inv_getUsersArray now room (Hfound room eq_refl)) as Hroom1.
  destruct (OptimizedRoom.getUsersArray now room) as [usersArray room1].
  by apply room_put_Forall.
Qed.

Lemma api_room_stats_frame now roomId s :
  Server.sockets (api_room_stats now roomId s).1.2 = Server.sockets s ∧
  Server.connectionStats (api_room_stats now roomId s).1.2
  = Server.connectionStats s.
Proof.
  unfold api_room_stats.
  pose proof (rooms_get_frame now (Some roomId) s) as [Hsk _].
  pose proof (rooms_get_stats now (Some roomId) s) as Hstats.
  destruct (rooms_get _ _ _) as [[found s1] out1].
  destruct found as [room|]; [|done].
  by destruct (OptimizedRoom.getUsersArray now room) as [usersArray room1].
Qed.

Lemma serve_ok now r s : server_ok s → server_ok (serve now r s).1.
Proof.
  intros (Hub & Hhn & Hcc & Hwf & Hcache & Hids & Hstats).
  destruct r as [i|[|roomId|]]; simpl; [|done| |done].
  - split_and!.
    + by apply (handle_Forall users_bounded).
    + by apply (handle_Forall history_numbered).
    + by apply (handle_Forall cache_coherent).
    + by apply (handle_Forall users_wf).
    + by apply (cache_steps_wf _ _ (handle_cache_steps now i s)).
    + by apply (cache_steps_ids _ _ (handle_cache_steps now i s)).
    + by apply handle_stats_ok.
  - pose proof (api_room_stats_steps now roomId s) as Hsteps.
    pose proof (api_room_stats_frame now roomId s) as [Hsk Hcs].
    pose proof (api_room_stats_Forall users_bounded now roomId s Hub).
    pose proof (api_room_stats_Forall history_numbered now roomId s Hhn).
    pose proof (api_room_stats_Forall cache_coherent now roomId s Hcc).
    pose proof (api_room_stats_Forall users_wf now roomId s Hwf).
    destruct (api_room_stats now roomId s) as [[response s1] out1]. simpl in *.
    split_and!; try done.
    + by apply (cache_steps_wf _ _ Hsteps).
    + by apply (cache_steps_ids _ _ Hsteps).
    + unfold stats_ok in *. by rewrite Hsk, Hcs.
Qed.

Lemma reachable_ok trace t0 : server_ok (run_all trace (Server.init t0)).1.
Proof.
  assert (∀ s, server_ok s → server_ok (run_all trace s).1) as Hrun.
  { induction trace as [|[now r] trace IH]; intros s Hs; [done|].
    simpl. pose proof (serve_ok now r s Hs) as Hs1.
    destruct (serve now r s) as [s1 out1]. specialize (IH s1 Hs1).
    by destruct (run_all trace s1). }
  apply Hrun.
  unfold server_ok, stats_ok, cache_wf, ids_ok, rooms_Forall, all_values. simpl.
  rewrite map_size_empty.
  split_and!; try (by constructor); unfold MAX_ROOMS; simpl; lia.
Qed.

(** Whatever socket events and HTTP requests the server has served, every
    room of the cache has at most 150 participants under distinct ids, a
    numbered history of at most 100 messages and a memoized roster that is
    the roster; the cache holds at most 200 rooms under distinct,
    validated ids; and the counters of connections agree with the
    connected sockets. *)
Theorem served_invariants trace t0 :
  server_ok (run_all trace (Server.init t0)).1.
Proof. apply reachable_ok. Qed.

Lemma run_all_events trace s :
  run_all ((fun step => (step.1, FromSocket step.2)) <$> trace) s = run trace s.
Proof.
  revert s. induction trace as [|[now i] trace IH]; intros s; [done|].
  csimpl. destruct (handle now i s) as [s1 out1]. by rewrite IH.
Qed.

(** ** The totals of [/health] and [/api/stats] *)

Lemma foldl_sum_fmap {A B} (f : A → B) (g : B → Z) (l : list A) acc :
  foldl (fun sum y => sum + g y) acc (f <$> l)
  = foldl (fun sum x => sum + g (f x)) acc l.
Proof. revert acc. induction l as [|x l IH]; intros acc; csimpl; [done|]. apply IH. Qed.

Lemma foldl_sum_bounds {A} (g : A → Z) (bound : Z) (l : list A) acc :
  Forall (fun x => 0 ≤ g x ≤ bound) l →
  acc ≤ foldl (fun sum x => sum + g x) acc l ≤ acc + bound * Z.of_nat (length l).
Proof.
  intros Hl. revert acc. induction Hl as [|x l Hx _ IH]; intros acc; simpl; [lia|].
  specialize (IH (acc + g x)). lia.
Qed.

Lemma LRU_values_Forall {V} (P : V → Prop) cfg now (items : list (LRU.entry V)) :
  all_values P items → Forall P (LRU.values cfg now items).
Proof.
  unfold all_values, LRU.values, LRU.entries. intros Hall.
  rewrite <- list_fmap_compose. apply Forall_fmap.
  apply Forall_forall. intros e [_ He]%list_elem_of_filter.
  by apply (proj1 (Forall_forall _ _) Hall).
Qed.

Lemma LRU_values_length {V} cfg now (items : list (LRU.entry V)) :
  (length (LRU.values cfg now items) ≤ length items)%nat.
Proof.
  unfold LRU.values, LRU.entries. rewrite !length_fmap. apply length_filter.
Qed.

(** Whatever requests the server has served, [/health] and [/api/stats]
    agree on the number of rooms, participants and stored messages.  The
    number of rooms is that of all entries of the cache, at most 200, and
    is at least the number of rooms that [/api/stats] lists, which leaves
    out the rooms whose time to live has passed; the participants are at
    most 150 and the messages at most 100 for each listed room; and the
    connections reported are the connected sockets, at most the peak. *)
Theorem health_totals {Process : Type} trace t0 now (process : Process) :
  let s := (run_all trace (Server.init t0)).1 in
  let answer := health now process s in
  let stats := api_stats now process s in
  let listed := Z.of_nat (length (Stats.rooms stats)) in
  Health.rooms answer = Stats.totalRooms stats ∧
  listed ≤ Health.rooms answer ≤ MAX_ROOMS ∧
  Health.total_users answer = Stats.totalUsers stats ∧
  0 ≤ Health.total_users answer ≤ MAX_USERS_PER_ROOM * listed ∧
  Health.total_messages answer = Stats.totalMessages stats ∧
  0 ≤ Health.total_messages answer ≤ MAX_CHAT_HISTORY * listed ∧
  Health.connections answer = Z.of_nat (size (Server.sockets s)) ∧
  Health.connections answer ≤ Health.peak_connections answer ∧
  Health.peak_connections answer ≤ Health.total_connections_served answer.
Proof.
  intros s answer stats listed.
  destruct (reachable_ok trace t0)
    as (Hub & Hhn & _ & _ & [_ Hlen] & _ & Htotal & Hpeak & Hserved).
  fold s in Hub, Hhn, Hlen, Htotal, Hpeak, Hserved.
  subst answer stats listed. unfold health, api_stats. simpl.
  rewrite !foldl_sum_fmap, length_fmap. simpl.
  pose proof (LRU_values_length rooms_config now (Server.rooms s)) as Hlisted.
  pose proof (foldl_sum_bounds
                (fun room => JsMap.size (OptimizedRoom.users room))
                MAX_USERS_PER_ROOM
                (LRU.values rooms_config now (Server.rooms s)) 0) as Husers.
  pose proof (foldl_sum_bounds
                (fun room => Z.of_nat (length (OptimizedRoom.chatHistory room)))
                MAX_CHAT_HISTORY
                (LRU.values rooms_config now (Server.rooms s)) 0) as Hmessages.
  split_and!; try done; try lia.
  - apply Husers. apply LRU_values_Forall.
    eapply Forall_impl; [exact Hub|]. intros e He. unfold users_bounded, JsMap.size in *.
    simpl in *. lia.
  - apply Husers. apply LRU_values_Forall.
    eapply Forall_impl; [exact Hub|]. intros e He. unfold users_bounded, JsMap.size in *.
    simpl in *. lia.
  - apply Hmessages. apply LRU_values_Forall.
    eapply Forall_impl; [exact Hhn|]. intros e (He & _). simpl in *. lia.
  - apply Hmessages. apply LRU_values_Forall.
    eapply Forall_impl; [exact Hhn|]. intros e (He & _). simpl in *. lia.
Qed.

(** ** The statistics of one room *)



Example room_stats_endpoint_answers :
  let result := api_room_stats 9 "a" talkative in
  (StoredMessage.message <$>
     match result.1.1 with
     | RoomStatsOk body => RoomStats.recentMessages body
     | RoomStatsNotFound _ => []
     end) = ["one"; "two"] ∧
  (api_room_stats 7200005 "a" talkative).1.1 = RoomStatsNotFound "Room not found".
Proof. vm_compute. done. Qed.
